(** * spica: the VPC resource graph and its Graphviz layout

    A shallow embedding of [src/vpc.py], [src/service.py], [src/utils.py],
    [src/outputs/graphviz.py] and the part of [src/region.py] that does
    not touch the file system, followed by the properties of the resource
    graph, the containment analysis, the layout and the edge router, and
    by those of the scan that builds the graph.

    Conventions.
    - Python [str] is [string]; comparison of strings is by character code,
      as in Python.
    - A Python [dict] whose iteration order reaches the output
      ([VPC._services], [VPC.azs], the attribute dictionaries of [node] and
      [edge], [ranks]) is an association list in insertion order.  A [dict]
      that is only indexed ([VPC.subnets], the [Counter]s) is a [gmap]; a
      [set] is a [gset].
    - An exception is a value of [exn]; a computation that may raise
      returns a [result].
    - [to_graphviz] reads [vpc.subnets], a [defaultdict]: reading a missing
      key stores an empty list.  The functions that read it therefore take
      the graph and return the graph they leave behind. *)

From Stdlib Require Import QArith Ascii String DecimalString DecimalNat Lqa.
From stdpp Require Import gmap strings list fin_maps sorting.

Open Scope string_scope.
Open Scope list_scope.

(** ** Python values and built-in operations *)

Module Py.

Inductive exn : Type :=
  | TypeError | AttributeError | KeyError | ValueError | IndexError.

Inductive result (A : Type) : Type :=
  | Ok (a : A)
  | Raise (e : exn).
Arguments Ok {A} a.
Arguments Raise {A} e.

Definition bind {A B} (r : result A) (k : A → result B) : result B :=
  match r with
  | Ok a => k a
  | Raise e => Raise e
  end.

#[global] Instance exn_eq_dec : EqDecision exn.
Proof. solve_decision. Defined.

#[global] Instance result_eq_dec {A} `{EqDecision A} : EqDecision (result A).
Proof. solve_decision. Defined.

#[global] Instance result_bind : MBind result := fun A B k r => bind r k.
#[global] Instance result_ret : MRet result := fun A a => Ok a.

(** [[f(x) for x in l]], stopping at the first exception. *)
Fixpoint mapM {A B} (f : A → result B) (l : list A) : result (list B) :=
  match l with
  | [] => Ok []
  | x :: l' => y ← f x; ys ← mapM f l'; Ok (y :: ys)
  end.

(** [for x in l: acc = body(acc, x)], stopping at the first exception. *)
Fixpoint foldM {A S} (body : S → A → result S) (acc : S) (l : list A)
  : result S :=
  match l with
  | [] => Ok acc
  | x :: l' => acc' ← body acc x; foldM body acc' l'
  end.

(** The same loop when the body also changes an object [w] that outlives
    an exception. *)
Fixpoint foldSM {A S W} (body : W → S → A → W * result S) (w : W) (acc : S)
    (l : list A) : W * result S :=
  match l with
  | [] => (w, Ok acc)
  | x :: l' =>
      match body w acc x with
      | (w', Ok acc') => foldSM body w' acc' l'
      | (w', Raise e) => (w', Raise e)
      end
  end.

(** *** Characters and strings *)

Definition chr (n : nat) : string := String (ascii_of_nat n) EmptyString.
Definition newline : string := chr 10.
Definition dquote : string := chr 34.
Definition backslash_n : string := "\n".  (* the two characters of [\\n] *)

Definition code (c : ascii) : N := N_of_ascii c.
Definition codes (s : string) : list N := map code (list_ascii_of_string s).

(** Lexicographic [<] of Python sequences: the first position where the
    two differ decides; a proper prefix is smaller. *)
Fixpoint lex_ltb {A} (ltb : A → A → bool) (l1 l2 : list A) : bool :=
  match l1, l2 with
  | _, [] => false
  | [], _ :: _ => true
  | x :: l1', y :: l2' =>
      if ltb x y then true
      else if ltb y x then false
      else lex_ltb ltb l1' l2'
  end.

Definition str_ltb (s1 s2 : string) : bool := lex_ltb N.ltb (codes s1) (codes s2).

(** [<] of two-element tuples of strings. *)
Definition pair_ltb (p1 p2 : string * string) : bool :=
  if str_ltb p1.1 p2.1 then true
  else if str_ltb p2.1 p1.1 then false
  else str_ltb p1.2 p2.2.

(** [s.startswith(p)] *)
Definition startswith (p s : string) : bool := String.prefix p s.

(** [c in s] for a one-character [c] *)
Fixpoint contains_char (c : ascii) (s : string) : bool :=
  match s with
  | EmptyString => false
  | String d s' => if Ascii.eqb c d then true else contains_char c s'
  end.

(** [s.split(c)] for a one-character separator: never empty. *)
Fixpoint split_acc (c : ascii) (cur : string) (s : string) : list string :=
  match s with
  | EmptyString => [String.rev cur]
  | String d s' =>
      if Ascii.eqb c d then String.rev cur :: split_acc c EmptyString s'
      else split_acc c (String d cur) s'
  end.
Definition split (c : ascii) (s : string) : list string :=
  split_acc c EmptyString s.

(** [s.split(c, maxsplit=1)] *)
Fixpoint split1_acc (c : ascii) (cur : string) (s : string) : list string :=
  match s with
  | EmptyString => [String.rev cur]
  | String d s' =>
      if Ascii.eqb c d then [String.rev cur; s']
      else split1_acc c (String d cur) s'
  end.
Definition split1 (c : ascii) (s : string) : list string :=
  split1_acc c EmptyString s.

(** [sep.join(l)] *)
Fixpoint join (sep : string) (l : list string) : string :=
  match l with
  | [] => EmptyString
  | [x] => x
  | x :: l' => x +:+ sep +:+ join sep l'
  end.

(** [str(n)] for a non-negative integer *)
Definition str_of_nat (n : nat) : string :=
  NilZero.string_of_uint (Nat.to_uint n).

(** *** [int(s)]

    Surrounding white space is ignored, one sign is allowed, and the
    digits may be grouped by single underscores.  (Only ASCII input is
    modelled, and not the interpreter's bound on the number of digits.) *)
Definition is_space (c : ascii) : bool :=
  let n := code c in
  ((9 <=? n) && (n <=? 13) || (28 <=? n) && (n <=? 32))%N.

Fixpoint lstrip (s : string) : string :=
  match s with
  | String c s' => if is_space c then lstrip s' else s
  | EmptyString => EmptyString
  end.
Definition strip (s : string) : string :=
  String.rev (lstrip (String.rev (lstrip s))).

Definition digit (c : ascii) : option Z :=
  let n := code c in
  if ((48 <=? n) && (n <=? 57))%N then Some (Z.of_N n - 48)%Z else None.

(** [digits acc after_digit s]: [after_digit] tells whether the previous
    character was a digit, which an underscore and the end require. *)
Fixpoint digits (acc : Z) (after_digit : bool) (s : string) : option Z :=
  match s with
  | EmptyString => if after_digit then Some acc else None
  | String c s' =>
      match digit c with
      | Some d => digits (10 * acc + d)%Z true s'
      | None =>
          if Ascii.eqb c "_"%char && after_digit then digits acc false s'
          else None
      end
  end.

Definition int (s : string) : result Z :=
  let body (sign : Z) (t : string) :=
    match digits 0 false t with
    | Some n => Ok (sign * n)%Z
    | None => Raise ValueError
    end in
  match strip s with
  | String "+"%char t => body 1%Z t
  | String "-"%char t => body (-1)%Z t
  | t => body 1%Z t
  end.

(** *** [sorted]

    [sorted] is stable and only ever asks [<].  Every stable sort returns
    the same list, so insertion from the right stands for it: an element
    goes before the first element that is not smaller than it, hence
    before its equals that followed it in the input. *)
Section Sorted.
Context {A : Type} (ltb : A → A → bool).

Fixpoint insert_sorted (x : A) (l : list A) : list A :=
  match l with
  | [] => [x]
  | y :: l' => if ltb y x then y :: insert_sorted x l' else x :: y :: l'
  end.

Definition sorted (l : list A) : list A := foldr insert_sorted [] l.

End Sorted.

(** [sorted(l, key=f)]: the keys are computed first, in order, so the
    first exception of [f] is the one raised. *)
Definition sorted_key {A K} (ltb : K → K → bool) (key : A → result K)
    (l : list A) : result (list A) :=
  kl ← mapM (fun x => k ← key x; Ok (k, x)) l;
  Ok (map snd (sorted (fun p q => ltb p.1 q.1) kl)).

(** *** Ordered dictionaries (association lists, first binding wins) *)
Section Dict.
Context {V : Type}.

Fixpoint get (k : string) (d : list (string * V)) : option V :=
  match d with
  | [] => None
  | (k', v) :: d' => if String.eqb k k' then Some v else get k d'
  end.

(** [k in d] *)
Definition has_key (k : string) (d : list (string * V)) : bool :=
  existsb (String.eqb k) (map fst d).

(** [d[k] = v]: an existing key keeps its place. *)
Fixpoint set (k : string) (v : V) (d : list (string * V))
  : list (string * V) :=
  match d with
  | [] => [(k, v)]
  | (k', v') :: d' =>
      if String.eqb k k' then (k', v) :: d' else (k', v') :: set k v d'
  end.

End Dict.

(** [x in l] for a list of strings *)
Definition str_in (x : string) (l : list string) : bool :=
  existsb (String.eqb x) l.

End Py.

(** ** [src/utils.py] *)

Module Utils.
Import Py.

Record Arn := {
  arn : string;
  partition : string;
  service : string;
  region : string;
  account : string;
  resourcetype : option string;
  resource : string;
}.

(** [elements[i]] *)
Definition item (elements : list string) (i : nat) : result string :=
  match elements !! i with
  | Some x => Ok x
  | None => Raise IndexError
  end.

Definition parse_arn (s : string) : result Arn :=
  let elements := split ":"%char s in
  e0 ← item elements 0;
  e1 ← item elements 1;
  e2 ← item elements 2;
  e3 ← item elements 3;
  e4 ← item elements 4;
  if Nat.eqb (length elements) 7 then
    e5 ← item elements 5;
    e6 ← item elements 6;
    Ok {| arn := e0; partition := e1; service := e2; region := e3;
          account := e4; resourcetype := Some e5; resource := e6 |}
  else
    e5 ← item elements 5;
    if negb (contains_char "/"%char e5) then
      Ok {| arn := e0; partition := e1; service := e2; region := e3;
            account := e4; resourcetype := None; resource := e5 |}
    else
      match split1 "/"%char e5 with
      | [t; r] =>
          Ok {| arn := e0; partition := e1; service := e2; region := e3;
                account := e4; resourcetype := Some t; resource := r |}
      | _ => Raise ValueError  (* unpacking needs exactly two parts *)
      end.

End Utils.

(** ** [src/service.py] *)

Module Service.
Import Py.

(** The provider's description of a resource ([details]).  Only the
    entries that the renderer reads are kept, with the types the provider
    gives them: the tag list, the top-level string entries (["Name"],
    ["CidrBlock"], ["PrivateIpAddress"], ...), the subnet's
    ["MapPublicIpOnLaunch"] flag and the interface's
    [["Association"]["PublicIp"]].  [None] is an absent key. *)
Record Tag := { Key : string; Value : string }.

Record Details := {
  Tags : option (list Tag);
  entries : list (string * string);
  MapPublicIpOnLaunch : option bool;
  Association_PublicIp : option string;
}.

(** The classes of [service.py]; the two dataclasses with an extra field
    carry it. *)
Inductive Class : Type :=
  | ServiceInstanceC
  | AutoServiceGroup
  | EC2Instance (instance_type : string)
  | EksCluster
  | HostedZone
  | LambdaFunction
  | LoadBalancer
  | NatGateway
  | NetworkInterface
  | RdsInstance (instance_type : string)
  | SecurityGroup
  | Subnet
  | TargetGroup
  | VpcEndpoint.

Record ServiceInstance := {
  class : Class;
  details : Details;
  service_name : string;
  instance_name : string;
}.

#[global] Instance Tag_eq_dec : EqDecision Tag.
Proof. solve_decision. Defined.

#[global] Instance Details_eq_dec : EqDecision Details.
Proof. solve_decision. Defined.

#[global] Instance Class_eq_dec : EqDecision Class.
Proof. solve_decision. Defined.

#[global] Instance ServiceInstance_eq_dec : EqDecision ServiceInstance.
Proof. solve_decision. Defined.

(** [self.details[k]] *)
Definition entry (k : string) (d : Details) : result string :=
  match get k (entries d) with
  | Some v => Ok v
  | None => Raise KeyError
  end.

(** [self.details.get("Tags", [])] *)
Definition tags (d : Details) : list Tag := default [] (Tags d).

(** Truth value of an optional string: [None] and the empty string are
    false. *)
Definition truthy (o : option string) : bool :=
  match o with
  | Some (String _ _) => true
  | _ => false
  end.

(** Prices per hour; the monthly cost is the price times [24 * 30].  The
    source computes in binary floating point, the model in exact
    rationals: the only use made of a cost here is the test [> 0], on
    which the two agree. *)
Definition EC2_COST_PER_TYPE : list (string * Q) :=
  [ ("m3.medium", 67 # 1000); ("m4.2xlarge", 40 # 100);
    ("m5.large", 96 # 1000); ("t2.2xlarge", 3712 # 10000);
    ("t2.large", 928 # 10000); ("t2.medium", 464 # 10000);
    ("t2.micro", 116 # 10000); ("t2.small", 23 # 1000);
    ("t2.xlarge", 1856 # 10000); ("t3.small", 208 # 10000);
    ("t3a.large", 752 # 10000); ("t3a.xlarge", 1504 # 10000) ].

Definition RDS_COST_PER_TYPE : list (string * Q) :=
  [ ("db.m3.2xlarge", 155 # 100); ("db.m5.2xlarge", 712 # 1000);
    ("db.m5.xl", 356 # 1000); ("db.m5.xlarge", 342 # 1000);
    ("db.r5.large", 25 # 100); ("db.r5.xl", 50 # 100);
    ("db.r5.xlarge", 48 # 100); ("db.t2.medium", 73 # 1000);
    ("db.t2.micro", 17 # 1000); ("db.t2.small", 36 # 1000);
    ("db.t3.medium", 72 # 1000); ("db.t3.small", 36 # 1000) ].

Definition cost_per_month (s : ServiceInstance) : Q :=
  match class s with
  | EC2Instance t => default 0%Q (get t EC2_COST_PER_TYPE) * 24 * 30
  | LoadBalancer => (25 # 1000) * 24 * 30
  | NatGateway => (45 # 1000) * 24 * 30
  | NetworkInterface =>
      if truthy (Association_PublicIp (details s))
      then (5 # 1000) * 24 * 30 else 0
  | RdsInstance t => default 0%Q (get t RDS_COST_PER_TYPE) * 24 * 30
  | _ => 0
  end%Q.

Definition id (s : ServiceInstance) : result string :=
  if startswith "arn" (instance_name s) then
    elems ← Utils.parse_arn (instance_name s);
    Ok (Utils.resource elems)
  else Ok (instance_name s).

(** [ServiceInstance.label]: the instance name, then a line per tag
    called ["Name"]. *)
Definition base_label (s : ServiceInstance) : string :=
  fold_left
    (fun result tag =>
       if String.eqb (Key tag) "Name"
       then result +:+ backslash_n +:+ Value tag else result)
    (tags (details s)) (instance_name s).

(** [ServiceInstance.name] *)
Definition base_name (s : ServiceInstance) : result string :=
  if startswith "arn" (instance_name s) then
    elems ← Utils.parse_arn (instance_name s);
    Ok (Utils.resource elems)
  else
    Ok (fold_left
          (fun result tag =>
             if String.eqb (Key tag) "Name" then Value tag else result)
          (tags (details s)) (instance_name s)).

Definition name (s : ServiceInstance) : result string :=
  match class s with
  | EksCluster => entry "name" (details s)
  | HostedZone => entry "Name" (details s)
  | LambdaFunction => entry "FunctionName" (details s)
  | LoadBalancer => entry "LoadBalancerName" (details s)
  | SecurityGroup => entry "GroupName" (details s)
  | TargetGroup =>
      result ← entry "TargetGroupName" (details s);
      Ok (fold_left
            (fun result tag =>
               if String.eqb (Key tag) "Name" then Value tag else result)
            (tags (details s)) result)
  | VpcEndpoint => entry "ServiceName" (details s)
  | _ => base_name s
  end.

(** [NetworkInterface.address] *)
Definition address (s : ServiceInstance) : option string :=
  let public := Association_PublicIp (details s) in
  if truthy public then public
  else
    let private := get "PrivateIpAddress" (entries (details s)) in
    if truthy private then private else None.

Definition label (s : ServiceInstance) : result string :=
  match class s with
  | EksCluster | HostedZone | LambdaFunction | LoadBalancer
  | SecurityGroup | TargetGroup | VpcEndpoint => name s
  | NetworkInterface =>
      match address s with
      | Some ip => Ok (base_label s +:+ backslash_n +:+ ip)
      | None => Ok (base_label s)
      end
  | _ => Ok (base_label s)
  end.

Definition type_info (s : ServiceInstance) : result string :=
  match class s with
  | EC2Instance t | RdsInstance t => Ok t
  | TargetGroup => entry "TargetType" (details s)
  | VpcEndpoint => entry "VpcEndpointType" (details s)
  | _ => Ok EmptyString
  end.

(** [Subnet.cidr]; any other class has no such attribute. *)
Definition cidr (s : ServiceInstance) : result string :=
  match class s with
  | Subnet => entry "CidrBlock" (details s)
  | _ => Raise AttributeError
  end.

(** [Subnet.subnet_type] *)
Definition subnet_type (s : ServiceInstance) : result string :=
  match class s with
  | Subnet =>
      match MapPublicIpOnLaunch (details s) with
      | Some true => Ok "Public"
      | Some false => Ok "Private"
      | None => Raise KeyError
      end
  | _ => Raise AttributeError
  end.

End Service.

(** ** [src/vpc.py] *)

Module Vpc.
Import Py.

(** [Relation = namedtuple("Relation", ["source", "target"])] *)
Record Relation := mkRelation { source : string; target : string }.

#[global] Instance Relation_eq_dec : EqDecision Relation.
Proof. solve_decision. Defined.

#[global] Instance Relation_countable : Countable Relation.
Proof.
  apply (inj_countable' (fun r => (source r, target r))
                        (fun p => mkRelation p.1 p.2)).
  by intros [].
Defined.

(** A named tuple compares as the tuple of its fields. *)
Definition Relation_ltb (r1 r2 : Relation) : bool :=
  pair_ltb (source r1, target r1) (source r2, target r2).

Record AvailabilityZone := {
  service_ids : list string;
  subnet_ids : list string;
}.

(** The fields of a [VPC] that the renderer reads.  [cidr_block] is set by
    [scan], not by [__init__]: [None] is the attribute not yet set. *)
Record VPC := mkVPC {
  id : string;
  name : string;
  cidr_block : option string;
  _services : list (string * Service.ServiceInstance);
  relations : gset Relation;
  azs : list (string * AvailabilityZone);
  subnets : gmap string (list string);
}.

(** [VPC.__getitem__] *)
Definition getitem (self : VPC) (key : string)
  : option Service.ServiceInstance :=
  get key (_services self).

(** [VPC.__contains__] *)
Definition contains (self : VPC) (key : string) : bool :=
  has_key key (_services self).

(** [VPC.services] *)
Definition services (self : VPC) : list Service.ServiceInstance :=
  map snd (_services self).

(** [VPC.availability_zones] *)
Definition availability_zones (self : VPC) : list AvailabilityZone :=
  map snd (azs self).

Definition with_relations (self : VPC) (r : gset Relation) : VPC :=
  mkVPC (id self) (name self) (cidr_block self) (_services self) r
        (azs self) (subnets self).

Definition with_subnets (self : VPC) (s : gmap string (list string)) : VPC :=
  mkVPC (id self) (name self) (cidr_block self) (_services self)
        (relations self) (azs self) s.

(** [VPC._add_relation]; an endpoint is a string or [None]. *)
Definition _add_relation (self : VPC) (src trg : option string) : VPC :=
  match src, trg with
  | None, _ | _, None => self
  | Some s, Some t => with_relations self ({[ mkRelation s t ]} ∪ relations self)
  end.

(** [self.subnets[k]] on the [defaultdict(list)]: a missing key is stored
    with an empty list before it is returned. *)
Definition subnets_getitem (self : VPC) (k : string) : VPC * list string :=
  match subnets self !! k with
  | Some l => (self, l)
  | None => (with_subnets self (<[k := []]> (subnets self)), [])
  end.

End Vpc.

(** ** [src/outputs/graphviz.py] *)

Module Graphviz.
Import Py.
Export Service Vpc.

Definition TOP_SVC : list string :=
  ["ASG"; "ELBv1"; "ELBv2"; "EPT-GWLB"; "VPGW"; "TG"; "EKS"; "Lambda"; "EPT-I"].
Definition SUBNET_SVC : list string := ["EC2"; "ENI"; "NAT"].
Definition BOTTOM_SVC : list string := ["RDS"].
Definition NW_SVC : list string := ["ACL"; "EPT-GW"; "IGW"; "RTB"; "PEER"; "SG"].

Definition LEVELS : list (list string) :=
  [ ["R53"]; ["HZ"]; ["VPC"]; ["VPGW"]; ["EPT-GWLB"]; ["ACL"]; ["ASG"];
    ["ELBv1"; "ELBv2"]; ["TG"]; ["EKS"]; ["Lambda"]; ["EPT-I"]; ["SUBN"];
    ["EC2"; "NAT"]; ["ENI"]; ["RDS"]; ["RTB"]; ["SG"];
    ["EPT-GW"; "PEER"; "IGW"] ].

Definition NETWORK : list string :=
  ["ACL"; "ELBv1"; "ELBv2"; "ENI"; "EPT-I"; "EPT-GWLB"; "HZ"; "IGW"; "NAT";
   "PEER"; "RTB"; "SG"; "TG"; "VPGW"].
Definition STORAGE : list string := ["EPT-GW"; "RDS"].
Definition COMPUTE : list string := ["ASG"; "EC2"; "Lambda"; "EKS"].

Record GVSN := {
  sn_cluster_id : string;
  sn_id : string;
  sn_label : string;
  sn_services : list string;
}.

Record GVAZ := {
  az_cluster_id : string;
  az_label : string;
  az_subnets : list GVSN;
  az_top_services : list string;
  az_bottom_services : list string;
}.

(** [cidr_sort]; the argument is [vpc[k]], which may be [None]. *)
Definition cidr_sort (svc : option ServiceInstance) : result (list Z) :=
  match svc with
  | None => Raise AttributeError
  | Some svc =>
      c ← cidr svc;
      ip ← Utils.item (split "/"%char c) 0;
      mapM int (split "."%char ip)
  end.

(** [level]: the index of the first level that lists the type, or [None]
    (after the message has been printed). *)
Fixpoint level_from (l : nat) (levels : list (list string))
    (service_name : string) : option nat :=
  match levels with
  | [] => None
  | types :: rest =>
      if str_in service_name types then Some l
      else level_from (S l) rest service_name
  end.

Definition level (service_name : string) : option nat :=
  level_from 0 LEVELS service_name.

(** [a < b] and [a > b] where either side may be [None]: ordering [None]
    against anything is a [TypeError]. *)
Definition lt (a b : option nat) : result bool :=
  match a, b with
  | Some x, Some y => Ok (x <? y)%nat
  | _, _ => Raise TypeError
  end.

Definition gt (a b : option nat) : result bool := lt b a.

Definition graphviz_color (service : string) : string :=
  if str_in service NETWORK then "purple3"
  else if str_in service STORAGE then "blue"
  else "orange".

(** [s.translate(REPLACE_TABLE)] *)
Fixpoint graphviz_id (s : string) : string :=
  match s with
  | EmptyString => EmptyString
  | String c s' =>
      if Ascii.eqb c " "%char || Ascii.eqb c "-"%char || Ascii.eqb c "/"%char
      then String "_"%char (graphviz_id s')
      else if Ascii.eqb c "."%char then graphviz_id s'
      else String c (graphviz_id s')
  end.

Definition ICON_MAP : list (string * string) :=
  [ ("ACL", "ACL"); ("ASG", "ASG"); ("EC2", "EC2"); ("EKS", "EKS");
    ("ELBv1", "LB"); ("ELBv2", "ALB"); ("ENI", "ENI"); ("EPT-I", "EPT-I");
    ("EPT-GW", "EPT-GW"); ("EPT-GWLB", "EPT-GWLB"); ("HZ", "HZ");
    ("IGW", "IGW"); ("Lambda", "Lambda"); ("NAT", "NAT");
    ("PEER", "vpc-peering"); ("RDS", "RDS"); ("RTB", "RouteTable");
    ("SG", "SG"); ("TG", "TG"); ("VPGW", "VPNGW") ].

Definition graphviz_icon (service : string) : option string :=
  match get service ICON_MAP with
  | Some i => Some ("../icons/" +:+ i +:+ ".png")
  | None => None
  end.

(** The values that [node] and [edge] store in [attrs], and their
    [str()]. *)
Inductive AttrValue : Type :=
  | VStr (s : string)
  | VBool (b : bool)
  | VInt (n : nat).

Definition str (v : AttrValue) : string :=
  match v with
  | VStr s => s
  | VBool true => "True"
  | VBool false => "False"
  | VInt n => str_of_nat n
  end.

(** [" ".join([f'{k}="{v}"' for k, v in attrs.items()])] *)
Definition s_attrs (attrs : list (string * AttrValue)) : string :=
  join " " (map (fun kv => kv.1 +:+ "=" +:+ dquote +:+ str kv.2 +:+ dquote)
                attrs).

Definition node (svc : ServiceInstance) : result string :=
  l ← label svc;
  let attrs := [("label", VStr l)] in
  _ ← type_info svc;
  let image := graphviz_icon (service_name svc) in
  let attrs := if truthy image
               then set "image" (VStr (default EmptyString image)) attrs
               else attrs in
  i ← Service.id svc;
  Ok (graphviz_id i +:+ " [" +:+ s_attrs attrs +:+ "]").

(** The attribute dictionary that [edge] builds.  The branch
    [elif target.service_name == "RTB"] holds an annotation, not an
    assignment, and changes nothing. *)
Definition edge_attrs (source target : ServiceInstance) (vpc : VPC)
  : result (list (string * AttrValue)) :=
  let attrs := [("color", VStr (graphviz_color (service_name source)))] in
  back ← gt (level (service_name source)) (level (service_name target));
  let attrs :=
    if (back : bool) then
      set "style" (VStr "invis") (set "constraint" (VBool false) attrs)
    else if negb (Qle_bool (cost_per_month source) 0)
            && String.eqb (service_name target) "SG" then
      set "style" (VStr "invis") (set "constraint" (VBool false) attrs)
    else attrs in
  if String.eqb (service_name source) "ENI"
     && String.eqb (service_name target) "RTB" then
    s ← Service.id source;
    t ← Service.id target;
    let rel := mkRelation s t in
    if negb (bool_decide (rel ∈ relations vpc)) then
      Ok (set "style" (VStr "invis") (set "weight" (VInt 10) attrs))
    else Ok attrs
  else Ok attrs.

(** [f"{graphviz_id(source.id)} -> {graphviz_id(target.id)} [{s_attrs}]"] *)
Definition edge_statement (s t : string) (attrs : list (string * AttrValue))
  : string :=
  graphviz_id s +:+ " -> " +:+ graphviz_id t +:+ " [" +:+ s_attrs attrs +:+ "]".

(** [edge]; the arguments are [vpc[...]], which may be [None].  The result
    is the statement, or [None] for a suppressed edge. *)
Definition edge (source target : option ServiceInstance) (vpc : VPC)
  : result (option string) :=
  match source with
  | None => Raise AttributeError
  | Some source =>
      if String.eqb (service_name source) "SUBN" then Ok None
      else
        match target with
        | None => Raise AttributeError
        | Some target =>
            attrs ← edge_attrs source target vpc;
            s ← Service.id source;
            t ← Service.id target;
            Ok (Some (edge_statement s t attrs))
        end
  end.

(** *** [to_graphviz]: the connected set *)

Definition connected_step (connected : gset string) (v : ServiceInstance)
  : result (gset string) :=
  connected ←
    (if str_in (service_name v) STORAGE || str_in (service_name v) COMPUTE
     then i ← Service.id v; Ok ({[ i ]} ∪ connected)
     else Ok connected);
  if String.eqb (service_name v) "HZ"
  then i ← Service.id v; Ok ({[ i ]} ∪ connected)
  else Ok connected.

(** [it] is the order in which the interpreter enumerates the set
    [vpc.relations]. *)
Definition connected_set (it : list Relation) (vpc : VPC)
  : result (gset string) :=
  foldM connected_step
        (list_to_set (map source it ++ map target it))
        (services vpc).

(** *** [to_graphviz]: the containment analysis *)

(** [Counter.update(l)] *)
Definition update (l : list string) (c : gmap string nat) : gmap string nat :=
  fold_left (fun c x => <[x := S (default 0 (c !! x))]> c) l c.

Definition tally_subnet (st : VPC * gmap string nat) (k : string)
  : VPC * gmap string nat :=
  let '(vpc, members) := subnets_getitem st.1 k in
  (vpc, update members st.2).

Definition tally_zone (st : VPC * (gmap string nat * gmap string nat))
    (availzone : AvailabilityZone)
  : VPC * (gmap string nat * gmap string nat) :=
  let az_tally := update (service_ids availzone) st.2.1 in
  let '(vpc, sn_tally) :=
    fold_left tally_subnet (subnet_ids availzone) (st.1, st.2.2) in
  (vpc, (az_tally, sn_tally)).

(** The graph it leaves, [az_tally] and [sn_tally]. *)
Definition tally (vpc : VPC) : VPC * (gmap string nat * gmap string nat) :=
  fold_left tally_zone (availability_zones vpc) (vpc, (∅, ∅)).

Definition single_subnet_of (sn_tally : gmap string nat) : gset string :=
  dom (filter (fun kv => kv.2 = 1) sn_tally).

Definition single_az_of (az_tally : gmap string nat)
    (single_subnet : gset string) : gset string :=
  dom (filter (fun kv => kv.2 = 1 ∧ kv.1 ∉ single_subnet) az_tally).

Record Containment := {
  single_subnet : gset string;
  single_az : gset string;
  contained : gset string;
}.

Definition containment (az_tally sn_tally : gmap string nat) : Containment :=
  let single_subnet := single_subnet_of sn_tally in
  let single_az := single_az_of az_tally single_subnet in
  {| single_subnet := single_subnet;
     single_az := single_az;
     contained := single_subnet ∪ single_az |}.

Definition start_vpc : option nat := level "VPC".
Definition end_top : option nat := level "SUBN".
Definition end_subnet : option nat := level "ENI".

(** *** [to_graphviz]: routing the services to the shared areas *)

Record Routed := {
  route53_services : list string;
  top_services : list string;
  bottom_services : list string;
  nw_services : list string;
  ranks : list (string * list string);
  enis : list string;
  rtbs : list string;
}.

Definition no_services : Routed :=
  {| route53_services := []; top_services := []; bottom_services := [];
     nw_services := []; ranks := []; enis := []; rtbs := [] |}.

Inductive Area : Type := Route53 | Top | Bottom | Nw.

(** The [if]/[elif] chain of the routing loop. *)
Definition area (l : option nat) (v_id service_name : string)
    (connected contained : gset string) : result (option Area) :=
  let display_outside_sn :=
    bool_decide (v_id ∈ connected) && negb (bool_decide (v_id ∈ contained)) in
  above ← lt l start_vpc;
  if (above : bool) then Ok (Some Route53)
  else
    top ← lt l end_top;
    if top && negb (bool_decide (v_id ∈ contained)) then Ok (Some Top)
    else if str_in service_name BOTTOM_SVC && display_outside_sn
    then Ok (Some Bottom)
    else if str_in service_name NW_SVC && display_outside_sn
    then Ok (Some Nw)
    else Ok None.

Definition place (a : option Area) (nv : string) (r : Routed) : Routed :=
  match a with
  | Some Route53 =>
      {| route53_services := route53_services r ++ [nv];
         top_services := top_services r;
         bottom_services := bottom_services r;
         nw_services := nw_services r;
         ranks := ranks r; enis := enis r; rtbs := rtbs r |}
  | Some Top =>
      {| route53_services := route53_services r;
         top_services := top_services r ++ [nv];
         bottom_services := bottom_services r;
         nw_services := nw_services r;
         ranks := ranks r; enis := enis r; rtbs := rtbs r |}
  | Some Bottom =>
      {| route53_services := route53_services r;
         top_services := top_services r;
         bottom_services := bottom_services r ++ [nv];
         nw_services := nw_services r;
         ranks := ranks r; enis := enis r; rtbs := rtbs r |}
  | Some Nw =>
      {| route53_services := route53_services r;
         top_services := top_services r;
         bottom_services := bottom_services r;
         nw_services := nw_services r ++ [nv];
         ranks := ranks r; enis := enis r; rtbs := rtbs r |}
  | None => r
  end.

(** [ranks[k].append(x)] on the [defaultdict(list)] *)
Definition ranks_append (k x : string) (ranks : list (string * list string))
  : list (string * list string) :=
  set k (default [] (get k ranks) ++ [x]) ranks.

Definition route_step (connected contained : gset string) (r : Routed)
    (v : ServiceInstance) : result Routed :=
  let l := level (service_name v) in
  nv ← node v;
  v_id ← Service.id v;
  a ← area l v_id (service_name v) connected contained;
  let r := place a nv r in
  let is_connected := bool_decide (v_id ∈ connected) in
  Ok {| route53_services := route53_services r;
        top_services := top_services r;
        bottom_services := bottom_services r;
        nw_services := nw_services r;
        ranks := if negb (str_in (service_name v) ["SUBN"]) && is_connected
                 then ranks_append (service_name v) v_id (ranks r)
                 else ranks r;
        enis := if String.eqb (service_name v) "ENI" && is_connected
                then enis r ++ [v_id] else enis r;
        rtbs := if String.eqb (service_name v) "RTB" && is_connected
                then rtbs r ++ [v_id] else rtbs r |}.

Definition route (connected contained : gset string) (vpc : VPC)
  : result Routed :=
  foldM (route_step connected contained) no_services (services vpc).

(** *** [to_graphviz]: the zone and subnet clusters *)

(** The inner loop over the services of one zone: [az.top_services] and
    [az.bottom_services]. *)
Definition az_step (availzone : AvailabilityZone) (single_az : gset string)
    (acc : list string * list string) (v : ServiceInstance)
  : result (list string * list string) :=
  let l := level (service_name v) in
  nv ← node v;
  v_id ← Service.id v;
  let display_in_az :=
    str_in v_id (service_ids availzone) && bool_decide (v_id ∈ single_az) in
  above ← lt l end_top;
  let top := if above && display_in_az then acc.1 ++ [nv] else acc.1 in
  below ← gt l end_subnet;
  let bottom := if below && display_in_az then acc.2 ++ [nv] else acc.2 in
  Ok (top, bottom).

Definition subnet_label (subnet : ServiceInstance) : result string :=
  t ← subnet_type subnet;
  c ← cidr subnet;
  n ← Service.name subnet;
  Ok (t +:+ backslash_n +:+ c +:+ backslash_n +:+ n +:+ backslash_n
      +:+ instance_name subnet).

(** The key [lambda x: (x.service_name, x.instance_name)]. *)
Definition inside_key (x : option ServiceInstance) : result (string * string) :=
  match x with
  | Some x => Ok (service_name x, instance_name x)
  | None => Raise AttributeError
  end.

Definition node_opt (x : option ServiceInstance) : result string :=
  match x with
  | Some x => node x
  | None => Raise AttributeError
  end.

(** The body of the loop over the sorted subnets of one zone; [acc] is
    [sn_i] and [az.subnets]. *)
Definition subnet_step (connected single_subnet : gset string) (vpc : VPC)
    (acc : nat * list GVSN) (subnet : option ServiceInstance)
  : VPC * result (nat * list GVSN) :=
  match subnet with
  | None => (vpc, Raise AttributeError)
  | Some subnet =>
      match (label ← subnet_label subnet;
             i ← Service.id subnet;
             Ok (label, i)) with
      | Raise e => (vpc, Raise e)
      | Ok (label, i) =>
          let '(vpc, members) := subnets_getitem vpc i in
          let inside :=
            map (getitem vpc)
                (filter (fun x => x ∈ connected ∧ x ∈ single_subnet) members) in
          (vpc,
           xs ← sorted_key pair_ltb inside_key inside;
           svcs ← mapM node_opt xs;
           Ok (S acc.1,
               acc.2 ++ [ {| sn_cluster_id := str_of_nat (1000 + acc.1 * 10);
                             sn_id := i;
                             sn_label := label;
                             sn_services := svcs |} ]))
      end
  end.

(** The body of the loop over [sorted(vpc.azs.items())]; [acc] is [az_i],
    [sn_i] and [azs].  The keys of a dictionary are distinct, so the
    comparison of two items is decided by their keys. *)
Definition zone_step (connected : gset string) (c : Containment) (vpc : VPC)
    (acc : nat * nat * list GVAZ) (item : string * AvailabilityZone)
  : VPC * result (nat * nat * list GVAZ) :=
  let '(az_i, sn_i, azs) := acc in
  let '(azk, availzone) := item in
  match foldM (az_step availzone (single_az c)) ([], []) (services vpc) with
  | Raise e => (vpc, Raise e)
  | Ok (top, bottom) =>
      let subnet_instances := map (getitem vpc) (subnet_ids availzone) in
      match sorted_key (lex_ltb Z.ltb) cidr_sort subnet_instances with
      | Raise e => (vpc, Raise e)
      | Ok ordered =>
          let '(vpc, r) :=
            foldSM (subnet_step connected (single_subnet c)) vpc (sn_i, [])
                   ordered in
          (vpc,
           '(sn_i, sns) ← r;
           Ok (S az_i, sn_i,
               azs ++ [ {| az_cluster_id := str_of_nat (100 + az_i * 10);
                           az_label := azk;
                           az_subnets := sns;
                           az_top_services := top;
                           az_bottom_services := bottom |} ]))
      end
  end.

Definition zones (connected : gset string) (c : Containment) (vpc : VPC)
  : VPC * result (list GVAZ) :=
  let '(vpc, r) :=
    foldSM (zone_step connected c) vpc (0, 0, [])
           (sorted (fun p q => str_ltb p.1 q.1) (azs vpc)) in
  (vpc, '(_, _, azs) ← r; Ok azs).

(** *** [to_graphviz]: the edges *)

(** The comprehension over [sorted(set(vpc.relations))]. *)
Definition relation_edges (it : list Relation) (vpc : VPC)
  : result (list (option string)) :=
  mapM (fun x => edge (getitem vpc (source x)) (getitem vpc (target x)) vpc)
       (filter (fun x => contains vpc (source x) && contains vpc (target x))
               (sorted Relation_ltb it)).

(** [itertools.product] *)
Definition product {A B} (l1 : list A) (l2 : list B) : list (A * B) :=
  flat_map (fun a => map (pair a) l2) l1.

(** The loop [for eni, rtb in product(enis, rtbs)]. *)
Definition synthesized_edges (enis rtbs : list string) (vpc : VPC)
  : result (list (option string)) :=
  mapM (fun p => edge (getitem vpc p.1) (getitem vpc p.2) vpc)
       (product enis rtbs).

(** [sorted([x for x in raw if x is not None])] *)
Definition sorted_edges (raw : list (option string)) : list string :=
  sorted str_ltb (omap (fun x => x) raw).

Definition edges_of (it : list Relation) (r : Routed) (vpc : VPC)
  : result (list string) :=
  raw ← relation_edges it vpc;
  more ← synthesized_edges (enis r) (rtbs r) vpc;
  Ok (sorted_edges (raw ++ more)).

(** *** [to_graphviz]: the template and its rendering *)

(** The dictionary handed to the template. *)
Record Context := {
  ctx_vpc_name : string;
  ctx_route53_services : list string;
  ctx_top_services : list string;
  ctx_azs : list GVAZ;
  ctx_bottom_services : list string;
  ctx_nw_services : list string;
  ctx_svc_types : list (string * list string);
  ctx_edges : list string;
}.

(** [f"{vpc.name}\\n{vpc.id}\\n{vpc.cidr_block}"] *)
Definition vpc_name (vpc : VPC) : result string :=
  match cidr_block vpc with
  | Some c =>
      Ok (Vpc.name vpc +:+ backslash_n +:+ Vpc.id vpc +:+ backslash_n +:+ c)
  | None => Raise AttributeError
  end.

Definition spaces (n : nat) : string :=
  String.concat EmptyString (replicate n " ").

(** A line break followed by an indentation. *)
Definition br (n : nat) : string := newline +:+ spaces n.

(** [{% for x in l -%} ... {% endfor %}]: the bodies, one after the
    other; the white space after the opening tag is not part of a body. *)
Definition for_each {A} (l : list A) (body : A → string) : string :=
  String.concat EmptyString (map body l).

(** A loop whose body is one statement on its own line, indented by
    [n]. *)
Definition statements (n : nat) (l : list string) : string :=
  for_each l (fun svc => svc +:+ br n).

Definition render_subnet (sn : GVSN) : string :=
  "subgraph cluster_" +:+ sn_cluster_id sn +:+ " {" +:+ br 20
  +:+ "label=" +:+ dquote +:+ sn_label sn +:+ dquote +:+ newline +:+ br 20
  +:+ graphviz_id (sn_id sn) +:+ " [style=invis]" +:+ br 20
  +:+ statements 20 (sn_services sn)
  +:+ br 16 +:+ "}" +:+ br 16.

Definition render_az (az : GVAZ) : string :=
  "subgraph cluster_" +:+ az_cluster_id az +:+ " {" +:+ br 16
  +:+ "label=" +:+ dquote +:+ az_label az +:+ dquote +:+ br 16
  +:+ "style=" +:+ dquote +:+ dquote +:+ br 16
  +:+ for_each (az_subnets az) render_subnet
  +:+ br 16
  +:+ statements 16 (az_top_services az)
  +:+ spaces 12 +:+ br 16
  +:+ statements 16 (az_bottom_services az)
  +:+ spaces 12 +:+ br 12 +:+ "}" +:+ br 12.

Definition render_rank (svcs : list string) : string :=
  "// { rank=same; "
  +:+ for_each svcs (fun svc => graphviz_id svc +:+ "; ")
  +:+ " }" +:+ br 4.

(** The rendering of [TEMPLATE]; the engine drops the final line break of
    a template. *)
Definition render_template (c : Context) : string :=
  newline
  +:+ "digraph G {" +:+ br 4
  +:+ "rankdir=TB;" +:+ br 4
  +:+ "compound=true" +:+ br 4
  +:+ "concentrate=true" +:+ br 4
  +:+ "node [fontsize=10 shape=none labelloc=b imagepos=tc color=none height=1.0]"
  +:+ br 4
  +:+ "edge [fontsize=9 color=" +:+ dquote +:+ "grey70" +:+ dquote +:+ "]"
  +:+ br 4
  +:+ "// newrank=true" +:+ newline +:+ br 4
  +:+ "subgraph { " +:+ br 8
  +:+ statements 8 (ctx_route53_services c)
  +:+ br 4 +:+ "}" +:+ newline +:+ br 4
  +:+ "subgraph cluster_10 {" +:+ br 8
  +:+ "label=" +:+ dquote +:+ ctx_vpc_name c +:+ dquote +:+ newline +:+ br 8
  +:+ "subgraph cluster_91 { " +:+ br 12
  +:+ "style=" +:+ dquote +:+ "invis" +:+ dquote +:+ br 12
  +:+ for_each (ctx_azs c) render_az
  +:+ br 8 +:+ "}" +:+ newline +:+ br 8
  +:+ "subgraph { " +:+ br 12
  +:+ statements 12 (ctx_top_services c)
  +:+ br 8 +:+ "}" +:+ newline +:+ br 8
  +:+ "subgraph {" +:+ br 12
  +:+ statements 12 (ctx_bottom_services c)
  +:+ br 8 +:+ "}" +:+ newline +:+ br 8
  +:+ "subgraph cluster_93 {" +:+ br 12
  +:+ "style=" +:+ dquote +:+ "invis" +:+ dquote +:+ br 12
  +:+ statements 12 (ctx_nw_services c)
  +:+ br 8 +:+ "}" +:+ br 4 +:+ "}" +:+ newline +:+ br 4
  +:+ for_each (map snd (ctx_svc_types c)) render_rank
  +:+ newline +:+ br 4
  +:+ statements 4 (ctx_edges c)
  +:+ newline +:+ "}".

(** *** [to_graphviz] *)

(** Everything up to the call of the template engine: the graph that is
    left behind and the dictionary for the template. *)
Definition layout (it : list Relation) (vpc : VPC) : VPC * result Context :=
  match connected_set it vpc with
  | Raise e => (vpc, Raise e)
  | Ok connected =>
      let '(vpc, (az_tally, sn_tally)) := tally vpc in
      let c := containment az_tally sn_tally in
      match route connected (contained c) vpc with
      | Raise e => (vpc, Raise e)
      | Ok r =>
          let '(vpc, azs) := zones connected c vpc in
          (vpc,
           azs ← azs;
           edges ← edges_of it r vpc;
           vpc_name ← vpc_name vpc;
           Ok {| ctx_vpc_name := vpc_name;
                 ctx_route53_services := route53_services r;
                 ctx_top_services := top_services r;
                 ctx_azs := azs;
                 ctx_bottom_services := bottom_services r;
                 ctx_nw_services := nw_services r;
                 ctx_svc_types := ranks r;
                 ctx_edges := edges |})
      end
  end.

(** [to_graphviz vpc stream], with the enumeration order [it] of the set
    [vpc.relations] made explicit: the graph afterwards, and the text
    written to the stream. *)
Definition to_graphviz_in (it : list Relation) (vpc : VPC)
  : VPC * result string :=
  let '(vpc, c) := layout it vpc in
  (vpc, c ← c; Ok (render_template c)).

Definition to_graphviz (vpc : VPC) : VPC * result string :=
  to_graphviz_in (elements (relations vpc)) vpc.

End Graphviz.

(** * Sample graphs

    The graphs and resources at which the properties below are
    instantiated. *)

Module Samples.
Import Py Graphviz.

Definition no_details : Details :=
  {| Tags := None; entries := []; MapPublicIpOnLaunch := None;
     Association_PublicIp := None |}.

(** [cls(details={}, service_name, instance_name)] *)
Definition instance (c : Class) (service_name instance_name : string)
  : ServiceInstance :=
  {| class := c; details := no_details; service_name := service_name;
     instance_name := instance_name |}.

Definition empty_vpc : VPC :=
  {| Vpc.id := "vpc-0"; Vpc.name := "vpc-0"; cidr_block := Some "10.0.0.0/16";
     _services := []; relations := ∅; azs := []; subnets := ∅ |}.

(** Resources of the types that the scan creates, and one of a type that
    the level table does not list. *)
Definition ec2_1 : ServiceInstance := instance (EC2Instance "t2.micro") "EC2" "i-1".
Definition ec2_free : ServiceInstance := instance (EC2Instance "x1.unknown") "EC2" "i-2".
Definition sg_1 : ServiceInstance :=
  {| class := SecurityGroup;
     details := {| Tags := None; entries := [("GroupName", "web")];
                   MapPublicIpOnLaunch := None; Association_PublicIp := None |};
     service_name := "SG"; instance_name := "sg-1" |}.
Definition eni_1 : ServiceInstance := instance NetworkInterface "ENI" "eni-1".
Definition rtb_1 : ServiceInstance := instance ServiceInstanceC "RTB" "rtb-1".
Definition vpgw_1 : ServiceInstance := instance ServiceInstanceC "VPGW" "vgw-1".
Definition acl_1 : ServiceInstance := instance ServiceInstanceC "ACL" "acl-1".
Definition unlisted_1 : ServiceInstance := instance ServiceInstanceC "TGW" "tgw-1".

Definition subnet_1 : ServiceInstance :=
  {| class := Subnet;
     details := {| Tags := None; entries := [("CidrBlock", "10.0.1.0/24")];
                   MapPublicIpOnLaunch := Some false;
                   Association_PublicIp := None |};
     service_name := "SUBN"; instance_name := "subnet-1" |}.

(** A scanned graph with one zone and one subnet that holds nothing: the
    scan lists the subnet in its zone, and nothing creates its entry in
    [subnets]. *)
Definition empty_subnet_vpc : VPC :=
  {| Vpc.id := "vpc-1"; Vpc.name := "main"; cidr_block := Some "10.0.0.0/16";
     _services := [("subnet-1", subnet_1)];
     relations := ∅;
     azs := [("us-east-1a", {| service_ids := []; subnet_ids := ["subnet-1"] |})];
     subnets := ∅ |}.

Definition subnet_2 : ServiceInstance :=
  {| class := Subnet;
     details := {| Tags := None; entries := [("CidrBlock", "10.0.2.0/24")];
                   MapPublicIpOnLaunch := Some false;
                   Association_PublicIp := None |};
     service_name := "SUBN"; instance_name := "subnet-2" |}.

Definition elb_1 : ServiceInstance :=
  {| class := LoadBalancer;
     details := {| Tags := None; entries := [("LoadBalancerName", "lb-1")];
                   MapPublicIpOnLaunch := None; Association_PublicIp := None |};
     service_name := "ELBv1"; instance_name := "lb-1" |}.

Definition rds_1 : ServiceInstance := instance (RdsInstance "db.t3.small") "RDS" "db-1".

(** Two zones with a subnet each.  The load balancer is listed by both
    zones and by the first subnet only; the database by the first zone and
    by both subnets; the instance by the first zone and the first
    subnet. *)
Definition two_zone_vpc : VPC :=
  {| Vpc.id := "vpc-2"; Vpc.name := "main"; cidr_block := Some "10.0.0.0/16";
     _services := [("subnet-1", subnet_1); ("subnet-2", subnet_2);
                   ("lb-1", elb_1); ("db-1", rds_1); ("i-1", ec2_1)];
     relations := ∅;
     azs := [("us-east-1a", {| service_ids := ["lb-1"; "db-1"; "i-1"];
                               subnet_ids := ["subnet-1"] |});
             ("us-east-1b", {| service_ids := ["lb-1"];
                               subnet_ids := ["subnet-2"] |})];
     subnets := {[ "subnet-1" := ["lb-1"; "db-1"; "i-1"];
                   "subnet-2" := ["db-1"] ]} |}.

(** One zone, one subnet with an instance and its interface, a route table
    with a route through the interface, and the instance's security
    group. *)
Definition routed_vpc : VPC :=
  {| Vpc.id := "vpc-3"; Vpc.name := "main"; cidr_block := Some "10.0.0.0/16";
     _services := [("i-1", ec2_1); ("eni-1", eni_1); ("subnet-1", subnet_1);
                   ("rtb-1", rtb_1); ("sg-1", sg_1)];
     relations := {[ mkRelation "i-1" "eni-1"; mkRelation "i-1" "sg-1";
                     mkRelation "rtb-1" "eni-1" ]};
     azs := [("us-east-1a", {| service_ids := ["i-1"];
                               subnet_ids := ["subnet-1"] |})];
     subnets := {[ "subnet-1" := ["i-1"; "eni-1"] ]} |}.

(** The same graph with a relation from the interface to the route
    table. *)
Definition explicit_route_vpc : VPC :=
  with_relations routed_vpc
    ({[ mkRelation "eni-1" "rtb-1" ]} ∪ relations routed_vpc).

Definition eni_2 : ServiceInstance := instance NetworkInterface "ENI" "eni-2".

(** The graph [routed_vpc] with one more interface in the subnet, attached
    to nothing: no relation names it. *)
Definition idle_eni_vpc : VPC :=
  {| Vpc.id := "vpc-3"; Vpc.name := "main"; cidr_block := Some "10.0.0.0/16";
     _services := _services routed_vpc ++ [("eni-2", eni_2)];
     relations := relations routed_vpc;
     azs := azs routed_vpc;
     subnets := {[ "subnet-1" := ["i-1"; "eni-1"; "eni-2"] ]} |}.

End Samples.

(** * Vocabulary of the properties *)

Module Vocabulary.
Import Py Graphviz.

(** The attribute dictionaries that [edge] can build. *)
Definition plain (source : ServiceInstance) : list (string * AttrValue) :=
  [("color", VStr (graphviz_color (service_name source)))].

Definition hidden (source : ServiceInstance) : list (string * AttrValue) :=
  [("color", VStr (graphviz_color (service_name source)));
   ("constraint", VBool false); ("style", VStr "invis")].

Definition alignment (source : ServiceInstance) : list (string * AttrValue) :=
  [("color", VStr (graphviz_color (service_name source)));
   ("weight", VInt 10); ("style", VStr "invis")].

(** The members of a subnet, as every reader of [vpc.subnets] sees them:
    a missing key reads as the empty list. *)
Definition members (vpc : VPC) (k : string) : list string :=
  default [] (subnets vpc !! k).

(** [vivified v v']: [v'] is [v], except that [v'.subnets] may hold empty
    lists under keys that [v.subnets] does not have. *)
Definition vivified (v v' : VPC) : Prop :=
  Vpc.id v' = Vpc.id v
  ∧ Vpc.name v' = Vpc.name v
  ∧ cidr_block v' = cidr_block v
  ∧ _services v' = _services v
  ∧ relations v' = relations v
  ∧ azs v' = azs v
  ∧ ∀ k, subnets v' !! k = subnets v !! k
         ∨ (subnets v !! k = None ∧ subnets v' !! k = Some []).

(** The containment analysis of a graph. *)
Definition containment_of (vpc : VPC) : Containment :=
  containment (tally vpc).2.1 (tally vpc).2.2.

(** How often [x] is listed in [l]. *)
Definition occurrences {A} `{EqDecision A} (x : A) (l : list A) : nat :=
  length (filter (x =.) l).

(** The value of a [Counter] at [x]; an absent key counts zero. *)
Definition count (c : gmap string nat) (x : string) : nat :=
  default 0 (c !! x).

(** The resource ids that the zone called [z] lists. *)
Definition zone_services (vpc : VPC) (z : string) : list string :=
  match get z (azs vpc) with
  | Some availzone => service_ids availzone
  | None => []
  end.

(** Every zone's resource ids, and every member list that the analysis
    reads, in the order of the tally. *)
Definition all_zone_services (vpc : VPC) : list string :=
  flat_map service_ids (availability_zones vpc).

Definition all_zone_subnets (vpc : VPC) : list string :=
  flat_map subnet_ids (availability_zones vpc).

Definition all_subnet_members (vpc : VPC) : list string :=
  flat_map (members vpc) (all_zone_subnets vpc).

Definition exactly_one {A} (P : A → Prop) : Prop :=
  ∃ a, P a ∧ ∀ b, P b → b = a.

(** The lists of the graph stand for the sets of the data model: the zone
    names are distinct, no zone lists a resource twice, no subnet lists a
    member twice, every subnet is listed once and by one zone, and a
    subnet with members is listed by a zone. *)
Definition set_like (vpc : VPC) : Prop :=
  NoDup (azs vpc).*1
  ∧ Forall (fun item => NoDup (service_ids item.2)) (azs vpc)
  ∧ map_Forall (fun _ l => NoDup l) (subnets vpc)
  ∧ NoDup (all_zone_subnets vpc)
  ∧ map_Forall (fun k l => l ≠ [] → k ∈ all_zone_subnets vpc) (subnets vpc).

(** A comparison [ltb] that is a strict total order. *)
Record strict_total {A} (ltb : A → A → bool) : Prop := {
  st_irrefl : ∀ a, ltb a a = false;
  st_trans : ∀ a b c, ltb a b = true → ltb b c = true → ltb a c = true;
  st_total : ∀ a b, ltb a b = false → ltb b a = false → a = b;
}.

(** [a <= b] as [sorted] sees it: not [b < a]. *)
Definition not_after {A} (ltb : A → A → bool) (a b : A) : Prop :=
  ltb b a = false.

(** *** What the loops of [to_graphviz] compute *)

(** What the loops ask of one service: its node statement, its id and its
    level. *)
Record Profile := {
  p_service : ServiceInstance;
  p_node : string;
  p_id : string;
  p_level : nat;
}.

Definition profile (v : ServiceInstance) : result Profile :=
  nv ← node v;
  i ← Service.id v;
  match level (service_name v) with
  | Some l => Ok {| p_service := v; p_node := nv; p_id := i; p_level := l |}
  | None => Raise TypeError
  end.

#[global] Instance Area_eq_dec : EqDecision Area.
Proof. solve_decision. Defined.

(** The shared area of a service, by the decision of the routing loop. *)
Definition area_of (connected contained : gset string) (p : Profile)
  : option Area :=
  let shown :=
    bool_decide (p_id p ∈ connected)
    && negb (bool_decide (p_id p ∈ contained)) in
  if (p_level p <? 2)%nat then Some Route53
  else if (p_level p <? 12)%nat && negb (bool_decide (p_id p ∈ contained))
  then Some Top
  else if str_in (service_name (p_service p)) BOTTOM_SVC && shown
  then Some Bottom
  else if str_in (service_name (p_service p)) NW_SVC && shown
  then Some Nw
  else None.

Definition area_list (a : Area) (r : Routed) : list string :=
  match a with
  | Route53 => route53_services r
  | Top => top_services r
  | Bottom => bottom_services r
  | Nw => nw_services r
  end.

(** The node statements of the profiles that satisfy [keep]. *)
Definition nodes_where (keep : Profile → bool) (ps : list Profile)
  : list string :=
  map p_node (List.filter keep ps).

Definition ids_where (keep : Profile → bool) (ps : list Profile)
  : list string :=
  map p_id (List.filter keep ps).

Definition in_area (connected contained : gset string) (a : Area)
    (p : Profile) : bool :=
  bool_decide (area_of connected contained p = Some a).

Definition is_connected (name : string) (connected : gset string)
    (p : Profile) : bool :=
  String.eqb (service_name (p_service p)) name
  && bool_decide (p_id p ∈ connected).

(** The tests of the loop over the services of a zone. *)
Definition in_zone_top (availzone : AvailabilityZone) (single_az : gset string)
    (p : Profile) : bool :=
  (p_level p <? 12)%nat
  && (str_in (p_id p) (service_ids availzone)
      && bool_decide (p_id p ∈ single_az)).

Definition in_zone_bottom (availzone : AvailabilityZone)
    (single_az : gset string) (p : Profile) : bool :=
  (14 <? p_level p)%nat
  && (str_in (p_id p) (service_ids availzone)
      && bool_decide (p_id p ∈ single_az)).

(** The ids that a subnet cluster shows, in the order of the member
    list. *)
Definition inside_ids (connected single_subnet : gset string) (vpc : VPC)
    (k : string) : list string :=
  filter (fun x => x ∈ connected ∧ x ∈ single_subnet) (members vpc k).

(** [sn] is the cluster of the subnet [o]. *)
Definition rendered_subnet (connected single_subnet : gset string) (vpc : VPC)
    (o : option ServiceInstance) (sn : GVSN) : Prop :=
  ∃ s xs,
    o = Some s
    ∧ Service.id s = Ok (sn_id sn)
    ∧ subnet_label s = Ok (sn_label sn)
    ∧ sorted_key pair_ltb inside_key
        (map (getitem vpc) (inside_ids connected single_subnet vpc (sn_id sn)))
      = Ok xs
    ∧ mapM node_opt xs = Ok (sn_services sn).

(** [az] is the cluster of the zone [item]. *)
Definition rendered_zone (connected : gset string) (c : Containment)
    (vpc : VPC) (ps : list Profile) (item : string * AvailabilityZone)
    (az : GVAZ) : Prop :=
  az_label az = item.1
  ∧ az_top_services az = nodes_where (in_zone_top item.2 (single_az c)) ps
  ∧ az_bottom_services az = nodes_where (in_zone_bottom item.2 (single_az c)) ps
  ∧ ∃ ordered,
      sorted_key (lex_ltb Z.ltb) cidr_sort
        (map (getitem vpc) (subnet_ids item.2)) = Ok ordered
      ∧ Forall2 (rendered_subnet connected (single_subnet c) vpc)
                ordered (az_subnets az).

(** The subnet clusters of the zone [az] are the subnets that the zone
    [item] lists, one cluster each, in ascending order of the keys that
    [cidr_sort] gives them. *)
Definition subnets_by_cidr (vpc : VPC) (item : string * AvailabilityZone)
    (az : GVAZ) : Prop :=
  ∃ ordered keys,
    ordered ≡ₚ map (getitem vpc) (subnet_ids item.2)
    ∧ mapM cidr_sort ordered = Ok keys
    ∧ Sorted (not_after (lex_ltb Z.ltb)) keys
    ∧ Forall2 (fun o sn => ∃ s, o = Some s
                                ∧ Service.id s = Ok (sn_id sn)
                                ∧ subnet_label s = Ok (sn_label sn))
              ordered (az_subnets az).

(** [x] is an end of some relation of the graph. *)
Definition referenced (vpc : VPC) (x : string) : Prop :=
  ∃ rel, rel ∈ relations vpc ∧ (source rel = x ∨ target rel = x).

(** The relations that the edge router renders: both ends are in the
    resource map. *)
Definition resolved (it : list Relation) (vpc : VPC) : list Relation :=
  filter (fun x => contains vpc (source x) && contains vpc (target x))
         (sorted Relation_ltb it).

(** The id of a resource that may be missing. *)
Definition key_of (o : option ServiceInstance) : string :=
  match o with
  | Some s => match Service.id s with Ok i => i | Raise _ => EmptyString end
  | None => EmptyString
  end.

(** *** Where a node statement is placed *)

Inductive Place : Type :=
  | Shared (a : Area)   (* one of the four areas outside the zones *)
  | ZoneTop             (* [az.top_services] of a zone cluster *)
  | ZoneBottom          (* [az.bottom_services] of a zone cluster *)
  | SubnetCluster.      (* [sn.services] of a subnet cluster *)

#[global] Instance Place_eq_dec : EqDecision Place.
Proof. solve_decision. Defined.

(** The node statements that the template receives for a place. *)
Definition placed_at (pl : Place) (ctx : Context) : list string :=
  match pl with
  | Shared Route53 => ctx_route53_services ctx
  | Shared Top => ctx_top_services ctx
  | Shared Bottom => ctx_bottom_services ctx
  | Shared Nw => ctx_nw_services ctx
  | ZoneTop => flat_map az_top_services (ctx_azs ctx)
  | ZoneBottom => flat_map az_bottom_services (ctx_azs ctx)
  | SubnetCluster =>
      flat_map (fun az => flat_map sn_services (az_subnets az)) (ctx_azs ctx)
  end.

Definition places : list Place :=
  [Shared Route53; Shared Top; Shared Bottom; Shared Nw;
   ZoneTop; ZoneBottom; SubnetCluster].

(** Every node statement of the output, place after place. *)
Definition placements (ctx : Context) : list string :=
  flat_map (fun pl => placed_at pl ctx) places.

(** The place inside the clusters that the zone loop gives a resource:
    the top or the bottom list of its zone if it is [single_az] and its
    level is below the subnets' or above the interfaces'; the cluster of
    its subnet if it is [single_subnet] and connected. *)
Definition nested_place (connected : gset string) (c : Containment)
    (p : Profile) : option Place :=
  if bool_decide (p_id p ∈ single_az c) then
    if (p_level p <? 12)%nat then Some ZoneTop
    else if (14 <? p_level p)%nat then Some ZoneBottom
    else None
  else if bool_decide (p_id p ∈ single_subnet c)
          && bool_decide (p_id p ∈ connected)
  then Some SubnetCluster
  else None.

(** The decision tree as the specification words it: (a) to (d) as in
    the routing loop, and (e) otherwise the zone cluster for a
    [single_az] resource, the subnet cluster for a [single_subnet] one. *)
Definition spec_place (connected : gset string) (c : Containment)
    (p : Profile) : option Place :=
  match area_of connected (contained c) p with
  | Some a => Some (Shared a)
  | None =>
      if bool_decide (p_id p ∈ single_az c) then
        Some (if (p_level p <? 12)%nat then ZoneTop else ZoneBottom)
      else if bool_decide (p_id p ∈ single_subnet c) then Some SubnetCluster
      else None
  end.

End Vocabulary.

(** * The scan of a VPC

    [VPC.scan] and the [describe_*] methods of [src/vpc.py], the two
    members of [src/service.py] that read a whole description
    ([VpcEndpoint.create] and [SecurityGroup.relationships]), and
    [Region.add_vpc] of [src/region.py].

    Conventions.
    - A description is a dictionary of the provider.  Its entries are kept
      by the type of their value: the strings, tags and flags that the
      renderer reads ([seen]), the lists of strings, the dictionaries and
      the lists of dictionaries.  A key is read where the provider's
      reference puts its value; any key may be absent, and a subscript by
      an absent key raises [KeyError].
    - A call of a client is the outcome of the call expression up to the
      subscript by the response key: the value, or the exception raised.
      The answers of the provider do not change during a scan.
    - The methods change the graph and may raise: they take the graph and
      return the graph they leave behind with their outcome.  Messages
      written to the log are not modelled.
    - The attribute [details] of the graph is read by [scan] alone, on the
      lines that follow its assignment: it is the local value [details]
      of [scan]. *)

Module Scan.
Import Py.
Export Service Vpc.

Set Warnings "-register-all".

(** ** Exceptions and outcomes *)

Inductive error : Type :=
  | Builtin (e : exn)
  | UnboundLocalError
  | ClientError
  | OtherError (class_name : string).

Inductive outcome (A : Type) : Type :=
  | Return (a : A)
  | Throw (e : error).
Arguments Return {A} a.
Arguments Throw {A} e.

#[global] Instance outcome_bind : MBind outcome :=
  fun A B k o =>
    match o with
    | Return a => k a
    | Throw e => Throw e
    end.
#[global] Instance outcome_ret : MRet outcome := fun A a => Return a.

(** A method of [VPC]: the graph afterwards and the outcome. *)
Definition M (A : Type) : Type := VPC → VPC * outcome A.

#[global] Instance M_bind : MBind M :=
  fun A B k m self =>
    match m self with
    | (self', Return a) => k a self'
    | (self', Throw e) => (self', Throw e)
    end.
#[global] Instance M_ret : MRet M := fun A a self => (self, Return a).

(** An expression that does not touch the graph. *)
Definition lift {A} (o : outcome A) : M A := fun self => (self, o).

(** [for x in l: body(x)] *)
Fixpoint loop {A} (l : list A) (body : A → M unit) : M unit :=
  match l with
  | [] => mret tt
  | x :: l' => body x;; loop l' body
  end.

(** ** Descriptions *)

Inductive Description : Type := mkDescription {
  seen : Details;
  lists : list (string * list string);
  dicts : list (string * Description);
  dict_lists : list (string * list Description);
}.

Definition subscript {V} (d : list (string * V)) (k : string) : outcome V :=
  match get k d with
  | Some v => Return v
  | None => Throw (Builtin KeyError)
  end.

(** [d[k]] where the value is a string *)
Definition str_item (d : Description) (k : string) : outcome string :=
  subscript (entries (seen d)) k.

(** [d.get(k)] where the value is a string *)
Definition str_get (d : Description) (k : string) : option string :=
  get k (entries (seen d)).

(** [d[k]] where the value is a list of strings *)
Definition list_item (d : Description) (k : string) : outcome (list string) :=
  subscript (lists d) k.

(** [d[k]] where the value is a dictionary *)
Definition dict_item (d : Description) (k : string) : outcome Description :=
  subscript (dicts d) k.

(** [d[k]] where the value is a list of dictionaries *)
Definition dicts_item (d : Description) (k : string)
  : outcome (list Description) :=
  subscript (dict_lists d) k.

(** [l[0]] *)
Definition first {A} (l : list A) : outcome A :=
  match l with
  | x :: _ => Return x
  | [] => Throw (Builtin IndexError)
  end.

(** [cls(details, service_name, instance_name)] *)
Definition new (c : Class) (details : Description)
    (service_name instance_name : string) : ServiceInstance :=
  {| class := c; Service.details := seen details;
     service_name := service_name; instance_name := instance_name |}.

(** ** [src/service.py] *)

(** [VpcEndpoint.create]: with a type that is none of the three, the
    error is logged and [service_name] is read unbound. *)
Definition VpcEndpoint_create (details : Description) (instance_name : string)
  : outcome ServiceInstance :=
  instance_type ← str_item details "VpcEndpointType";
  service_name ←
    (if String.eqb instance_type "Interface" then Return "EPT-I"
     else if String.eqb instance_type "Gateway" then Return "EPT-GW"
     else if String.eqb instance_type "GatewayLoadBalancer"
     then Return "EPT-GWLB"
     else Throw UnboundLocalError);
  Return (new VpcEndpoint details service_name instance_name).

(** The values of one entry of [UserIdGroupPairs] that are yielded: those
    of the two attributes, in this order, that are there and not empty. *)
Definition pair_values (pairs : Description) : list string :=
  flat_map (fun attr => if truthy (str_get pairs attr)
                        then [default EmptyString (str_get pairs attr)]
                        else [])
           ["GroupId"; "VpcPeeringConnectionId"].

(** A generator: what it yields, and how it ends after that. *)
Definition generator (A : Type) : Type := list A * outcome unit.

(** One of the two loops of [relationships]. *)
Fixpoint permission_pairs (pair : string → string * string)
    (permissions : list Description) : generator (string * string) :=
  match permissions with
  | [] => ([], Return tt)
  | permission :: rest =>
      match dicts_item permission "UserIdGroupPairs" with
      | Throw e => ([], Throw e)
      | Return l =>
          let '(more, ending) := permission_pairs pair rest in
          (map pair (flat_map pair_values l) ++ more, ending)
      end
  end.

(** [SecurityGroup.relationships]; [details] is [self.details]. *)
Definition relationships (details : Description)
  : generator (string * string) :=
  match str_item details "GroupId" with
  | Throw e => ([], Throw e)
  | Return me =>
      match dicts_item details "IpPermissions" with
      | Throw e => ([], Throw e)
      | Return ingress =>
          match permission_pairs (fun value => (value, me)) ingress with
          | (yielded, Throw e) => (yielded, Throw e)
          | (yielded, Return _) =>
              match dicts_item details "IpPermissionsEgress" with
              | Throw e => (yielded, Throw e)
              | Return egress =>
                  let '(more, ending) :=
                    permission_pairs (fun value => (me, value)) egress in
                  (yielded ++ more, ending)
              end
          end
      end
  end.

(** ** [src/context.py] *)

Record Options := { ignore_free_resources : bool }.

(** The calls that the scan makes, each with the arguments that vary: the
    id of the VPC for the calls that filter by it, the subject of the call
    for the others. *)
Record Context := {
  options : Options;
  region : string;
  (* asg_client.describe_auto_scaling_groups()["AutoScalingGroups"] *)
  describe_auto_scaling_groups : outcome (list Description);
  (* vpc_client.describe_subnets(SubnetIds=[subnet])["Subnets"] *)
  describe_subnets_by_id : string → outcome (list Description);
  (* eks_client.list_clusters()["clusters"] *)
  list_clusters : outcome (list string);
  (* eks_client.describe_cluster(name=eks)["cluster"] *)
  describe_cluster : string → outcome Description;
  (* vpc_client.describe_instances(Filters=...)["Reservations"] *)
  describe_instances : string → outcome (list Description);
  (* lambda_client.list_functions()["Functions"] *)
  list_functions : outcome (list Description);
  (* rds_client.describe_db_instances()["DBInstances"] *)
  describe_db_instances : outcome (list Description);
  (* elb_client.describe_load_balancers()["LoadBalancerDescriptions"] *)
  describe_load_balancers : outcome (list Description);
  (* elbV2_client.describe_load_balancers()["LoadBalancers"] *)
  describe_load_balancers_v2 : outcome (list Description);
  (* route53.get_hosted_zone(Id=hz_id)["HostedZone"] *)
  get_hosted_zone : string → outcome Description;
  (* elbV2_client.describe_target_groups(LoadBalancerArn=_id)["TargetGroups"] *)
  describe_target_groups : string → outcome (list Description);
  (* elbV2_client.describe_target_health(TargetGroupArn=_tg_id)
       ["TargetHealthDescriptions"] *)
  describe_target_health : string → outcome (list Description);
  (* vpc_client.describe_nat_gateways(Filters=...)["NatGateways"] *)
  describe_nat_gateways : string → outcome (list Description);
  (* vpc_client.describe_network_interfaces(Filters=...)["NetworkInterfaces"] *)
  describe_network_interfaces : string → outcome (list Description);
  (* vpc_client.describe_internet_gateways(Filters=...)["InternetGateways"] *)
  describe_internet_gateways : string → outcome (list Description);
  (* vpc_client.describe_vpn_gateways(Filters=...)["VpnGateways"] *)
  describe_vpn_gateways : string → outcome (list Description);
  (* vpc_client.describe_subnets(Filters=...)["Subnets"] *)
  describe_subnets_of : string → outcome (list Description);
  (* vpc_client.describe_network_acls(Filters=...)["NetworkAcls"] *)
  describe_network_acls : string → outcome (list Description);
  (* vpc_client.describe_security_groups(Filters=...)["SecurityGroups"] *)
  describe_security_groups : string → outcome (list Description);
  (* vpc_client.describe_route_tables(Filters=...)["RouteTables"] *)
  describe_route_tables : string → outcome (list Description);
  (* route53.list_hosted_zones_by_vpc(VPCId=self.id, VPCRegion=context.region)
       ["HostedZoneSummaries"] *)
  list_hosted_zones_by_vpc : string → string → outcome (list Description);
  (* vpc_client.describe_vpc_endpoints(Filters=...)["VpcEndpoints"] *)
  describe_vpc_endpoints : string → outcome (list Description);
  (* vpc_client.describe_vpc_peering_connections(Filters=...)
       ["VpcPeeringConnections"], filtered by the accepter *)
  describe_vpc_peering_connections_accepter
    : string → outcome (list Description);
  (* the same call, filtered by the requester *)
  describe_vpc_peering_connections_requester
    : string → outcome (list Description);
  (* vpc_client.describe_vpcs(VpcIds=[self.id])["Vpcs"] *)
  describe_vpcs : string → outcome (list Description);
}.

(** ** [src/vpc.py] *)

(** [VPC.__init__] *)
Definition init (id : string) : VPC :=
  {| Vpc.id := id; Vpc.name := EmptyString; cidr_block := None;
     _services := []; relations := ∅; azs := []; subnets := ∅ |}.

Definition with_services (self : VPC)
    (s : list (string * ServiceInstance)) : VPC :=
  mkVPC (Vpc.id self) (Vpc.name self) (cidr_block self) s (relations self)
        (azs self) (subnets self).

Definition with_azs (self : VPC) (z : list (string * AvailabilityZone))
  : VPC :=
  mkVPC (Vpc.id self) (Vpc.name self) (cidr_block self) (_services self)
        (relations self) z (subnets self).

Definition with_name (self : VPC) (n : string) : VPC :=
  mkVPC (Vpc.id self) n (cidr_block self) (_services self) (relations self)
        (azs self) (subnets self).

Definition with_cidr_block (self : VPC) (c : string) : VPC :=
  mkVPC (Vpc.id self) (Vpc.name self) (Some c) (_services self)
        (relations self) (azs self) (subnets self).

(** [self.id] *)
Definition self_id : M string := fun self => (self, Return (Vpc.id self)).

(** [self.cidr_block = c] *)
Definition set_cidr_block (c : string) : M unit :=
  fun self => (with_cidr_block self c, Return tt).

(** [self.name = n] *)
Definition set_name (n : string) : M unit :=
  fun self => (with_name self n, Return tt).

(** [self._services[k] = v] *)
Definition set_service (k : string) (v : ServiceInstance) : M unit :=
  fun self => (with_services self (set k v (_services self)), Return tt).

(** [self._add_relation(src, trg)] *)
Definition add_relation (src trg : option string) : M unit :=
  fun self => (_add_relation self src trg, Return tt).

(** [self.subnets[sn].append(x)] *)
Definition subnets_append (sn x : string) : M unit :=
  fun self =>
    let '(self, members) := subnets_getitem self sn in
    (with_subnets self (<[sn := members ++ [x]]> (subnets self)), Return tt).

(** [self.azs[az]] on the [defaultdict(AvailabilityZone)]: a missing zone
    is stored, with two empty lists, before it is returned. *)
Definition azs_getitem (az : string) : M AvailabilityZone :=
  fun self =>
    match get az (azs self) with
    | Some zone => (self, Return zone)
    | None =>
        let zone := {| service_ids := []; subnet_ids := [] |} in
        (with_azs self (set az zone (azs self)), Return zone)
    end.

(** [zone.service_ids.append(x)] for the zone stored under [az] *)
Definition service_ids_append (az : string) (zone : AvailabilityZone)
    (x : string) : M unit :=
  fun self =>
    (with_azs self
       (set az {| service_ids := service_ids zone ++ [x];
                  subnet_ids := subnet_ids zone |} (azs self)),
     Return tt).

(** [zone.subnet_ids.append(x)] for the zone stored under [az] *)
Definition subnet_ids_append (az : string) (zone : AvailabilityZone)
    (x : string) : M unit :=
  fun self =>
    (with_azs self
       (set az {| service_ids := service_ids zone;
                  subnet_ids := subnet_ids zone ++ [x] |} (azs self)),
     Return tt).

(** [self.azs[az].service_ids.append(x)] *)
Definition azs_service_ids_append (az x : string) : M unit :=
  zone ← azs_getitem az; service_ids_append az zone x.

(** [self.azs[az].subnet_ids.append(x)] *)
Definition azs_subnet_ids_append (az x : string) : M unit :=
  zone ← azs_getitem az; subnet_ids_append az zone x.

(** [self.azs[az].services.append(x)]: an [AvailabilityZone] has no
    attribute [services]. *)
Definition azs_services_append (az x : string) : M unit :=
  zone ← azs_getitem az; lift (Throw (Builtin AttributeError)).

(** The body of the loop of [asg_in_vpc]: [Some b] is [return b], [None]
    is the end of the body. *)
Definition asg_subnet_in_vpc (id subnet : string) (context : Context)
  : outcome (option bool) :=
  match (sub_description ← describe_subnets_by_id context subnet;
         description ← first sub_description;
         vpc_id ← str_item description "VpcId";
         Return (String.eqb vpc_id id)) with
  | Return true => Return (Some true)
  | Return false => Return None
  | Throw ClientError => Return None
  | Throw e => Throw e
  end.

Fixpoint asg_in_vpc_loop (id : string) (subnets_list : list string)
    (context : Context) : outcome bool :=
  match subnets_list with
  | [] => Return false
  | subnet :: rest =>
      returned ← asg_subnet_in_vpc id subnet context;
      match returned with
      | Some b => Return b
      | None => asg_in_vpc_loop id rest context
      end
  end.

(** [VPC.asg_in_vpc]; [id] is [self.id]. *)
Definition asg_in_vpc (id : string) (asg : Description) (context : Context)
  : outcome bool :=
  zone_identifier ← str_item asg "VPCZoneIdentifier";
  asg_in_vpc_loop id (split ","%char zone_identifier) context.

Definition describe_asgs (context : Context) : M unit :=
  asgs ← lift (describe_auto_scaling_groups context);
  loop asgs (fun asg =>
    id ← self_id;
    in_vpc ← lift (asg_in_vpc id asg context);
    if (in_vpc : bool) then
      _id ← lift (str_item asg "AutoScalingGroupName");
      set_service _id (new AutoServiceGroup asg "ASG" _id);;
      lbs ← lift (list_item asg "LoadBalancerNames");
      loop lbs (fun lb => add_relation (Some _id) (Some lb));;
      instances ← lift (dicts_item asg "Instances");
      loop instances (fun x =>
        instance_id ← lift (str_item x "InstanceId");
        add_relation (Some _id) (Some instance_id));;
      zones ← lift (list_item asg "AvailabilityZones");
      loop zones (fun az => azs_service_ids_append az _id)
    else mret tt).

Definition describe_ekss (context : Context) : M unit :=
  ekss ← lift (list_clusters context);
  loop ekss (fun eks =>
    eks_desc ← lift (describe_cluster context eks);
    config ← lift (dict_item eks_desc "resourcesVpcConfig");
    vpc_id ← lift (str_item config "vpcId");
    id ← self_id;
    if String.eqb vpc_id id then
      _id ← lift (str_item eks_desc "arn");
      set_service _id (new EksCluster eks_desc "EKS" _id);;
      config ← lift (dict_item eks_desc "resourcesVpcConfig");
      sns ← lift (list_item config "subnetIds");
      loop sns (fun sn => subnets_append sn _id);;
      config ← lift (dict_item eks_desc "resourcesVpcConfig");
      sgs ← lift (list_item config "securityGroupIds");
      loop sgs (fun sg => add_relation (Some _id) (Some sg))
    else mret tt).

(** [[f(x) for x in l]] without a change of the graph *)
Fixpoint collect {A B} (f : A → outcome B) (l : list A) : outcome (list B) :=
  match l with
  | [] => Return []
  | x :: l' => y ← f x; ys ← collect f l'; Return (y :: ys)
  end.

(** [[x for x in l if test(x)]] *)
Fixpoint select {A} (test : A → outcome bool) (l : list A)
  : outcome (list A) :=
  match l with
  | [] => Return []
  | x :: l' =>
      keep ← test x;
      xs ← select test l';
      Return (if (keep : bool) then x :: xs else xs)
  end.

(** The waiter that [describe_ec2s] creates first is never used. *)
Definition describe_ec2s (context : Context) : M unit :=
  id ← self_id;
  reservations ← lift (describe_instances context id);
  per_reservation ←
    lift (collect (fun reservation => dicts_item reservation "Instances")
                  reservations);
  let ec2s := concat per_reservation in
  loop ec2s (fun ec2 =>
    _id ← lift (str_item ec2 "InstanceId");
    instance_type ← lift (str_item ec2 "InstanceType");
    set_service _id (new (EC2Instance instance_type) ec2 "EC2" _id);;
    nwis ← lift (dicts_item ec2 "NetworkInterfaces");
    loop nwis (fun nwi =>
      nwi_id ← lift (str_item nwi "NetworkInterfaceId");
      add_relation (Some _id) (Some nwi_id));;
    sgs ← lift (dicts_item ec2 "SecurityGroups");
    loop sgs (fun sg =>
      group_id ← lift (str_item sg "GroupId");
      add_relation (Some _id) (Some group_id));;
    subnet_id ← lift (str_item ec2 "SubnetId");
    subnets_append subnet_id _id;;
    placement ← lift (dict_item ec2 "Placement");
    az ← lift (str_item placement "AvailabilityZone");
    azs_service_ids_append az _id).

Definition describe_lambdas (context : Context) : M unit :=
  lmbds ← lift (list_functions context);
  id ← self_id;
  lambdas_list ←
    lift (select (fun lmbd =>
                    if has_key "VpcConfig" (dicts lmbd) then
                      config ← dict_item lmbd "VpcConfig";
                      vpc_id ← str_item config "VpcId";
                      Return (String.eqb vpc_id id)
                    else Return false)
                 lmbds);
  loop lambdas_list (fun lmbda =>
    _id ← lift (str_item lmbda "FunctionArn");
    set_service _id (new LambdaFunction lmbda "Lambda" _id);;
    config ← lift (dict_item lmbda "VpcConfig");
    sns ← lift (list_item config "SubnetIds");
    loop sns (fun sn => subnets_append sn _id);;
    config ← lift (dict_item lmbda "VpcConfig");
    sgs ← lift (list_item config "SecurityGroupIds");
    loop sgs (fun sg => add_relation (Some _id) (Some sg))).

Definition describe_rdss (context : Context) : M unit :=
  rdss ← lift (describe_db_instances context);
  id ← self_id;
  rdsss_list ←
    lift (select (fun rds =>
                    group ← dict_item rds "DBSubnetGroup";
                    vpc_id ← str_item group "VpcId";
                    Return (String.eqb vpc_id id))
                 rdss);
  loop rdsss_list (fun rds =>
    _id ← lift (str_item rds "DBInstanceIdentifier");
    instance_class ← lift (str_item rds "DBInstanceClass");
    set_service _id (new (RdsInstance instance_class) rds "RDS" _id);;
    group ← lift (dict_item rds "DBSubnetGroup");
    sns ← lift (dicts_item group "Subnets");
    loop sns (fun sn =>
      subnet_id ← lift (str_item sn "SubnetIdentifier");
      subnets_append subnet_id _id);;
    sgs ← lift (dicts_item rds "VpcSecurityGroups");
    loop sgs (fun sg =>
      group_id ← lift (str_item sg "VpcSecurityGroupId");
      add_relation (Some _id) (Some group_id));;
    az ← lift (str_item rds "AvailabilityZone");
    azs_service_ids_append az _id).

(** [for x in filter(test, l): body(x)]: [filter] is lazy, the test of an
    element runs when the loop reaches it. *)
Definition loop_filter {A} (test : A → M bool) (l : list A)
    (body : A → M unit) : M unit :=
  loop l (fun x => keep ← test x; if (keep : bool) then body x else mret tt).

Definition describe_elbs (context : Context) : M unit :=
  elbs ← lift (describe_load_balancers context);
  loop_filter
    (fun x => vpc_id ← lift (str_item x "VPCId");
              id ← self_id;
              mret (String.eqb vpc_id id))
    elbs
    (fun elb =>
       _id ← lift (str_item elb "LoadBalancerName");
       set_service _id (new LoadBalancer elb "ELBv1" _id);;
       sns ← lift (list_item elb "Subnets");
       loop sns (fun sn => subnets_append sn _id);;
       sgs ← lift (list_item elb "SecurityGroups");
       loop sgs (fun sg => add_relation (Some _id) (Some sg));;
       instances ← lift (dicts_item elb "Instances");
       loop instances (fun x =>
         instance_id ← lift (str_item x "InstanceId");
         add_relation (Some _id) (Some instance_id));;
       zones ← lift (list_item elb "AvailabilityZones");
       loop zones (fun az => azs_service_ids_append az _id)).

(** The description that stands for a hosted zone that could not be
    read: [{"Name": hz_id}]. *)
Definition named (hz_id : string) : Description :=
  {| seen := {| Tags := None; entries := [("Name", hz_id)];
                MapPublicIpOnLaunch := None; Association_PublicIp := None |};
     lists := []; dicts := []; dict_lists := [] |}.

Definition describe_elbsV2 (context : Context) : M unit :=
  elbs ← lift (describe_load_balancers_v2 context);
  loop_filter
    (fun x => vpc_id ← lift (str_item x "VpcId");
              id ← self_id;
              mret (String.eqb vpc_id id))
    elbs
    (fun elb =>
       _id ← lift (str_item elb "LoadBalancerArn");
       arn ← lift (str_item elb "LoadBalancerArn");
       set_service _id (new LoadBalancer elb "ELBv2" arn);;
       zones ← lift (dicts_item elb "AvailabilityZones");
       loop zones (fun az =>
         subnet_id ← lift (str_item az "SubnetId");
         subnets_append subnet_id _id;;
         zone_name ← lift (str_item az "ZoneName");
         azs_service_ids_append zone_name _id);;
       loop (default [] (get "SecurityGroups" (lists elb)))
            (fun sg => add_relation (Some _id) (Some sg));;
       hz_id ← lift (str_item elb "CanonicalHostedZoneId");
       let hz := match get_hosted_zone context hz_id with
                 | Return hz => hz
                 | Throw _ => named hz_id
                 end in
       set_service hz_id (new HostedZone hz "HZ" hz_id);;
       add_relation (Some hz_id) (Some _id);;
       tgs ← lift (describe_target_groups context _id);
       loop tgs (fun tg =>
         _tg_id ← lift (str_item tg "TargetGroupArn");
         vpc_id ← lift (str_item tg "VpcId");
         id ← self_id;
         if negb (String.eqb vpc_id id) then mret tt
         else
           set_service _tg_id (new TargetGroup tg "TG" _tg_id);;
           add_relation (Some _id) (Some _tg_id);;
           targets ← lift (describe_target_health context _tg_id);
           loop targets (fun target =>
             t ← lift (dict_item target "Target");
             target_id ← lift (str_item t "Id");
             add_relation (Some _tg_id) (Some target_id)))).

Definition describe_nats (context : Context) : M unit :=
  id ← self_id;
  nats ← lift (describe_nat_gateways context id);
  loop nats (fun nat =>
    _id ← lift (str_item nat "NatGatewayId");
    set_service _id (new NatGateway nat "NAT" _id);;
    subnet_id ← lift (str_item nat "SubnetId");
    subnets_append subnet_id _id;;
    addresses ← lift (dicts_item nat "NatGatewayAddresses");
    loop addresses (fun nwi =>
      nwi_id ← lift (str_item nwi "NetworkInterfaceId");
      add_relation (Some _id) (Some nwi_id))).

Definition describe_enis (context : Context) : M unit :=
  id ← self_id;
  enis ← lift (describe_network_interfaces context id);
  loop enis (fun eni =>
    _id ← lift (str_item eni "NetworkInterfaceId");
    set_service _id (new NetworkInterface eni "ENI" _id);;
    subnet_id ← lift (str_item eni "SubnetId");
    subnets_append subnet_id _id).

Definition describe_igws (context : Context) : M unit :=
  id ← self_id;
  igws ← lift (describe_internet_gateways context id);
  loop igws (fun igw =>
    _id ← lift (str_item igw "InternetGatewayId");
    set_service _id (new ServiceInstanceC igw "IGW" _id)).

Definition describe_vpgws (context : Context) : M unit :=
  id ← self_id;
  vpgws ← lift (describe_vpn_gateways context id);
  loop vpgws (fun vpgw =>
    _id ← lift (str_item vpgw "VpnGatewayId");
    set_service _id (new ServiceInstanceC vpgw "VPGW" _id);;
    if has_key "AvailabilityZone" (entries (seen vpgw)) then
      az ← lift (str_item vpgw "AvailabilityZone");
      azs_services_append az _id
    else mret tt).

Definition describe_subnets (context : Context) : M unit :=
  id ← self_id;
  subnets ← lift (describe_subnets_of context id);
  loop subnets (fun subnet =>
    _id ← lift (str_item subnet "SubnetId");
    set_service _id (new Subnet subnet "SUBN" _id);;
    az ← lift (str_item subnet "AvailabilityZone");
    azs_subnet_ids_append az _id).

Definition describe_acls (context : Context) : M unit :=
  id ← self_id;
  acls ← lift (describe_network_acls context id);
  loop acls (fun acl =>
    _id ← lift (str_item acl "NetworkAclId");
    set_service _id (new ServiceInstanceC acl "ACL" _id);;
    associations ← lift (dicts_item acl "Associations");
    loop associations (fun sn =>
      subnet_id ← lift (str_item sn "SubnetId");
      add_relation (Some subnet_id) (Some _id))).

Definition describe_sgs (context : Context) : M unit :=
  id ← self_id;
  sgs ← lift (describe_security_groups context id);
  loop sgs (fun sg =>
    _id ← lift (str_item sg "GroupId");
    set_service _id (new SecurityGroup sg "SG" _id);;
    loop (relationships sg).1
         (fun pair => add_relation (Some pair.1) (Some pair.2));;
    lift (relationships sg).2).

Definition describe_rtbs (context : Context) : M unit :=
  id ← self_id;
  rtbs ← lift (describe_route_tables context id);
  loop rtbs (fun rtb =>
    _id ← lift (str_item rtb "RouteTableId");
    set_service _id (new ServiceInstanceC rtb "RTB" _id);;
    associations ← lift (dicts_item rtb "Associations");
    loop associations (fun assoc =>
      add_relation (str_get assoc "SubnetId") (Some _id);;
      add_relation (Some _id) (str_get assoc "GatewayId"));;
    routes ← lift (dicts_item rtb "Routes");
    loop routes (fun route =>
      add_relation (Some _id) (str_get route "EgressOnlyInternetGatewayId");;
      add_relation (str_get route "GatewayId") (Some _id);;
      add_relation (Some _id) (str_get route "InstanceId");;
      add_relation (Some _id) (str_get route "NatGatewayId");;
      add_relation (Some _id) (str_get route "TransitGatewayId");;
      add_relation (Some _id) (str_get route "LocalGatewayId");;
      add_relation (Some _id) (str_get route "CarrierGatewayId");;
      add_relation (Some _id) (str_get route "NetworkInterfaceId");;
      add_relation (Some _id) (str_get route "VpcPeeringConnectionId"))).

Definition describe_hosted_zones (context : Context) : M unit :=
  id ← self_id;
  hzs ← lift (list_hosted_zones_by_vpc context id (region context));
  loop hzs (fun hz =>
    _id ← lift (str_item hz "HostedZoneId");
    set_service _id (new HostedZone hz "HZ" _id)).

Definition describe_vpc_epts (context : Context) : M unit :=
  id ← self_id;
  epts ← lift (describe_vpc_endpoints context id);
  loop epts (fun ept =>
    _id ← lift (str_item ept "VpcEndpointId");
    endpoint ← lift (VpcEndpoint_create ept _id);
    set_service _id endpoint;;
    sns ← lift (list_item ept "SubnetIds");
    loop sns (fun sn => subnets_append sn _id);;
    groups ← lift (dicts_item ept "Groups");
    loop groups (fun sg =>
      group_id ← lift (str_item sg "GroupId");
      add_relation (Some _id) (Some group_id));;
    rtbs ← lift (list_item ept "RouteTableIds");
    loop rtbs (fun rtb => add_relation (Some _id) (Some rtb));;
    nwis ← lift (list_item ept "NetworkInterfaceIds");
    loop nwis (fun nwi => add_relation (Some _id) (Some nwi))).

Definition describe_vpc_peering_connections (context : Context) : M unit :=
  id ← self_id;
  accepters ← lift (describe_vpc_peering_connections_accepter context id);
  loop accepters (fun peering =>
    _id ← lift (str_item peering "VpcPeeringConnectionId");
    set_service _id (new ServiceInstanceC peering "PEER" _id));;
  id ← self_id;
  requesters ← lift (describe_vpc_peering_connections_requester context id);
  loop requesters (fun peering =>
    _id ← lift (str_item peering "VpcPeeringConnectionId");
    set_service _id (new ServiceInstanceC peering "PEER" _id)).

(** [VPC.cost_per_month]: [sum] adds from the left, starting at [0].  As
    for the cost of a service, the model computes in exact rationals. *)
Definition cost_per_month (self : VPC) : Q :=
  fold_left Qplus (map Service.cost_per_month (services self)) 0%Q.

(** [tags.get("Name", self.id)] for the dictionary
    [{t["Key"]: t["Value"] for t in details.get("Tags", [])}]: the value
    of the last tag called ["Name"]. *)
Definition name_of (details : Description) (id : string) : string :=
  fold_left (fun name tag => if String.eqb (Key tag) "Name"
                             then Value tag else name)
            (tags (seen details)) id.

(** [VPC.scan] *)
Definition scan (context : Context) : M unit :=
  id ← self_id;
  vpcs ← lift (describe_vpcs context id);
  details ← lift (first vpcs);
  cidr ← lift (str_item details "CidrBlock");
  set_cidr_block cidr;;
  id ← self_id;
  set_name (name_of details id);;
  describe_asgs context;;
  describe_ec2s context;;
  describe_ekss context;;
  describe_elbs context;;
  describe_elbsV2 context;;
  describe_enis context;;
  describe_hosted_zones context;;
  describe_igws context;;
  describe_lambdas context;;
  describe_nats context;;
  describe_rdss context;;
  describe_subnets context;;
  describe_vpc_epts context;;
  describe_vpgws context;;
  describe_vpc_peering_connections context;;
  if negb (ignore_free_resources (options context)) then
    describe_acls context;;
    describe_rtbs context;;
    describe_sgs context
  else mret tt.

End Scan.

(** ** [src/region.py] *)

Module Region.
Import Py.

Record Region := {
  name : string;
  context : Scan.Context;
  vpcs : list Vpc.VPC;
}.

(** [Region.add_vpc]: the new graph is appended to [vpcs] before it is
    scanned, so it stays there as the scan leaves it. *)
Definition add_vpc (self : Region) (vpc_id : string)
  : Region * Scan.outcome unit :=
  let '(vpc, scanned) := Scan.scan (context self) (Scan.init vpc_id) in
  ({| name := name self; context := context self;
      vpcs := vpcs self ++ [vpc] |},
   scanned).

(** [s.translate(FIX_FILE_NAME)] *)
Fixpoint fix_file_name (s : string) : string :=
  match s with
  | EmptyString => EmptyString
  | String c s' =>
      if Ascii.eqb c " "%char then String "-"%char (fix_file_name s')
      else if Ascii.eqb c "\"%char || Ascii.eqb c "/"%char
      then String "_"%char (fix_file_name s')
      else if Ascii.eqb c "."%char then fix_file_name s'
      else String c (fix_file_name s')
  end.

(** [file_title] in [Region.to_graphviz]:
    [f"{v.id}_{v.name}".translate(FIX_FILE_NAME)] *)
Definition file_title (v : Vpc.VPC) : string :=
  fix_file_name (Vpc.id v +:+ "_" +:+ Vpc.name v).

End Region.

(** * More sample graphs *)

Module MoreSamples.
Import Py Graphviz Samples.

(** An Auto Scaling group whose name begins like an ARN. *)
Definition asg_arnold : ServiceInstance :=
  instance AutoServiceGroup "ASG" "arnold".

Definition arnold_vpc : VPC :=
  {| Vpc.id := "vpc-4"; Vpc.name := "main"; cidr_block := Some "10.0.0.0/16";
     _services := [("arnold", asg_arnold)];
     relations := ∅; azs := []; subnets := ∅ |}.

(** A description with string entries only. *)
Definition described (entries : list (string * string)) : Scan.Description :=
  {| Scan.seen := {| Tags := None; entries := entries;
                     MapPublicIpOnLaunch := None;
                     Association_PublicIp := None |};
     Scan.lists := []; Scan.dicts := []; Scan.dict_lists := [] |}.

(** The description of the VPC itself: its CIDR block and two tags. *)
Definition vpc_description : Scan.Description :=
  {| Scan.seen := {| Tags := Some [ {| Key := "Name"; Value := "main" |};
                                    {| Key := "env"; Value := "test" |} ];
                     entries := [("CidrBlock", "10.0.0.0/16")];
                     MapPublicIpOnLaunch := None;
                     Association_PublicIp := None |};
     Scan.lists := []; Scan.dicts := []; Scan.dict_lists := [] |}.

(** A provider that knows the VPC and the given subnets, interfaces, VPN
    gateways, route tables and endpoints, and nothing else; the calls
    about one cluster, one subnet or one hosted zone fail. *)
Definition provider (ignore_free_resources : bool)
    (subnets enis vpgws rtbs epts : list Scan.Description) : Scan.Context :=
  {| Scan.options := {| Scan.ignore_free_resources := ignore_free_resources |};
     Scan.region := "us-east-1";
     Scan.describe_auto_scaling_groups := Scan.Return [];
     Scan.describe_subnets_by_id := fun _ => Scan.Throw Scan.ClientError;
     Scan.list_clusters := Scan.Return [];
     Scan.describe_cluster := fun _ => Scan.Throw Scan.ClientError;
     Scan.describe_instances := fun _ => Scan.Return [];
     Scan.list_functions := Scan.Return [];
     Scan.describe_db_instances := Scan.Return [];
     Scan.describe_load_balancers := Scan.Return [];
     Scan.describe_load_balancers_v2 := Scan.Return [];
     Scan.get_hosted_zone := fun _ => Scan.Throw Scan.ClientError;
     Scan.describe_target_groups := fun _ => Scan.Return [];
     Scan.describe_target_health := fun _ => Scan.Return [];
     Scan.describe_nat_gateways := fun _ => Scan.Return [];
     Scan.describe_network_interfaces := fun _ => Scan.Return enis;
     Scan.describe_internet_gateways := fun _ => Scan.Return [];
     Scan.describe_vpn_gateways := fun _ => Scan.Return vpgws;
     Scan.describe_subnets_of := fun _ => Scan.Return subnets;
     Scan.describe_network_acls := fun _ => Scan.Return [];
     Scan.describe_security_groups := fun _ => Scan.Return [];
     Scan.describe_route_tables := fun _ => Scan.Return rtbs;
     Scan.list_hosted_zones_by_vpc := fun _ _ => Scan.Return [];
     Scan.describe_vpc_endpoints := fun _ => Scan.Return epts;
     Scan.describe_vpc_peering_connections_accepter := fun _ => Scan.Return [];
     Scan.describe_vpc_peering_connections_requester :=
       fun _ => Scan.Return [];
     Scan.describe_vpcs := fun _ => Scan.Return [vpc_description] |}.

Definition subnet_a : Scan.Description :=
  described [("SubnetId", "subnet-1"); ("AvailabilityZone", "us-east-1a");
             ("CidrBlock", "10.0.1.0/24")].

Definition eni_a : Scan.Description :=
  described [("NetworkInterfaceId", "eni-1"); ("SubnetId", "subnet-1")].

Definition vgw_plain : Scan.Description :=
  described [("VpnGatewayId", "vgw-1")].

(** A VPN gateway that names its zone. *)
Definition vgw_zoned : Scan.Description :=
  described [("VpnGatewayId", "vgw-2"); ("AvailabilityZone", "us-east-1a")].

(** A route table with the association of the subnet and the local
    route. *)
Definition rtb_a : Scan.Description :=
  {| Scan.seen := {| Tags := None; entries := [("RouteTableId", "rtb-1")];
                     MapPublicIpOnLaunch := None;
                     Association_PublicIp := None |};
     Scan.lists := []; Scan.dicts := [];
     Scan.dict_lists :=
       [ ("Associations", [described [("SubnetId", "subnet-1")]]);
         ("Routes", [described [("GatewayId", "local")]]) ] |}.

(** An endpoint of a type that [VpcEndpoint.create] does not know. *)
Definition ept_odd : Scan.Description :=
  described [("VpcEndpointId", "vpce-1"); ("VpcEndpointType", "Resource")].

(** A security group that lets in another group and a peering
    connection. *)
Definition sg_a : Scan.Description :=
  {| Scan.seen := {| Tags := None; entries := [("GroupId", "sg-1")];
                     MapPublicIpOnLaunch := None;
                     Association_PublicIp := None |};
     Scan.lists := []; Scan.dicts := [];
     Scan.dict_lists :=
       [ ("IpPermissions",
          [ {| Scan.seen := no_details; Scan.lists := []; Scan.dicts := [];
               Scan.dict_lists :=
                 [ ("UserIdGroupPairs",
                    [ described [("GroupId", "sg-2");
                                 ("VpcPeeringConnectionId", "pcx-1")] ]) ] |} ]);
         ("IpPermissionsEgress", []) ] |}.

Definition small_provider : Scan.Context :=
  provider false [subnet_a] [eni_a] [vgw_plain] [rtb_a] [].

(** The same provider when the free resources are left out. *)
Definition frugal_provider : Scan.Context :=
  provider true [subnet_a] [eni_a] [vgw_plain] [rtb_a] [].

Definition zoned_provider : Scan.Context :=
  provider false [] [] [vgw_plain; vgw_zoned] [] [].

Definition odd_provider : Scan.Context :=
  provider false [] [] [] [] [ept_odd].

End MoreSamples.

(** * More vocabulary *)

Module MoreVocabulary.
Import Py Graphviz.

(** The service types that [to_graphviz] counts as connected whether or
    not a relation names the resource: storage, compute and hosted
    zones. *)
Definition always_connected (service_name : string) : bool :=
  str_in service_name STORAGE || str_in service_name COMPUTE
  || String.eqb service_name "HZ".

(** A text of decimal digits only. *)
Definition decimal (s : string) : Prop :=
  ∀ c, contains_char c s = true → digit c ≠ None.

(** *** The graph during a scan *)

(** [m] keeps [I]: whatever its outcome, it leaves a graph that satisfies
    [I] when it was given one. *)
Definition preserves {A} (I : VPC → Prop) (m : Scan.M A) : Prop :=
  ∀ self, I self → I (m self).1.

(** Every resource is stored under its name, and the name of its type
    satisfies [P]. *)
Definition stored_by_name (P : string → Prop) (vpc : VPC) : Prop :=
  ∀ k v, (k, v) ∈ _services vpc → instance_name v = k ∧ P (service_name v).

(** The lists of the zones and of the subnets name stored resources
    only. *)
Definition references_stored (vpc : VPC) : Prop :=
  (∀ z zone x, (z, zone) ∈ azs vpc →
               x ∈ service_ids zone ++ subnet_ids zone →
               contains vpc x = true)
  ∧ (∀ sn l x, subnets vpc !! sn = Some l → x ∈ l → contains vpc x = true).

(** The names of the types under which the scan stores a resource, and
    those of them that it stores when the free resources are left out. *)
Definition priced_types : list string :=
  ["ASG"; "EC2"; "EKS"; "ELBv1"; "ELBv2"; "HZ"; "TG"; "ENI"; "IGW"; "Lambda";
   "NAT"; "RDS"; "SUBN"; "EPT-I"; "EPT-GW"; "EPT-GWLB"; "VPGW"; "PEER"].

Definition scanned_types : list string :=
  priced_types ++ ["ACL"; "RTB"; "SG"].

(** The ids [ks] are stored and the lists name stored resources only. *)
Definition known (ks : list string) (self : VPC) : Prop :=
  references_stored self ∧ Forall (fun k => contains self k = true) ks.

(** The graph has the id [i], the name [n] and the CIDR block [c]. *)
Definition titled (i n c : string) (self : VPC) : Prop :=
  Vpc.id self = i ∧ Vpc.name self = n ∧ cidr_block self = Some c.

(** The zone that [self.azs[az]] gives. *)
Definition zone_at (az : string) (self : VPC) : AvailabilityZone :=
  default {| service_ids := []; subnet_ids := [] |} (get az (azs self)).

(** [vpc'] holds what [vpc] holds: the id is the same, every key of the
    resource map is still one, every relation is still there, and the
    list of every zone and of every subnet has only grown at its end. *)
Definition extends (vpc vpc' : VPC) : Prop :=
  Vpc.id vpc' = Vpc.id vpc
  ∧ (∀ k, contains vpc k = true → contains vpc' k = true)
  ∧ relations vpc ⊆ relations vpc'
  ∧ (∀ z zone, get z (azs vpc) = Some zone →
       ∃ zone', get z (azs vpc') = Some zone'
                ∧ service_ids zone `prefix_of` service_ids zone'
                ∧ subnet_ids zone `prefix_of` subnet_ids zone')
  ∧ (∀ sn l, subnets vpc !! sn = Some l →
       ∃ l', subnets vpc' !! sn = Some l' ∧ l `prefix_of` l').

End MoreVocabulary.

(** * Properties *)

Set Warnings "-clear-no-such-hyp".

Import Py Graphviz Samples Vocabulary.
Open Scope nat_scope.

(** ** The resource map: [VPC.__getitem__] and [VPC.__contains__] *)

Lemma get_None {V} (k : string) (d : list (string * V)) :
  get k d = None ↔ k ∉ d.*1.
Proof.
  induction d as [|[k' v] d IH]; simpl.
  - split; [intros _; apply not_elem_of_nil | done].
  - destruct (String.eqb_spec k k') as [->|Hne].
    + split; [done | intros H; exfalso; apply H; left].
    + rewrite IH, not_elem_of_cons. tauto.
Qed.

Lemma has_key_true {V} (k : string) (d : list (string * V)) :
  has_key k d = true ↔ k ∈ d.*1.
Proof.
  unfold has_key. rewrite existsb_exists. split.
  - intros (x & Hx & Heq). apply String.eqb_eq in Heq as ->.
    by apply list_elem_of_In.
  - intros H. exists k. split; [by apply list_elem_of_In | apply String.eqb_refl].
Qed.

(** C10.  Indexing the graph by a resource id never raises: for an id that
    is not a key of the resource map it gives [None]; and [id in vpc] holds
    exactly when indexing gives a resource. *)
Theorem getitem_total (vpc : VPC) (key : string) :
  (getitem vpc key = None ↔ key ∉ (_services vpc).*1)
  ∧ (contains vpc key = true ↔ is_Some (getitem vpc key)).
Proof.
  unfold getitem, contains. split; [apply get_None|].
  rewrite has_key_true, <-not_eq_None_Some, get_None.
  split; [tauto | apply dec_stable].
Qed.

(** ** The relation set: [VPC._add_relation] *)

(** C7, as stated, fails: an empty string is an endpoint like any other,
    and the relation is stored. *)
Lemma add_relation_empty_string_stored :
  ¬ (∀ (vpc : VPC) (src trg : option string),
        src = None ∨ src = Some EmptyString
        ∨ trg = None ∨ trg = Some EmptyString →
        relations (_add_relation vpc src trg) = relations vpc).
Proof.
  intros H.
  specialize (H empty_vpc (Some EmptyString) (Some "sg-1")
                (or_intror (or_introl eq_refl))).
  simpl in H.
  assert (Hin : mkRelation EmptyString "sg-1" ∈ (∅ : gset Relation)).
  { rewrite <-H. apply elem_of_union_l, elem_of_singleton. reflexivity. }
  by apply not_elem_of_empty in Hin.
Qed.

(** C7, amended.  A relation with [None] as its source or its target is
    dropped: the graph is the same afterwards, and nothing is raised.  Two
    strings, empty or not, are stored as a relation, and are stored once. *)
Theorem add_relation_None_dropped (vpc : VPC) (src trg : option string) :
  _add_relation vpc None trg = vpc
  ∧ _add_relation vpc src None = vpc
  ∧ (∀ s t : string,
        relations (_add_relation vpc (Some s) (Some t))
        = {[ mkRelation s t ]} ∪ relations vpc
        ∧ _add_relation (_add_relation vpc (Some s) (Some t)) (Some s) (Some t)
          = _add_relation vpc (Some s) (Some t)).
Proof.
  split; [done|]. split; [by destruct src|].
  intros s t. split; [done|].
  unfold _add_relation, with_relations; simpl. f_equal.
  by rewrite (assoc_L (∪)), (idemp_L (∪)).
Qed.

(** ** The edge router: [edge] *)

Lemma eqb_neq_false (a b : string) : a ≠ b → String.eqb a b = false.
Proof. by intros H; apply String.eqb_neq. Qed.

Lemma cost_positive (q : Q) : negb (Qle_bool q 0) = true ↔ (0 < q)%Q.
Proof.
  rewrite negb_true_iff, <-not_true_iff_false, Qle_bool_iff.
  split; [apply Qnot_le_lt | apply Qlt_not_le].
Qed.

Lemma cost_not_positive (q : Q) : negb (Qle_bool q 0) = false ↔ ¬ (0 < q)%Q.
Proof. rewrite <-cost_positive. by destruct (negb _). Qed.



Lemma str_in_true (x : string) (l : list string) : str_in x l = true ↔ x ∈ l.
Proof.
  unfold str_in. rewrite existsb_exists. split.
  - intros (y & Hy & Heq). apply String.eqb_eq in Heq as ->.
    by apply list_elem_of_In.
  - intros H. exists x. split; [by apply list_elem_of_In | apply String.eqb_refl].
Qed.

(** [edge] on two resources, once the attributes are known. *)
Lemma edge_of_attrs (source target : ServiceInstance) (vpc : VPC)
    (s t : string) (attrs : list (string * AttrValue)) :
  service_name source ≠ "SUBN" →
  Service.id source = Ok s → Service.id target = Ok t →
  edge_attrs source target vpc = Ok attrs →
  edge (Some source) (Some target) vpc = Ok (Some (edge_statement s t attrs)).
Proof.
  intros Hsubn Hs Ht Ha. unfold edge.
  by rewrite (eqb_neq_false _ _ Hsubn), Ha, Hs, Ht.
Qed.

(** C5.  Let the types of both ends of a rendered relation have levels.
    If the level of the source is greater than that of the target, the
    edge carries [constraint="False"] and [style="invis"].  If it is
    smaller, and neither the cost rule nor the interface/route-table rule
    applies, the edge carries its colour and nothing else. *)
Theorem edge_level_rule (source target : ServiceInstance) (vpc : VPC)
    (ls lg : nat) (s t : string) :
  service_name source ≠ "SUBN" →
  level (service_name source) = Some ls →
  level (service_name target) = Some lg →
  Service.id source = Ok s →
  Service.id target = Ok t →
  (lg < ls →
     edge_attrs source target vpc = Ok (hidden source)
     ∧ get "constraint" (hidden source) = Some (VBool false)
     ∧ get "style" (hidden source) = Some (VStr "invis")
     ∧ edge (Some source) (Some target) vpc
       = Ok (Some (edge_statement s t (hidden source))))
  ∧ (ls < lg →
     ¬ ((0 < cost_per_month source)%Q ∧ service_name target = "SG") →
     ¬ (service_name source = "ENI" ∧ service_name target = "RTB"
        ∧ mkRelation s t ∉ relations vpc) →
     edge_attrs source target vpc = Ok (plain source)
     ∧ get "constraint" (plain source) = None
     ∧ get "style" (plain source) = None
     ∧ edge (Some source) (Some target) vpc
       = Ok (Some (edge_statement s t (plain source)))).
Proof.
  intros Hsubn Hls Hlt Hs Ht.
  assert (Hback : lg < ls →
            edge_attrs source target vpc = Ok (hidden source)).
  { intros Hlevels. unfold edge_attrs. rewrite Hls, Hlt. simpl.
    assert ((lg <? ls)%nat = true) as -> by (by apply Nat.ltb_lt). simpl.
    destruct (String.eqb_spec (service_name source) "ENI") as [He|]; [|done].
    destruct (String.eqb_spec (service_name target) "RTB") as [Hr|]; [|done].
    rewrite He in Hls. rewrite Hr in Hlt.
    injection Hls as <-. injection Hlt as <-. lia. }
  assert (Hforward : ls < lg →
            ¬ ((0 < cost_per_month source)%Q ∧ service_name target = "SG") →
            ¬ (service_name source = "ENI" ∧ service_name target = "RTB"
               ∧ mkRelation s t ∉ relations vpc) →
            edge_attrs source target vpc = Ok (plain source)).
  { intros Hlevels Hcost Hroute. unfold edge_attrs. rewrite Hls, Hlt. simpl.
    assert ((lg <? ls)%nat = false) as -> by (apply Nat.ltb_ge; lia).
    assert (negb (Qle_bool (cost_per_month source) 0)
            && String.eqb (service_name target) "SG" = false) as ->.
    { apply not_true_iff_false. rewrite andb_true_iff, cost_positive.
      rewrite String.eqb_eq. exact Hcost. }
    destruct (String.eqb_spec (service_name source) "ENI") as [He|]; [|done].
    destruct (String.eqb_spec (service_name target) "RTB") as [Hr|]; [|done].
    simpl. rewrite Hs, Ht. simpl.
    case_bool_decide as Hin; [done|].
    exfalso. by apply Hroute. }
  split.
  - intros Hlevels. repeat split; [by apply Hback | ].
    apply edge_of_attrs; auto.
  - intros Hlevels Hcost Hroute. repeat split; [by apply Hforward | ].
    apply edge_of_attrs; auto.
Qed.

(** The example of the specification: [VPGW] is at level 3 and [ACL] at
    level 5. *)
Lemma edge_level_rule_at_levels_3_5 :
  level "VPGW" = Some 3 ∧ level "ACL" = Some 5
  ∧ edge (Some acl_1) (Some vpgw_1) empty_vpc
    = Ok (Some (edge_statement "acl-1" "vgw-1" (hidden acl_1)))
  ∧ edge (Some vpgw_1) (Some acl_1) empty_vpc
    = Ok (Some (edge_statement "vgw-1" "acl-1" (plain vpgw_1))).
Proof.
  split; [reflexivity|]. split; [reflexivity|]. split.
  - destruct (edge_level_rule acl_1 vpgw_1 empty_vpc 5 3 "acl-1" "vgw-1")
      as [Hback _]; [discriminate | reflexivity..|].
    apply Hback. lia.
  - destruct (edge_level_rule vpgw_1 acl_1 empty_vpc 3 5 "vgw-1" "acl-1")
      as [_ Hforward]; [discriminate | reflexivity..|].
    apply Hforward; [lia | |].
    + intros [_ Hsg]. discriminate Hsg.
    + intros [Heni _]. discriminate Heni.
Defined.

(** C6.  Let the target of a rendered relation be a security group.  If
    the monthly cost of the source is positive, the edge carries
    [constraint="False"] and [style="invis"], whatever the levels.  If the
    cost is not positive, the cost rule adds nothing: a source that is not
    below the security groups gives an edge with its colour only. *)
Theorem edge_cost_rule (source target : ServiceInstance) (vpc : VPC)
    (ls : nat) (s t : string) :
  service_name source ≠ "SUBN" →
  level (service_name source) = Some ls →
  service_name target = "SG" →
  Service.id source = Ok s →
  Service.id target = Ok t →
  ((0 < cost_per_month source)%Q →
     edge_attrs source target vpc = Ok (hidden source)
     ∧ get "constraint" (hidden source) = Some (VBool false)
     ∧ get "style" (hidden source) = Some (VStr "invis")
     ∧ edge (Some source) (Some target) vpc
       = Ok (Some (edge_statement s t (hidden source))))
  ∧ (¬ (0 < cost_per_month source)%Q →
     (ls ≤ 17)%nat →
     edge_attrs source target vpc = Ok (plain source)
     ∧ get "style" (plain source) = None
     ∧ edge (Some source) (Some target) vpc
       = Ok (Some (edge_statement s t (plain source)))).
Proof.
  intros Hsubn Hls Hsg Hs Ht.
  assert (Hroute : String.eqb (service_name source) "ENI"
                   && String.eqb (service_name target) "RTB" = false).
  { rewrite Hsg. apply andb_false_r. }
  split.
  - intros Hcost.
    assert (Ha : edge_attrs source target vpc = Ok (hidden source)).
    { unfold edge_attrs. rewrite Hroute, Hls, Hsg. simpl.
      apply cost_positive in Hcost as ->. by destruct (17 <? ls)%nat. }
    repeat split; [done|]. by apply edge_of_attrs.
  - intros Hcost Hlevel.
    assert (Ha : edge_attrs source target vpc = Ok (plain source)).
    { unfold edge_attrs. rewrite Hroute, Hls, Hsg. simpl.
      apply cost_not_positive in Hcost as ->.
      by assert ((17 <? ls)%nat = false) as -> by (apply Nat.ltb_ge; lia). }
    repeat split; [done|]. by apply edge_of_attrs.
Qed.

(** An instance of type [t2.micro] costs; one of an unpriced type does
    not. *)
Lemma edge_cost_rule_at_EC2 :
  (0 < cost_per_month ec2_1)%Q
  ∧ edge (Some ec2_1) (Some sg_1) empty_vpc
    = Ok (Some (edge_statement "i-1" "sg-1" (hidden ec2_1)))
  ∧ (cost_per_month ec2_free == 0)%Q
  ∧ edge (Some ec2_free) (Some sg_1) empty_vpc
    = Ok (Some (edge_statement "i-2" "sg-1" (plain ec2_free))).
Proof.
  split; [reflexivity|]. split; [|split; [reflexivity|]].
  - destruct (edge_cost_rule ec2_1 sg_1 empty_vpc 13 "i-1" "sg-1")
      as [Hcost _]; [discriminate | reflexivity..|].
    apply Hcost. reflexivity.
  - destruct (edge_cost_rule ec2_free sg_1 empty_vpc 13 "i-2" "sg-1")
      as [_ Hfree]; [discriminate | reflexivity..|].
    apply Hfree; [|lia]. intros H. discriminate H.
Defined.

(** ** The graph after [to_graphviz] *)

Section Frame.

Lemma vivified_refl (v : VPC) : vivified v v.
Proof. repeat split. by left. Qed.

Lemma vivified_trans (v1 v2 v3 : VPC) :
  vivified v1 v2 → vivified v2 v3 → vivified v1 v3.
Proof.
  intros (?&?&?&?&?&?&H12) (?&?&?&?&?&?&H23).
  repeat split; try congruence.
  intros k. destruct (H12 k) as [E12|[E1 E2]], (H23 k) as [E23|[E2' E3]].
  - left. congruence.
  - right. split; congruence.
  - right. split; congruence.
  - congruence.
Qed.

Lemma subnets_getitem_vivified (v : VPC) (k : string) :
  vivified v (subnets_getitem v k).1.
Proof.
  unfold subnets_getitem. destruct (subnets v !! k) eqn:E; simpl.
  - apply vivified_refl.
  - repeat split. intros k'. simpl.
    destruct (decide (k = k')) as [<-|Hne].
    + right. by rewrite lookup_insert_eq.
    + left. by rewrite lookup_insert_ne.
Qed.

Lemma subnets_getitem_members (v : VPC) (k : string) :
  (subnets_getitem v k).2 = members v k.
Proof.
  unfold subnets_getitem, members. by destruct (subnets v !! k).
Qed.

Lemma vivified_members (v v' : VPC) (k : string) :
  vivified v v' → members v' k = members v k.
Proof.
  intros (_&_&_&_&_&_&H). unfold members.
  destruct (H k) as [->|[-> ->]]; done.
Qed.

Lemma vivified_getitem (v v' : VPC) (k : string) :
  vivified v v' → getitem v' k = getitem v k.
Proof. intros (_&_&_&H&_). unfold getitem. by rewrite H. Qed.

Lemma vivified_contains (v v' : VPC) (k : string) :
  vivified v v' → contains v' k = contains v k.
Proof. intros (_&_&_&H&_). unfold contains. by rewrite H. Qed.

Lemma vivified_services (v v' : VPC) :
  vivified v v' → services v' = services v.
Proof. intros (_&_&_&H&_). unfold services. by rewrite H. Qed.

Lemma foldSM_vivified {A S} (body : VPC → S → A → VPC * result S) :
  (∀ v acc x, vivified v (body v acc x).1) →
  ∀ l v acc, vivified v (foldSM body v acc l).1.
Proof.
  intros Hbody l. induction l as [|x l IH]; intros v acc; simpl.
  - apply vivified_refl.
  - specialize (Hbody v acc x). destruct (body v acc x) as [v' [acc'|e]].
    + eapply vivified_trans; [exact Hbody | apply IH].
    + exact Hbody.
Qed.

Lemma tally_subnet_vivified (st : VPC * gmap string nat) (k : string) :
  vivified st.1 (tally_subnet st k).1.
Proof.
  unfold tally_subnet.
  pose proof (subnets_getitem_vivified st.1 k) as H.
  by destruct (subnets_getitem st.1 k).
Qed.

Lemma tally_subnets_vivified (ks : list string) (st : VPC * gmap string nat) :
  vivified st.1 (fold_left tally_subnet ks st).1.
Proof.
  revert st. induction ks as [|k ks IH]; intros st; simpl.
  - apply vivified_refl.
  - eapply vivified_trans; [apply tally_subnet_vivified | apply IH].
Qed.

Lemma tally_zone_vivified st (availzone : AvailabilityZone) :
  vivified st.1 (tally_zone st availzone).1.
Proof.
  unfold tally_zone.
  pose proof (tally_subnets_vivified (subnet_ids availzone) (st.1, st.2.2)) as H.
  by destruct (fold_left tally_subnet _ _).
Qed.

Lemma tally_zones_vivified (zs : list AvailabilityZone) st :
  vivified st.1 (fold_left tally_zone zs st).1.
Proof.
  revert st. induction zs as [|z zs IH]; intros st; simpl.
  - apply vivified_refl.
  - eapply vivified_trans; [apply tally_zone_vivified | apply IH].
Qed.

Lemma tally_vivified (v : VPC) : vivified v (tally v).1.
Proof. apply (tally_zones_vivified _ (v, (∅, ∅))). Qed.

Lemma subnet_step_vivified connected single_subnet (v : VPC) acc subnet :
  vivified v (subnet_step connected single_subnet v acc subnet).1.
Proof.
  unfold subnet_step. destruct subnet as [subnet|]; [|apply vivified_refl].
  destruct (_ ≫= _) as [[label i]|e]; [|apply vivified_refl].
  pose proof (subnets_getitem_vivified v i) as H.
  by destruct (subnets_getitem v i).
Qed.

Lemma zone_step_vivified connected c (v : VPC) acc item :
  vivified v (zone_step connected c v acc item).1.
Proof.
  unfold zone_step. destruct acc as [[az_i sn_i] azs], item as [azk availzone].
  destruct (foldM _ _ _) as [[top bottom]|e]; [|apply vivified_refl].
  destruct (sorted_key _ _ _) as [ordered|e]; [|apply vivified_refl].
  pose proof (foldSM_vivified _
    (subnet_step_vivified connected (single_subnet c)) ordered v (sn_i, []))
    as H.
  by destruct (foldSM _ _ _ _).
Qed.

Lemma zones_vivified connected c (v : VPC) :
  vivified v (zones connected c v).1.
Proof.
  unfold zones.
  pose proof (foldSM_vivified _ (zone_step_vivified connected c)
    (sorted (λ p q, str_ltb p.1 q.1) (azs v)) v (0, 0, [])) as H.
  by destruct (foldSM _ _ _ _).
Qed.

Lemma layout_vivified (it : list Relation) (v : VPC) :
  vivified v (layout it v).1.
Proof.
  unfold layout. destruct (connected_set it v); [|apply vivified_refl].
  pose proof (tally_vivified v) as H1.
  destruct (tally v) as [v1 [az_tally sn_tally]].
  destruct (route _ _ _); [|exact H1].
  pose proof (zones_vivified a (containment az_tally sn_tally) v1) as H2.
  destruct (zones _ _ _). eapply vivified_trans; [exact H1 | exact H2].
Qed.

End Frame.

(** C8, as stated, fails: after the rendering of a graph with a subnet that
    holds nothing, [subnets] has an entry for that subnet that it did not
    have before. *)
Lemma to_graphviz_stores_empty_subnet :
  (∃ text, (to_graphviz empty_subnet_vpc).2 = Ok text)
  ∧ subnets empty_subnet_vpc !! "subnet-1" = None
  ∧ subnets (to_graphviz empty_subnet_vpc).1 !! "subnet-1" = Some []
  ∧ (to_graphviz empty_subnet_vpc).1 ≠ empty_subnet_vpc.
Proof.
  assert (H : subnets (to_graphviz empty_subnet_vpc).1 !! "subnet-1" = Some [])
    by (vm_compute; reflexivity).
  split; [eexists; vm_compute; reflexivity|].
  split; [reflexivity|]. split; [exact H|].
  intros Heq. rewrite Heq in H. discriminate H.
Qed.

(** C8, amended.  Rendering leaves the resource map, the relation set and
    the zone map (and the name, id and CIDR block) as they were, whether it
    ends with a text or with an exception.  Of the subnet-membership map
    every entry is kept as it was; the only change is that a subnet id
    that was read and had no entry now has the empty list, so that every
    subnet has the same members before and after. *)
Theorem to_graphviz_frame (it : list Relation) (vpc : VPC) :
  let vpc' := (to_graphviz_in it vpc).1 in
  _services vpc' = _services vpc
  ∧ relations vpc' = relations vpc
  ∧ azs vpc' = azs vpc
  ∧ (Vpc.id vpc' = Vpc.id vpc ∧ Vpc.name vpc' = Vpc.name vpc
     ∧ cidr_block vpc' = cidr_block vpc)
  ∧ (∀ k, subnets vpc' !! k = subnets vpc !! k
          ∨ (subnets vpc !! k = None ∧ subnets vpc' !! k = Some []))
  ∧ (∀ k, members vpc' k = members vpc k).
Proof.
  assert (H : vivified vpc (to_graphviz_in it vpc).1).
  { unfold to_graphviz_in. pose proof (layout_vivified it vpc) as H.
    by destruct (layout it vpc). }
  simpl. split_and!; try apply H.
  intros k. by apply vivified_members.
Qed.

(** ** The containment analysis *)

Section Counting.
Context {A : Type} `{EqDecision A}.

Lemma occurrences_nil (x : A) : occurrences x [] = 0.
Proof. reflexivity. Qed.

Lemma occurrences_cons (x y : A) (l : list A) :
  occurrences x (y :: l) = (if decide (x = y) then 1 else 0) + occurrences x l.
Proof.
  unfold occurrences. rewrite filter_cons. by destruct (decide (x = y)).
Qed.

Lemma occurrences_app (x : A) (l1 l2 : list A) :
  occurrences x (l1 ++ l2) = occurrences x l1 + occurrences x l2.
Proof. unfold occurrences. by rewrite filter_app, length_app. Qed.

Lemma occurrences_zero (x : A) (l : list A) : occurrences x l = 0 ↔ x ∉ l.
Proof.
  induction l as [|y l IH]; [split; [intros _; apply not_elem_of_nil | done]|].
  rewrite occurrences_cons, not_elem_of_cons.
  destruct (decide (x = y)); simpl; [split; [lia | tauto] | tauto].
Qed.

Lemma occurrences_NoDup (x : A) (l : list A) :
  NoDup l → x ∈ l → occurrences x l = 1.
Proof.
  induction 1 as [|y l Hy Hl IH]; [by intros ?%not_elem_of_nil|].
  rewrite occurrences_cons. destruct (decide (x = y)) as [->|Hne].
  - intros _. by apply occurrences_zero in Hy as ->.
  - intros [?|Hin]%elem_of_cons; [done|]. by rewrite IH.
Qed.

Lemma occurrences_perm (x : A) (l1 l2 : list A) :
  l1 ≡ₚ l2 → occurrences x l1 = occurrences x l2.
Proof. intros H. unfold occurrences. by rewrite H. Qed.

Lemma occurrences_flat_map_zero {K} (f : K → list A) (x : A) (ks : list K) :
  occurrences x (flat_map f ks) = 0 ↔ ∀ k, k ∈ ks → x ∉ f k.
Proof.
  induction ks as [|k ks IH]; simpl.
  - split; [by intros _ k ?%not_elem_of_nil | done].
  - rewrite occurrences_app, Nat.eq_add_0, IH, occurrences_zero.
    setoid_rewrite elem_of_cons. naive_solver.
Qed.

(** A member of exactly one of the lists [f k], for the [k] of a list
    without repetition, is a member listed exactly once in all. *)
Lemma occurrences_flat_map_one {K} (f : K → list A) (x : A) (ks : list K) :
  NoDup ks → (∀ k, k ∈ ks → NoDup (f k)) →
  occurrences x (flat_map f ks) = 1
  ↔ exactly_one (fun k => k ∈ ks ∧ x ∈ f k).
Proof.
  induction 1 as [|k ks Hk Hks IH]; intros Hf; simpl.
  - split; [done | by intros (k & [?%not_elem_of_nil _] & _)].
  - rewrite occurrences_app.
    assert (Hf' : ∀ k', k' ∈ ks → NoDup (f k'))
      by (intros; apply Hf; by right).
    specialize (IH Hf').
    destruct (decide (x ∈ f k)) as [Hin|Hout].
    + rewrite (occurrences_NoDup x (f k)); [|apply Hf; by left|done].
      assert (1 + occurrences x (flat_map f ks) = 1
              ↔ occurrences x (flat_map f ks) = 0) as -> by lia.
      rewrite occurrences_flat_map_zero. split.
      * intros Hrest. exists k. split; [split; [by left|done]|].
        intros k' [[->|Hk']%elem_of_cons Hx]; [done|].
        by destruct (Hrest k' Hk').
      * intros (k0 & [_ _] & Huniq) k' Hk' Hx.
        assert (k' = k0) as -> by (apply Huniq; split; [by right|done]).
        assert (k = k0) as -> by (apply Huniq; split; [by left|done]).
        done.
    + apply occurrences_zero in Hout as Hzero. rewrite Hzero. simpl.
      rewrite IH. split.
      * intros (k0 & [Hk0 Hx] & Huniq). exists k0.
        split; [split; [by right|done]|].
        intros k' [[->|Hk']%elem_of_cons Hx']; [done|by apply Huniq].
      * intros (k0 & [[->|Hk0]%elem_of_cons Hx] & Huniq); [done|].
        exists k0. split; [done|].
        intros k' [Hk' Hx']. apply Huniq. split; [by right|done].
Qed.

End Counting.

Section Tally.

Lemma count_insert (c : gmap string nat) (x y : string) (n : nat) :
  count (<[y := n]> c) x = if decide (x = y) then n else count c x.
Proof.
  unfold count. destruct (decide (x = y)) as [->|Hne].
  - by rewrite lookup_insert_eq.
  - by rewrite lookup_insert_ne.
Qed.

Lemma count_update (l : list string) (c : gmap string nat) (x : string) :
  count (update l c) x = occurrences x l + count c x.
Proof.
  unfold update. revert c. induction l as [|y l IH]; intros c; simpl.
  - reflexivity.
  - rewrite IH, occurrences_cons, count_insert.
    destruct (decide (x = y)) as [->|Hne]; [unfold count; lia | lia].
Qed.

Lemma count_empty (x : string) : count ∅ x = 0.
Proof. unfold count. by rewrite lookup_empty. Qed.

Lemma tally_subnets_count (v0 : VPC) (x : string) (ks : list string)
    (st : VPC * gmap string nat) :
  vivified v0 st.1 →
  count (fold_left tally_subnet ks st).2 x
  = occurrences x (flat_map (members v0) ks) + count st.2 x.
Proof.
  revert st. induction ks as [|k ks IH]; intros st Hst; simpl.
  - reflexivity.
  - rewrite IH.
    + unfold tally_subnet.
      pose proof (subnets_getitem_members st.1 k) as Hm.
      destruct (subnets_getitem st.1 k) as [v' ms]. simpl in *. subst ms.
      rewrite count_update, occurrences_app, (vivified_members v0 st.1 k Hst).
      lia.
    + eapply vivified_trans; [exact Hst | apply tally_subnet_vivified].
Qed.

Lemma tally_zones_count (v0 : VPC) (x : string) (zs : list AvailabilityZone)
    (st : VPC * (gmap string nat * gmap string nat)) :
  vivified v0 st.1 →
  let st' := fold_left tally_zone zs st in
  count st'.2.1 x = occurrences x (flat_map service_ids zs) + count st.2.1 x
  ∧ count st'.2.2 x
    = occurrences x (flat_map (members v0) (flat_map subnet_ids zs))
      + count st.2.2 x.
Proof.
  revert st. induction zs as [|z zs IH]; intros st Hst; simpl.
  - done.
  - assert (Hz : vivified v0 (tally_zone st z).1)
      by (eapply vivified_trans; [exact Hst | apply tally_zone_vivified]).
    destruct (IH _ Hz) as [IH1 IH2]. rewrite IH1, IH2. clear IH IH1 IH2.
    rewrite flat_map_app, !occurrences_app.
    unfold tally_zone.
    pose proof (tally_subnets_count v0 x (subnet_ids z) (st.1, st.2.2) Hst) as Hs.
    destruct (fold_left tally_subnet _ _) as [v' sn]. simpl in *.
    rewrite count_update, Hs. lia.
Qed.

Lemma tally_count (vpc : VPC) (x : string) :
  count (tally vpc).2.1 x = occurrences x (all_zone_services vpc)
  ∧ count (tally vpc).2.2 x = occurrences x (all_subnet_members vpc).
Proof.
  destruct (tally_zones_count vpc x (availability_zones vpc) (vpc, (∅, ∅))
              (vivified_refl vpc)) as [H1 H2].
  unfold tally, all_zone_services, all_subnet_members, all_zone_subnets.
  rewrite H1, H2. simpl. rewrite count_empty. lia.
Qed.

Lemma elem_of_single_subnet_of (c : gmap string nat) (x : string) :
  x ∈ single_subnet_of c ↔ count c x = 1.
Proof.
  unfold single_subnet_of, count.
  rewrite elem_of_dom. unfold is_Some.
  setoid_rewrite map_lookup_filter_Some. simpl. split.
  - by intros (n & -> & ->).
  - destruct (c !! x) as [n|]; simpl; [|done]. intros ->. by exists 1.
Qed.

Lemma elem_of_single_az_of (c : gmap string nat) (ss : gset string)
    (x : string) :
  x ∈ single_az_of c ss ↔ count c x = 1 ∧ x ∉ ss.
Proof.
  unfold single_az_of, count.
  rewrite elem_of_dom. unfold is_Some.
  setoid_rewrite map_lookup_filter_Some. simpl. split.
  - by intros (n & -> & -> & ?).
  - destruct (c !! x) as [n|]; simpl; [|by intros [? _]].
    intros [-> ?]. by exists 1.
Qed.

(** The analysis in terms of the lists it reads. *)
Lemma containment_of_spec (vpc : VPC) (x : string) :
  let c := containment_of vpc in
  (x ∈ single_subnet c ↔ occurrences x (all_subnet_members vpc) = 1)
  ∧ (x ∈ single_az c
     ↔ occurrences x (all_zone_services vpc) = 1 ∧ x ∉ single_subnet c)
  ∧ contained c = single_subnet c ∪ single_az c.
Proof.
  destruct (tally_count vpc x) as [Haz Hsn].
  unfold containment_of, containment. simpl.
  rewrite elem_of_single_az_of, !elem_of_single_subnet_of, Haz, Hsn.
  done.
Qed.

End Tally.

Section Classification.

Lemma exactly_one_iff {A} (P Q : A → Prop) :
  (∀ a, P a ↔ Q a) → exactly_one P ↔ exactly_one Q.
Proof.
  intros H. unfold exactly_one. split; intros (a & Ha & Huniq); exists a.
  - split; [by apply H|]. intros b Hb. by apply Huniq, H.
  - split; [by apply H|]. intros b Hb. by apply Huniq, H.
Qed.

Lemma get_Some_elem {V} (k : string) (v : V) (d : list (string * V)) :
  get k d = Some v → (k, v) ∈ d.
Proof.
  induction d as [|[k' v'] d IH]; simpl; [done|].
  destruct (String.eqb_spec k k') as [->|Hne].
  - intros [= ->]. by left.
  - intros H. right. by apply IH.
Qed.

Lemma get_elem_NoDup {V} (k : string) (v : V) (d : list (string * V)) :
  NoDup d.*1 → (k, v) ∈ d → get k d = Some v.
Proof.
  induction d as [|[k' v'] d IH]; simpl; [by intros _ ?%not_elem_of_nil|].
  intros [Hk' Hd]%NoDup_cons [[= -> ->]|Hin]%elem_of_cons.
  - by rewrite String.eqb_refl.
  - destruct (String.eqb_spec k k') as [->|Hne]; [|by apply IH].
    destruct Hk'. apply list_elem_of_fmap. by exists (k', v).
Qed.

Lemma flat_map_ext_elem {A B} (f g : A → list B) (l : list A) :
  (∀ a, a ∈ l → f a = g a) → flat_map f l = flat_map g l.
Proof.
  induction l as [|a l IH]; intros H; simpl; [done|].
  rewrite (H a) by (by left). f_equal. apply IH. intros; apply H. by right.
Qed.

Lemma flat_map_map {A B C} (f : B → list C) (g : A → B) (l : list A) :
  flat_map f (map g l) = flat_map (fun a => f (g a)) l.
Proof. induction l as [|a l IH]; simpl; [done|]. by rewrite IH. Qed.

Lemma all_zone_services_by_name (vpc : VPC) :
  NoDup (azs vpc).*1 →
  all_zone_services vpc = flat_map (zone_services vpc) (azs vpc).*1.
Proof.
  intros Hkeys. unfold all_zone_services, availability_zones.
  rewrite !flat_map_map. apply flat_map_ext_elem.
  intros [z az] Hin. unfold zone_services. simpl.
  by rewrite (get_elem_NoDup z az (azs vpc) Hkeys Hin).
Qed.

Lemma zone_services_NoDup (vpc : VPC) (z : string) :
  Forall (fun item => NoDup (service_ids item.2)) (azs vpc) →
  NoDup (zone_services vpc z).
Proof.
  intros Hall. unfold zone_services.
  destruct (get z (azs vpc)) as [az|] eqn:E; [|constructor].
  apply get_Some_elem in E. rewrite Forall_forall in Hall.
  exact (Hall (z, az) E).
Qed.

Lemma zone_services_key (vpc : VPC) (z x : string) :
  x ∈ zone_services vpc z → z ∈ (azs vpc).*1.
Proof.
  unfold zone_services. destruct (get z (azs vpc)) as [az|] eqn:E.
  - intros _. apply get_Some_elem in E. apply list_elem_of_fmap.
    by exists (z, az).
  - by intros ?%not_elem_of_nil.
Qed.

Lemma members_NoDup (vpc : VPC) (k : string) :
  map_Forall (fun _ l => NoDup l) (subnets vpc) → NoDup (members vpc k).
Proof.
  intros Hall. unfold members.
  destruct (subnets vpc !! k) as [l|] eqn:E; simpl; [|constructor].
  exact (Hall k l E).
Qed.

Lemma members_listed (vpc : VPC) (k x : string) :
  map_Forall (fun k l => l ≠ [] → k ∈ all_zone_subnets vpc) (subnets vpc) →
  x ∈ members vpc k → k ∈ all_zone_subnets vpc.
Proof.
  intros Hall. unfold members.
  destruct (subnets vpc !! k) as [l|] eqn:E; simpl.
  - intros Hx. apply (Hall k l E). by intros ->; apply not_elem_of_nil in Hx.
  - by intros ?%not_elem_of_nil.
Qed.

Lemma one_zone_iff (vpc : VPC) (x : string) :
  set_like vpc →
  occurrences x (all_zone_services vpc) = 1
  ↔ exactly_one (fun z => x ∈ zone_services vpc z).
Proof.
  intros (Hkeys & Hzones & _).
  rewrite (all_zone_services_by_name vpc Hkeys).
  rewrite occurrences_flat_map_one;
    [|done|intros; by apply zone_services_NoDup].
  apply exactly_one_iff. intros z. split; [by intros [_ ?]|].
  intros Hx. split; [by eapply zone_services_key|done].
Qed.

Lemma one_subnet_iff (vpc : VPC) (x : string) :
  set_like vpc →
  occurrences x (all_subnet_members vpc) = 1
  ↔ exactly_one (fun k => x ∈ members vpc k).
Proof.
  intros (_ & _ & Hmembers & Hlisted & Hcovered).
  unfold all_subnet_members.
  rewrite occurrences_flat_map_one;
    [|done|intros; by apply members_NoDup].
  apply exactly_one_iff. intros k. split; [by intros [_ ?]|].
  intros Hx. split; [by eapply members_listed|done].
Qed.

End Classification.

(** C3, as stated, fails: a resource that two zones list and exactly one
    subnet lists is [single_subnet], although the claim makes a resource
    of two zones neither [single_subnet] nor [single_az], whatever its
    subnets. *)
Lemma two_zones_one_subnet_is_single_subnet :
  ¬ (∀ (vpc : VPC) (x z1 z2 : string),
        set_like vpc → z1 ≠ z2 →
        x ∈ zone_services vpc z1 → x ∈ zone_services vpc z2 →
        (x ∉ single_subnet (containment_of vpc))
        ∧ (x ∉ single_az (containment_of vpc))).
Proof.
  intros H.
  destruct (H two_zone_vpc "lb-1" "us-east-1a" "us-east-1b") as [Hss _].
  - split_and!; by apply (bool_decide_unpack _); vm_compute.
  - discriminate.
  - by apply (bool_decide_unpack _); vm_compute.
  - by apply (bool_decide_unpack _); vm_compute.
  - apply Hss. by apply (bool_decide_unpack _); vm_compute.
Qed.

(** C3, amended.  A resource id is [single_subnet] exactly when the member
    lists of the subnets of all zones name it once in all, and [single_az]
    exactly when the zones name it once in all and it is not
    [single_subnet]; [contained] is the union of the two.  When the lists
    of the graph stand for sets, this is: [single_subnet] exactly when
    exactly one subnet has it as a member, [single_az] exactly when
    exactly one zone lists it and it is not [single_subnet].  So a
    resource of exactly one zone and of two subnets is [single_az] and not
    [single_subnet]; and a resource of two zones is never [single_az],
    while it is [single_subnet] exactly when one subnet has it. *)
Theorem containment_classification (vpc : VPC) (x : string) :
  let c := containment_of vpc in
  (x ∈ single_subnet c ↔ occurrences x (all_subnet_members vpc) = 1)
  ∧ (x ∈ single_az c
     ↔ occurrences x (all_zone_services vpc) = 1 ∧ x ∉ single_subnet c)
  ∧ contained c = single_subnet c ∪ single_az c
  ∧ (set_like vpc →
     (x ∈ single_subnet c ↔ exactly_one (fun k => x ∈ members vpc k))
     ∧ (x ∈ single_az c
        ↔ exactly_one (fun z => x ∈ zone_services vpc z)
          ∧ x ∉ single_subnet c)
     ∧ (exactly_one (fun z => x ∈ zone_services vpc z) →
        (∃ k1 k2, k1 ≠ k2 ∧ x ∈ members vpc k1 ∧ x ∈ members vpc k2) →
        x ∈ single_az c ∧ x ∉ single_subnet c)
     ∧ ((∃ z1 z2, z1 ≠ z2 ∧ x ∈ zone_services vpc z1
                  ∧ x ∈ zone_services vpc z2) →
        x ∉ single_az c)).
Proof.
  intros c.
  destruct (containment_of_spec vpc x) as (Hss & Haz & Hc).
  fold c in Hss, Haz, Hc.
  split_and!; [done..|]. intros Hwf.
  rewrite (one_subnet_iff vpc x Hwf) in Hss.
  rewrite (one_zone_iff vpc x Hwf) in Haz.
  assert (Htwo : (∃ k1 k2, k1 ≠ k2 ∧ x ∈ members vpc k1 ∧ x ∈ members vpc k2) →
                 x ∉ single_subnet c).
  { intros (k1 & k2 & Hne & H1 & H2) (k & _ & Huniq)%Hss.
    apply Hne. by rewrite (Huniq k1 H1), (Huniq k2 H2). }
  split_and!; [done..| |].
  - intros Hzone Hsubnets. split; [|by apply Htwo].
    apply Haz. split; [done | by apply Htwo].
  - intros (z1 & z2 & Hne & H1 & H2) [(z & _ & Huniq) _]%Haz.
    apply Hne. by rewrite (Huniq z1 H1), (Huniq z2 H2).
Qed.

(** In the sample graph, the database is in one zone and two subnets, the
    instance in one zone and one subnet. *)
Lemma containment_classification_at_two_zones :
  set_like two_zone_vpc
  ∧ "db-1" ∈ single_az (containment_of two_zone_vpc)
  ∧ ("db-1" ∉ single_subnet (containment_of two_zone_vpc))
  ∧ exactly_one (fun k => "i-1" ∈ members two_zone_vpc k).
Proof.
  assert (Hwf : set_like two_zone_vpc)
    by (split_and!; by apply (bool_decide_unpack _); vm_compute).
  split; [exact Hwf|].
  destruct (containment_classification two_zone_vpc "db-1")
    as (_ & _ & _ & Hdb).
  destruct (Hdb Hwf) as (_ & _ & Hone & _).
  destruct (containment_classification two_zone_vpc "i-1")
    as (_ & _ & _ & Hi).
  destruct (Hi Hwf) as (Hsingle & _).
  assert (Hdb1 : "db-1" ∈ single_az (containment_of two_zone_vpc)
                 ∧ "db-1" ∉ single_subnet (containment_of two_zone_vpc)).
  { apply Hone.
    - exists "us-east-1a". split; [by apply (bool_decide_unpack _); vm_compute|].
      intros z Hz. unfold zone_services in Hz. simpl in Hz.
      destruct (String.eqb_spec z "us-east-1a") as [E|_]; [exact E|].
      destruct (String.eqb_spec z "us-east-1b") as [_|_].
      + by apply (bool_decide_pack _) in Hz; vm_compute in Hz.
      + by apply not_elem_of_nil in Hz.
    - exists "subnet-1", "subnet-2".
      split_and!; [discriminate
                  | by apply (bool_decide_unpack _); vm_compute..]. }
  split_and!; [apply Hdb1 | apply Hdb1 |].
  apply Hsingle. by apply (bool_decide_unpack _); vm_compute.
Defined.

(** ** Orders and [sorted] *)

Section SortedBy.
Context {A : Type} (ltb : A → A → bool).
Context (Hasym : ∀ a b, ltb a b = true → ltb b a = false).

Lemma insert_sorted_perm (x : A) (l : list A) :
  insert_sorted ltb x l ≡ₚ x :: l.
Proof.
  induction l as [|y l IH]; simpl; [done|].
  destruct (ltb y x); [|done]. rewrite IH. apply Permutation_swap.
Qed.

Lemma sorted_perm (l : list A) : sorted ltb l ≡ₚ l.
Proof.
  induction l as [|x l IH]; simpl; [done|].
  by rewrite insert_sorted_perm, IH.
Qed.

Lemma insert_sorted_Sorted (x : A) (l : list A) :
  Sorted (not_after ltb) l → Sorted (not_after ltb) (insert_sorted ltb x l).
Proof.
  induction 1 as [|y l Hl IH Hhd]; simpl; [by repeat constructor|].
  destruct (ltb y x) eqn:Hyx.
  - constructor; [done|].
    destruct l as [|z l]; simpl.
    + constructor. by apply Hasym.
    + inversion Hhd; subst. destruct (ltb z x); constructor;
        [done | by apply Hasym].
  - by repeat constructor.
Qed.

Lemma sorted_Sorted (l : list A) : Sorted (not_after ltb) (sorted ltb l).
Proof.
  induction l as [|x l IH]; simpl; [constructor|].
  by apply insert_sorted_Sorted.
Qed.

End SortedBy.

Section Orders.
Context {A : Type} (ltb : A → A → bool) (Hst : strict_total ltb).

Lemma st_asym (a b : A) : ltb a b = true → ltb b a = false.
Proof.
  intros Hab. destruct (ltb b a) eqn:Hba; [|done].
  by rewrite <-(st_irrefl _ Hst a), (st_trans _ Hst a b a Hab Hba).
Qed.

Lemma not_after_trans : Transitive (not_after ltb).
Proof.
  unfold not_after. intros a b c Hba Hcb.
  destruct (ltb c a) eqn:Hca; [|done].
  destruct (ltb a b) eqn:Hab.
  - by rewrite (st_trans _ Hst c a b Hca Hab) in Hcb.
  - rewrite (st_total _ Hst a b Hab Hba) in Hca. congruence.
Qed.

Lemma not_after_antisym (a b : A) :
  not_after ltb a b → not_after ltb b a → a = b.
Proof. unfold not_after. intros Hba Hab. by apply (st_total _ Hst). Qed.

Lemma lex_ltb_irrefl (l : list A) : lex_ltb ltb l l = false.
Proof.
  induction l as [|x l IH]; simpl; [done|].
  by rewrite (st_irrefl _ Hst).
Qed.

Lemma lex_ltb_total (l1 l2 : list A) :
  lex_ltb ltb l1 l2 = false → lex_ltb ltb l2 l1 = false → l1 = l2.
Proof.
  revert l2. induction l1 as [|x l1 IH]; intros [|y l2]; simpl; try done.
  destruct (ltb x y) eqn:Hxy; [done|].
  destruct (ltb y x) eqn:Hyx; [done|].
  intros H1 H2. rewrite (st_total _ Hst x y Hxy Hyx). f_equal. by apply IH.
Qed.

Lemma lex_ltb_trans (l1 l2 l3 : list A) :
  lex_ltb ltb l1 l2 = true → lex_ltb ltb l2 l3 = true →
  lex_ltb ltb l1 l3 = true.
Proof.
  revert l2 l3.
  induction l1 as [|x l1 IH]; intros [|y l2] [|z l3]; simpl; try done.
  destruct (ltb x y) eqn:Hxy.
  - intros _. destruct (ltb y z) eqn:Hyz.
    + intros _. by rewrite (st_trans _ Hst x y z Hxy Hyz).
    + destruct (ltb z y) eqn:Hzy; [done|]. intros _.
      rewrite <-(st_total _ Hst y z Hyz Hzy). by rewrite Hxy.
  - destruct (ltb y x) eqn:Hyx; [done|].
    rewrite <-(st_total _ Hst x y Hxy Hyx).
    destruct (ltb x z) eqn:Hxz; [done|].
    destruct (ltb z x) eqn:Hzx; [done|]. apply IH.
Qed.

Lemma lex_ltb_strict_total : strict_total (lex_ltb ltb).
Proof.
  split; [apply lex_ltb_irrefl | apply lex_ltb_trans | apply lex_ltb_total].
Qed.

(** The result of [sorted] does not depend on the order of its input. *)
Lemma sorted_unique (l1 l2 : list A) :
  l1 ≡ₚ l2 → sorted ltb l1 = sorted ltb l2.
Proof.
  intros Hperm.
  apply (Sorted_unique_strong (not_after ltb) (Transitive0 := not_after_trans)).
  - intros; by apply not_after_antisym.
  - apply sorted_Sorted, st_asym.
  - apply sorted_Sorted, st_asym.
  - by rewrite !sorted_perm.
Qed.

End Orders.

Section StringOrder.

Lemma N_ltb_strict_total : strict_total N.ltb.
Proof.
  split.
  - apply N.ltb_irrefl.
  - intros a b c. rewrite !N.ltb_lt. lia.
  - intros a b. rewrite !N.ltb_ge. lia.
Qed.

Lemma Z_ltb_strict_total : strict_total Z.ltb.
Proof.
  split.
  - apply Z.ltb_irrefl.
  - intros a b c. rewrite !Z.ltb_lt. lia.
  - intros a b. rewrite !Z.ltb_ge. lia.
Qed.

Lemma codes_inj (s1 s2 : string) : codes s1 = codes s2 → s1 = s2.
Proof.
  unfold codes, code. intros H.
  rewrite <-(string_of_list_ascii_of_string s1),
          <-(string_of_list_ascii_of_string s2).
  f_equal. revert H.
  generalize (list_ascii_of_string s1), (list_ascii_of_string s2).
  intros l1. induction l1 as [|c1 l1 IH]; intros [|c2 l2]; simpl; try done.
  intros [= Hc Hl]. f_equal; [|by apply IH].
  by rewrite <-(ascii_N_embedding c1), <-(ascii_N_embedding c2), Hc.
Qed.

Lemma str_ltb_strict_total : strict_total str_ltb.
Proof.
  pose proof (lex_ltb_strict_total N.ltb N_ltb_strict_total) as [Hi Ht Hto].
  unfold str_ltb. split.
  - intros s. apply Hi.
  - intros a b c. apply Ht.
  - intros a b H1 H2. apply codes_inj. by apply Hto.
Qed.

Lemma pair_ltb_strict_total : strict_total pair_ltb.
Proof.
  destruct str_ltb_strict_total as [Hi Ht Hto].
  pose proof (st_asym str_ltb str_ltb_strict_total) as Hasym.
  unfold pair_ltb. split.
  - intros [a b]. simpl. by rewrite !Hi.
  - intros [a1 a2] [b1 b2] [c1 c2]. simpl.
    destruct (str_ltb a1 b1) eqn:Hab.
    + intros _. destruct (str_ltb b1 c1) eqn:Hbc.
      * intros _. by rewrite (Ht a1 b1 c1 Hab Hbc).
      * destruct (str_ltb c1 b1) eqn:Hcb; [done|]. intros _.
        rewrite <-(Hto b1 c1 Hbc Hcb). by rewrite Hab.
    + destruct (str_ltb b1 a1) eqn:Hba; [done|].
      rewrite <-(Hto a1 b1 Hab Hba).
      destruct (str_ltb a1 c1) eqn:Hac; [done|].
      destruct (str_ltb c1 a1) eqn:Hca; [done|]. apply Ht.
  - intros [a1 a2] [b1 b2]. simpl.
    destruct (str_ltb a1 b1) eqn:Hab; [done|].
    destruct (str_ltb b1 a1) eqn:Hba; [done|].
    intros H1 H2. by rewrite (Hto a1 b1 Hab Hba), (Hto a2 b2 H1 H2).
Qed.

Lemma Relation_ltb_strict_total : strict_total Relation_ltb.
Proof.
  destruct pair_ltb_strict_total as [Hi Ht Hto].
  unfold Relation_ltb. split.
  - intros r. apply Hi.
  - intros a b c. apply Ht.
  - intros [a1 a2] [b1 b2] H1 H2. simpl in *.
    by injection (Hto _ _ H1 H2) as -> ->.
Qed.

End StringOrder.

(** ** The loops of [to_graphviz] *)

Section Loops.

Lemma bind_Ok {A B} (r : result A) (k : A → result B) (b : B) :
  r ≫= k = Ok b ↔ ∃ a, r = Ok a ∧ k a = Ok b.
Proof.
  destruct r as [a|e]; simpl.
  - split; [by exists a | by intros (? & [= ->] & ?)].
  - split; [done | by intros (? & ? & ?)].
Qed.

Lemma bind_Ok_l {A B} (a : A) (k : A → result B) : Ok a ≫= k = k a.
Proof. reflexivity. Qed.

Lemma foldM_cons {A S} (body : S → A → result S) (acc : S) (x : A)
    (l : list A) :
  foldM body acc (x :: l) = body acc x ≫= fun acc' => foldM body acc' l.
Proof. reflexivity. Qed.

Lemma mapM_cons_Ok {A B} (f : A → result B) (x : A) (l : list A)
    (ys : list B) :
  mapM f (x :: l) = Ok ys
  ↔ ∃ y ys', f x = Ok y ∧ mapM f l = Ok ys' ∧ ys = y :: ys'.
Proof.
  simpl. rewrite bind_Ok. setoid_rewrite bind_Ok. split.
  - intros (y & Hy & ys' & Hys & [= <-]). by exists y, ys'.
  - intros (y & ys' & Hy & Hys & ->). exists y. split; [done|]. by exists ys'.
Qed.

Lemma mapM_Forall2 {A B} (f : A → result B) (l : list A) (ys : list B) :
  mapM f l = Ok ys ↔ Forall2 (fun x y => f x = Ok y) l ys.
Proof.
  revert ys. induction l as [|x l IH]; intros ys.
  - simpl. split; [intros [= <-]; constructor | by inversion 1].
  - rewrite mapM_cons_Ok. split.
    + intros (y & ys' & Hy & Hys & ->). constructor; [done | by apply IH].
    + inversion 1 as [|? y ? ys' Hy Hys]; subst. exists y, ys'.
      split; [done|]. split; [by apply IH | done].
Qed.

Lemma mapM_ext_elem {A B} (f g : A → result B) (l : list A) :
  (∀ x, x ∈ l → f x = g x) → mapM f l = mapM g l.
Proof.
  induction l as [|x l IH]; intros H; simpl; [done|].
  rewrite (H x) by (by left). rewrite IH; [done|]. intros; apply H. by right.
Qed.

Lemma levels_eq : start_vpc = Some 2 ∧ end_top = Some 12 ∧ end_subnet = Some 14.
Proof. by vm_compute. Qed.

Lemma area_of_profile (connected contained : gset string)
    (v : ServiceInstance) (p : Profile) :
  profile v = Ok p →
  area (level (service_name v)) (p_id p) (service_name v) connected contained
  = Ok (area_of connected contained p).
Proof.
  unfold profile. rewrite bind_Ok. intros (nv & _ & H).
  apply bind_Ok in H as (i & _ & H).
  destruct (level (service_name v)) as [l|]; [|done]. injection H as <-.
  unfold area, area_of. destruct levels_eq as (-> & -> & _). simpl.
  destruct (l <? 2)%nat; [done|]. simpl.
  by repeat (match goal with |- context [if ?b then _ else _] =>
                 destruct b end; simpl).
Qed.

Lemma profile_inv (v : ServiceInstance) (p : Profile) :
  profile v = Ok p →
  p_service p = v ∧ node v = Ok (p_node p) ∧ Service.id v = Ok (p_id p)
  ∧ level (service_name v) = Some (p_level p).
Proof.
  unfold profile. rewrite bind_Ok. intros (nv & Hnv & H).
  apply bind_Ok in H as (i & Hi & H).
  destruct (level (service_name v)) as [l|]; [|done]. by injection H as <-.
Qed.

Lemma nodes_where_cons (keep : Profile → bool) (p : Profile)
    (ps : list Profile) :
  nodes_where keep (p :: ps)
  = (if keep p then [p_node p] else []) ++ nodes_where keep ps.
Proof. unfold nodes_where. simpl. by destruct (keep p). Qed.

Lemma ids_where_cons (keep : Profile → bool) (p : Profile)
    (ps : list Profile) :
  ids_where keep (p :: ps)
  = (if keep p then [p_id p] else []) ++ ids_where keep ps.
Proof. unfold ids_where. simpl. by destruct (keep p). Qed.

Lemma area_list_place (a : Area) (o : option Area) (nv : string) (r : Routed) :
  area_list a (place o nv r)
  = area_list a r ++ (if bool_decide (o = Some a) then [nv] else []).
Proof.
  destruct o as [[]|], a; simpl; by rewrite ?app_nil_r.
Qed.

Lemma enis_rtbs_place (o : option Area) (nv : string) (r : Routed) :
  enis (place o nv r) = enis r ∧ rtbs (place o nv r) = rtbs r.
Proof. by destruct o as [[]|]. Qed.

Lemma route_step_profile (connected contained : gset string) (r0 : Routed)
    (v : ServiceInstance) (p : Profile) :
  profile v = Ok p →
  ∃ r, route_step connected contained r0 v = Ok r
       ∧ (∀ a, area_list a r
               = area_list a r0
                 ++ (if in_area connected contained a p then [p_node p] else []))
       ∧ enis r = enis r0
                  ++ (if is_connected "ENI" connected p then [p_id p] else [])
       ∧ rtbs r = rtbs r0
                  ++ (if is_connected "RTB" connected p then [p_id p] else []).
Proof.
  intros Hp.
  pose proof (area_of_profile connected contained v p Hp) as Harea.
  destruct (profile_inv v p Hp) as (Hv & Hnode & Hid & Hlevel).
  unfold route_step.
  rewrite Hnode, bind_Ok_l, Hid, bind_Ok_l, Harea, !bind_Ok_l.
  eexists. split; [reflexivity|]. split; [|split].
  - intros a.
    transitivity (area_list a (place (area_of connected contained p)
                                     (p_node p) r0)); [by destruct a|].
    by rewrite area_list_place.
  - simpl. unfold is_connected.
    rewrite Hv, (proj1 (enis_rtbs_place _ _ _)).
    destruct (_ && _); [done | by rewrite app_nil_r].
  - simpl. unfold is_connected.
    rewrite Hv, (proj2 (enis_rtbs_place _ _ _)).
    destruct (_ && _); [done | by rewrite app_nil_r].
Qed.

(** The routing loop, given the profiles of the services. *)
Lemma route_spec (connected contained : gset string)
    (svcs : list ServiceInstance) (ps : list Profile) (r0 : Routed) :
  mapM profile svcs = Ok ps →
  ∃ r, foldM (route_step connected contained) r0 svcs = Ok r
       ∧ (∀ a, area_list a r
               = area_list a r0
                 ++ nodes_where (in_area connected contained a) ps)
       ∧ enis r = enis r0 ++ ids_where (is_connected "ENI" connected) ps
       ∧ rtbs r = rtbs r0 ++ ids_where (is_connected "RTB" connected) ps.
Proof.
  revert ps r0. induction svcs as [|v svcs IH]; intros ps r0.
  - intros [= <-]. exists r0. simpl.
    split; [done|]. split; [intros; by rewrite app_nil_r|].
    by rewrite !app_nil_r.
  - rewrite mapM_cons_Ok. intros (p & ps' & Hp & Hps & ->).
    destruct (route_step_profile connected contained r0 v p Hp)
      as (r1 & Hstep & Hareas1 & Henis1 & Hrtbs1).
    destruct (IH ps' r1 Hps) as (r & Hr & Hareas & Henis & Hrtbs).
    exists r. rewrite foldM_cons, Hstep, bind_Ok_l.
    split; [exact Hr|]. split; [|split].
    + intros a. by rewrite Hareas, Hareas1, nodes_where_cons, app_assoc.
    + by rewrite Henis, Henis1, ids_where_cons, app_assoc.
    + by rewrite Hrtbs, Hrtbs1, ids_where_cons, app_assoc.
Qed.

(** A routing loop that ends has found a profile for every service. *)
Lemma route_profiles (connected contained : gset string)
    (svcs : list ServiceInstance) (r0 r : Routed) :
  foldM (route_step connected contained) r0 svcs = Ok r →
  ∃ ps, mapM profile svcs = Ok ps.
Proof.
  revert r0. induction svcs as [|v svcs IH]; intros r0; simpl.
  - by exists [].
  - rewrite bind_Ok. intros (r1 & Hstep & Hrest).
    destruct (IH r1 Hrest) as (ps & Hps).
    unfold route_step in Hstep.
    apply bind_Ok in Hstep as (nv & Hnv & Hstep).
    apply bind_Ok in Hstep as (i & Hi & Hstep).
    apply bind_Ok in Hstep as (a & Ha & _).
    assert (∃ l, level (service_name v) = Some l) as [l Hl].
    { unfold area in Ha.
      destruct (level (service_name v)) as [l|]; [by exists l | done]. }
    exists ({| p_service := v; p_node := nv; p_id := i; p_level := l |} :: ps).
    apply mapM_cons_Ok. eexists _, ps. split; [|done].
    unfold profile. by rewrite Hnv, Hi, Hl.
Qed.

Lemma az_step_profile (availzone : AvailabilityZone) (single_az : gset string)
    (acc : list string * list string) (v : ServiceInstance) (p : Profile) :
  profile v = Ok p →
  az_step availzone single_az acc v
  = Ok (acc.1 ++ (if in_zone_top availzone single_az p then [p_node p] else []),
        acc.2 ++ (if in_zone_bottom availzone single_az p
                  then [p_node p] else [])).
Proof.
  intros Hp. destruct (profile_inv v p Hp) as (Hv & Hnode & Hid & Hlevel).
  unfold az_step.
  rewrite Hnode, bind_Ok_l, Hid, bind_Ok_l, Hlevel.
  destruct levels_eq as (_ & -> & ->). simpl.
  unfold in_zone_top, in_zone_bottom.
  destruct (_ <? 12)%nat, (14 <? _)%nat, (str_in _ _ && _); simpl;
    by rewrite ?app_nil_r.
Qed.

(** The loop over the services of one zone, given the profiles. *)
Lemma az_spec (availzone : AvailabilityZone) (single_az : gset string)
    (svcs : list ServiceInstance) (ps : list Profile)
    (acc : list string * list string) :
  mapM profile svcs = Ok ps →
  foldM (az_step availzone single_az) acc svcs
  = Ok (acc.1 ++ nodes_where (in_zone_top availzone single_az) ps,
        acc.2 ++ nodes_where (in_zone_bottom availzone single_az) ps).
Proof.
  revert ps acc. induction svcs as [|v svcs IH]; intros ps acc.
  - intros [= <-]. simpl. rewrite !app_nil_r. by destruct acc.
  - rewrite mapM_cons_Ok. intros (p & ps' & Hp & Hps & ->).
    rewrite foldM_cons, (az_step_profile _ _ _ v p Hp), bind_Ok_l.
    rewrite (IH ps' _ Hps). simpl.
    by rewrite !nodes_where_cons, !app_assoc.
Qed.

End Loops.

Section Clusters.

Lemma foldSM_cons {A S W} (body : W → S → A → W * result S) (w : W) (acc : S)
    (x : A) (l : list A) :
  foldSM body w acc (x :: l)
  = match body w acc x with
    | (w', Ok acc') => foldSM body w' acc' l
    | (w', Raise e) => (w', Raise e)
    end.
Proof. reflexivity. Qed.

Lemma subnet_step_Ok (connected single_subnet : gset string) (v0 v v' : VPC)
    (acc acc' : nat * list GVSN) (o : option ServiceInstance) :
  vivified v0 v →
  subnet_step connected single_subnet v acc o = (v', Ok acc') →
  vivified v0 v'
  ∧ ∃ sn, acc' = (S acc.1, acc.2 ++ [sn])
          ∧ rendered_subnet connected single_subnet v0 o sn.
Proof.
  intros Hv. unfold subnet_step. destruct o as [s|]; [|done].
  destruct (subnet_label s) as [label|] eqn:Hlabel; [|done].
  destruct (Service.id s) as [i|] eqn:Hid; [|done]. simpl.
  pose proof (subnets_getitem_vivified v i) as Hviv.
  pose proof (subnets_getitem_members v i) as Hmem.
  destruct (subnets_getitem v i) as [v1 ms]. simpl in Hviv, Hmem. subst ms.
  assert (Hv1 : vivified v0 v1) by (by eapply vivified_trans).
  assert (Hinside :
    map (getitem v1)
        (filter (fun x => x ∈ connected ∧ x ∈ single_subnet) (members v i))
    = map (getitem v0) (inside_ids connected single_subnet v0 i)).
  { unfold inside_ids. rewrite (vivified_members v0 v i Hv).
    apply map_ext. intros k. by apply vivified_getitem. }
  rewrite Hinside.
  destruct (sorted_key pair_ltb inside_key _) as [xs|] eqn:Hxs; [|done].
  rewrite bind_Ok_l.
  destruct (mapM node_opt xs) as [svcs|] eqn:Hsvcs; [|done].
  rewrite bind_Ok_l. intros [= <- <-]. split; [done|].
  eexists. split; [reflexivity|]. exists s, xs. by simpl.
Qed.

Lemma subnets_loop_Ok (connected single_subnet : gset string) (v0 : VPC)
    (ordered : list (option ServiceInstance)) (v v' : VPC)
    (acc acc' : nat * list GVSN) :
  vivified v0 v →
  foldSM (subnet_step connected single_subnet) v acc ordered = (v', Ok acc') →
  vivified v0 v'
  ∧ ∃ new, acc'.2 = acc.2 ++ new
           ∧ Forall2 (rendered_subnet connected single_subnet v0) ordered new.
Proof.
  revert v acc. induction ordered as [|o ordered IH]; intros v acc Hv.
  - simpl. intros [= <- <-]. split; [done|]. exists []. by rewrite app_nil_r.
  - rewrite foldSM_cons.
    destruct (subnet_step connected single_subnet v acc o) as [v1 [acc1|e]]
      eqn:Hstep; [|done].
    destruct (subnet_step_Ok _ _ v0 v v1 acc acc1 o Hv Hstep)
      as (Hv1 & sn & -> & Hsn).
    intros Hrest. destruct (IH _ _ Hv1 Hrest) as (Hv' & new & Hnew & Hall).
    split; [done|]. exists (sn :: new). simpl in Hnew.
    split; [by rewrite Hnew, <-app_assoc | by constructor].
Qed.

Lemma zone_step_Ok (connected : gset string) (c : Containment)
    (ps : list Profile) (v0 v v' : VPC) (acc acc' : nat * nat * list GVAZ)
    (item : string * AvailabilityZone) :
  vivified v0 v →
  mapM profile (services v0) = Ok ps →
  zone_step connected c v acc item = (v', Ok acc') →
  vivified v0 v'
  ∧ ∃ az, acc'.2 = acc.2 ++ [az] ∧ rendered_zone connected c v0 ps item az.
Proof.
  intros Hv Hps. unfold zone_step.
  destruct acc as [[az_i sn_i] azs], item as [azk availzone].
  rewrite (vivified_services v0 v Hv), (az_spec _ _ _ ps _ Hps). simpl.
  assert (map (getitem v) (subnet_ids availzone)
          = map (getitem v0) (subnet_ids availzone)) as ->.
  { apply map_ext. intros k. by apply vivified_getitem. }
  destruct (sorted_key (lex_ltb Z.ltb) cidr_sort _) as [ordered|] eqn:Hord;
    [|done].
  destruct (foldSM _ v (sn_i, []) ordered) as [v1 [[sn_i' sns]|e]] eqn:Hloop;
    [|done].
  destruct (subnets_loop_Ok _ _ v0 ordered v v1 _ _ Hv Hloop)
    as (Hv1 & new & Hnew & Hall).
  simpl in Hnew. subst sns. simpl. intros [= <- <-]. split; [done|].
  eexists. split; [reflexivity|]. split_and!; [done..|].
  exists ordered. by simpl.
Qed.

Lemma zones_loop_Ok (connected : gset string) (c : Containment)
    (ps : list Profile) (v0 : VPC) (items : list (string * AvailabilityZone))
    (v v' : VPC) (acc acc' : nat * nat * list GVAZ) :
  vivified v0 v →
  mapM profile (services v0) = Ok ps →
  foldSM (zone_step connected c) v acc items = (v', Ok acc') →
  ∃ new, acc'.2 = acc.2 ++ new
         ∧ Forall2 (rendered_zone connected c v0 ps) items new.
Proof.
  intros Hv Hps. revert v acc Hv.
  induction items as [|item items IH]; intros v acc Hv.
  - simpl. intros [= <- <-]. exists []. by rewrite app_nil_r.
  - rewrite foldSM_cons.
    destruct (zone_step connected c v acc item) as [v1 [acc1|e]] eqn:Hstep;
      [|done].
    destruct (zone_step_Ok _ _ ps v0 v v1 acc acc1 item Hv Hps Hstep)
      as (Hv1 & az & Haz & Hzone).
    intros Hrest. destruct (IH _ _ Hv1 Hrest) as (new & Hnew & Hall).
    exists (az :: new).
    split; [by rewrite Hnew, Haz, <-app_assoc | by constructor].
Qed.

Lemma zones_Ok (connected : gset string) (c : Containment)
    (ps : list Profile) (v0 v v' : VPC) (azs : list GVAZ) :
  vivified v0 v →
  mapM profile (services v0) = Ok ps →
  zones connected c v = (v', Ok azs) →
  Forall2 (rendered_zone connected c v0 ps)
          (sorted (fun p q => str_ltb p.1 q.1) (Vpc.azs v0)) azs.
Proof.
  intros Hv Hps. unfold zones.
  destruct (foldSM _ v (0, 0, []) _) as [v1 [[[az_i sn_i] azs']|e]] eqn:Hloop;
    [|done].
  simpl. intros [= <- <-].
  pose proof Hv as (_ & _ & _ & _ & _ & Hazs & _). rewrite Hazs in Hloop.
  destruct (zones_loop_Ok _ _ ps v0 _ v v1 _ _ Hv Hps Hloop)
    as (new & Hnew & Hall).
  simpl in Hnew. by subst azs'.
Qed.

Lemma edge_vivified (v v' : VPC) (s t : option ServiceInstance) :
  vivified v v' → edge s t v' = edge s t v.
Proof.
  intros (_ & _ & _ & _ & Hrel & _). unfold edge, edge_attrs.
  by rewrite Hrel.
Qed.

Lemma relation_edges_vivified (it : list Relation) (v v' : VPC) :
  vivified v v' → relation_edges it v' = relation_edges it v.
Proof.
  intros Hv. unfold relation_edges.
  assert (filter (fun x => contains v' (source x) && contains v' (target x))
                 (sorted Relation_ltb it)
          = filter (fun x => contains v (source x) && contains v (target x))
                   (sorted Relation_ltb it)) as ->.
  { apply list_filter_iff. intros x.
    by rewrite !(vivified_contains v v' _ Hv). }
  apply mapM_ext_elem. intros x _.
  by rewrite (edge_vivified v v' _ _ Hv), !(vivified_getitem v v' _ Hv).
Qed.

Lemma synthesized_edges_vivified (enis rtbs : list string) (v v' : VPC) :
  vivified v v' → synthesized_edges enis rtbs v' = synthesized_edges enis rtbs v.
Proof.
  intros Hv. unfold synthesized_edges.
  apply mapM_ext_elem. intros x _.
  by rewrite (edge_vivified v v' _ _ Hv), !(vivified_getitem v v' _ Hv).
Qed.

Lemma edges_of_vivified (it : list Relation) (r : Routed) (v v' : VPC) :
  vivified v v' → edges_of it r v' = edges_of it r v.
Proof.
  intros Hv. unfold edges_of.
  by rewrite (relation_edges_vivified it v v' Hv),
             (synthesized_edges_vivified _ _ v v' Hv).
Qed.

End Clusters.

(** A rendering that ends with a text, taken apart. *)
Lemma layout_Ok (it : list Relation) (vpc vpc' : VPC) (ctx : Context) :
  layout it vpc = (vpc', Ok ctx) →
  let c := containment_of vpc in
  ∃ connected ps r,
    connected_set it vpc = Ok connected
    ∧ mapM profile (services vpc) = Ok ps
    ∧ (∀ a, area_list a r = nodes_where (in_area connected (contained c) a) ps)
    ∧ enis r = ids_where (is_connected "ENI" connected) ps
    ∧ rtbs r = ids_where (is_connected "RTB" connected) ps
    ∧ (∀ a, area_list a r
            = match a with
              | Route53 => ctx_route53_services ctx
              | Top => ctx_top_services ctx
              | Bottom => ctx_bottom_services ctx
              | Nw => ctx_nw_services ctx
              end)
    ∧ Forall2 (rendered_zone connected c vpc ps)
              (sorted (fun p q => str_ltb p.1 q.1) (azs vpc)) (ctx_azs ctx)
    ∧ edges_of it r vpc = Ok (ctx_edges ctx).
Proof.
  unfold layout, containment_of.
  destruct (connected_set it vpc) as [connected|] eqn:Hconn; [|done].
  pose proof (tally_vivified vpc) as Hv1.
  destruct (tally vpc) as [v1 [az_tally sn_tally]]. cbn [fst snd] in *.
  set (c := containment az_tally sn_tally).
  destruct (route connected (contained c) v1) as [r|] eqn:Hroute; [|done].
  unfold route in Hroute. rewrite (vivified_services vpc v1 Hv1) in Hroute.
  destruct (route_profiles _ _ _ _ _ Hroute) as (ps & Hps).
  destruct (route_spec connected (contained c) _ ps no_services Hps)
    as (r' & Hr' & Hareas & Henis & Hrtbs).
  rewrite Hroute in Hr'. injection Hr' as <-.
  pose proof (zones_vivified connected c v1) as Hv2.
  destruct (zones connected c v1) as [v2 azs] eqn:Hzones. simpl in Hv2.
  intros [= <- Hctx].
  apply bind_Ok in Hctx as (azs' & -> & Hctx).
  apply bind_Ok in Hctx as (edges & Hedges & Hctx).
  apply bind_Ok in Hctx as (vn & Hvn & [= <-]).
  exists connected, ps, r. cbn [ctx_route53_services ctx_top_services
    ctx_bottom_services ctx_nw_services ctx_azs ctx_edges].
  split_and!; [done | done | by intros []; rewrite Hareas
               | exact Henis | exact Hrtbs | by intros [] | |].
  - by eapply zones_Ok.
  - by rewrite <-(edges_of_vivified it r vpc v2)
      by (by eapply vivified_trans).
Qed.

(** ** Determinism and order of the output *)

Section Determinism.

Lemma key_order_asym {K V} (ltb : K → K → bool) :
  (∀ a b, ltb a b = true → ltb b a = false) →
  ∀ p q : K * V, ltb p.1 q.1 = true → ltb q.1 p.1 = false.
Proof. intros H p q. apply H. Qed.

(** [sorted(l, key=f)]: a rearrangement of [l] whose keys ascend. *)
Lemma sorted_key_spec {A K} (ltb : K → K → bool) (key : A → result K)
    (l l' : list A) :
  (∀ a b, ltb a b = true → ltb b a = false) →
  sorted_key ltb key l = Ok l' →
  ∃ keys, l' ≡ₚ l ∧ mapM key l' = Ok keys ∧ Sorted (not_after ltb) keys.
Proof.
  intros Hasym. unfold sorted_key. rewrite bind_Ok.
  intros (kl & Hkl & [= <-]).
  set (cmp := fun p q : K * A => ltb p.1 q.1).
  assert (Hkeys : Forall (fun kx => key kx.2 = Ok kx.1) kl).
  { apply mapM_Forall2 in Hkl. clear -Hkl.
    induction Hkl as [|x kx l kl Hx _ IH]; constructor; [|done].
    apply bind_Ok in Hx as (k & Hk & [= <-]). done. }
  assert (Hl : map snd kl = l).
  { apply mapM_Forall2 in Hkl. clear -Hkl.
    induction Hkl as [|x kx l kl Hx _ IH]; simpl; [done|].
    apply bind_Ok in Hx as (k & Hk & [= <-]). by rewrite IH. }
  exists (map fst (sorted cmp kl)). split_and!.
  - rewrite <-Hl. apply Permutation_map, sorted_perm.
  - apply mapM_Forall2, Forall2_fmap, Forall_Forall2_diag.
    by rewrite (sorted_perm cmp kl).
  - apply (Sorted_fmap _ (not_after cmp)); [done|].
    apply sorted_Sorted. by apply key_order_asym.
Qed.

Lemma connected_set_perm (it1 it2 : list Relation) (vpc : VPC) :
  it1 ≡ₚ it2 → connected_set it1 vpc = connected_set it2 vpc.
Proof.
  intros H. unfold connected_set. f_equal.
  apply list_to_set_perm_L. by rewrite H.
Qed.

Lemma edges_of_perm (it1 it2 : list Relation) (r : Routed) (vpc : VPC) :
  it1 ≡ₚ it2 → edges_of it1 r vpc = edges_of it2 r vpc.
Proof.
  intros H. unfold edges_of, relation_edges.
  by rewrite (sorted_unique _ Relation_ltb_strict_total it1 it2 H).
Qed.

Lemma layout_perm (it1 it2 : list Relation) (vpc : VPC) :
  it1 ≡ₚ it2 → layout it1 vpc = layout it2 vpc.
Proof.
  intros H. unfold layout. rewrite (connected_set_perm it1 it2 vpc H).
  destruct (connected_set it2 vpc) as [connected|]; [|done].
  destruct (tally vpc) as [v1 [az_tally sn_tally]].
  destruct (route _ _ v1) as [r|]; [|done].
  destruct (zones _ _ v1) as [v2 azs].
  by rewrite (edges_of_perm it1 it2 r v2 H).
Qed.

Lemma edges_of_Sorted (it : list Relation) (r : Routed) (vpc : VPC)
    (edges : list string) :
  edges_of it r vpc = Ok edges → Sorted (not_after str_ltb) edges.
Proof.
  unfold edges_of. rewrite bind_Ok. intros (raw & _ & H).
  apply bind_Ok in H as (more & _ & [= <-]).
  apply sorted_Sorted, st_asym, str_ltb_strict_total.
Qed.

Lemma rendered_zone_by_cidr connected c (vpc : VPC) (ps : list Profile)
    (item : string * AvailabilityZone) (az : GVAZ) :
  rendered_zone connected c vpc ps item az → subnets_by_cidr vpc item az.
Proof.
  intros (_ & _ & _ & ordered & Hord & Hall).
  destruct (sorted_key_spec (lex_ltb Z.ltb) cidr_sort _ _
              (st_asym _ (lex_ltb_strict_total _ Z_ltb_strict_total)) Hord)
    as (keys & Hperm & Hkeys & Hsorted).
  exists ordered, keys. split_and!; [done..|].
  eapply Forall2_impl; [exact Hall|].
  intros o sn (s & xs & -> & Hid & Hlabel & _). by exists s.
Qed.

(** Any list without repetition that holds the elements of a set is an
    order in which the set can be enumerated. *)
Lemma enumeration_perm (s : gset Relation) (it : list Relation) :
  NoDup it → (∀ x, x ∈ it ↔ x ∈ s) → it ≡ₚ elements s.
Proof.
  intros Hnodup Hin. apply NoDup_Permutation; [done | apply NoDup_elements|].
  intros x. by rewrite elem_of_elements.
Qed.

End Determinism.



(** ** The synthesized interface/route-table edges *)

Section Synthesized.

Lemma connected_step_grows (c c' : gset string) (v : ServiceInstance) :
  connected_step c v = Ok c' → c ⊆ c'.
Proof.
  unfold connected_step. rewrite bind_Ok. intros (c1 & H1 & H2).
  assert (c ⊆ c1).
  { destruct (_ || _); [|by injection H1 as <-].
    apply bind_Ok in H1 as (i & _ & [= <-]). set_solver. }
  assert (c1 ⊆ c'); [|set_solver].
  destruct (String.eqb _ _); [|by injection H2 as <-].
  apply bind_Ok in H2 as (i & _ & [= <-]). set_solver.
Qed.

Lemma connected_loop_grows (svcs : list ServiceInstance) (c c' : gset string) :
  foldM connected_step c svcs = Ok c' → c ⊆ c'.
Proof.
  revert c. induction svcs as [|v svcs IH]; intros c.
  - by intros [= <-].
  - rewrite foldM_cons, bind_Ok. intros (c1 & H1 & H2).
    apply connected_step_grows in H1. apply IH in H2. set_solver.
Qed.

Lemma referenced_connected (it : list Relation) (vpc : VPC)
    (connected : gset string) (x : string) :
  it ≡ₚ elements (relations vpc) →
  connected_set it vpc = Ok connected →
  referenced vpc x → x ∈ connected.
Proof.
  intros Hit Hc (rel & Hrel & Hx).
  apply connected_loop_grows in Hc. apply Hc.
  assert (Hin : rel ∈ it) by (by rewrite Hit, elem_of_elements).
  rewrite elem_of_list_to_set, elem_of_app, !list_elem_of_fmap.
  destruct Hx as [<-|<-]; [left | right]; by exists rel.
Qed.

(** The ids that the routing loop collects are keys of the resource map,
    each at most once, when the selected resources are stored under
    their ids. *)
Lemma ids_where_sublist (keep : Profile → bool)
    (entries : list (string * ServiceInstance)) (ps : list Profile) :
  Forall2 (fun kv p => profile kv.2 = Ok p) entries ps →
  Forall (fun kv => ∀ p, profile kv.2 = Ok p → keep p = true → p_id p = kv.1)
         entries →
  ids_where keep ps `sublist_of` entries.*1.
Proof.
  induction 1 as [|kv p entries ps Hp _ IH]; intros Hkeys.
  - constructor.
  - apply Forall_cons in Hkeys as [Hkey Hkeys].
    rewrite ids_where_cons. simpl. destruct (keep p) eqn:Hkeep; simpl.
    + rewrite (Hkey p Hp Hkeep). by apply sublist_skip, IH.
    + by apply sublist_cons, IH.
Qed.

Lemma occurrences_map_pair {A B} `{EqDecision A, EqDecision B}
    (a x : A) (b : B) (l : list B) :
  occurrences (a, b) (map (pair x) l)
  = (if decide (a = x) then 1 else 0) * occurrences b l.
Proof.
  induction l as [|y l IH]; simpl; [by rewrite Nat.mul_0_r|].
  rewrite !occurrences_cons, IH.
  destruct (decide (a = x)) as [->|Hne].
  - destruct (decide (b = y)) as [->|Hne'].
    + rewrite decide_True by done. lia.
    + rewrite decide_False by congruence. lia.
  - rewrite decide_False by congruence. lia.
Qed.

Lemma occurrences_product {A B} `{EqDecision A, EqDecision B}
    (a : A) (b : B) (l1 : list A) (l2 : list B) :
  occurrences (a, b) (product l1 l2) = occurrences a l1 * occurrences b l2.
Proof.
  unfold product.
  induction l1 as [|x l1 IH]; simpl; [done|].
  rewrite occurrences_app, occurrences_cons, IH, occurrences_map_pair. lia.
Qed.

Lemma occurrences_filter {A} `{EqDecision A} (P : A → Prop)
    `{∀ x, Decision (P x)} (x : A) (l : list A) :
  occurrences x (filter P l) = if decide (P x) then occurrences x l else 0.
Proof.
  induction l as [|y l IH]; simpl.
  - by destruct (decide (P x)).
  - rewrite filter_cons. destruct (decide (P y)) as [Hy|Hy].
    + rewrite !occurrences_cons, IH. destruct (decide (P x)); [done|].
      by rewrite decide_False by (by intros ->).
    + rewrite IH, occurrences_cons. destruct (decide (P x)); [|done].
      by rewrite decide_False by (by intros ->).
Qed.

Lemma occurrences_elements (rel : Relation) (s : gset Relation) :
  occurrences rel (elements s) = if bool_decide (rel ∈ s) then 1 else 0.
Proof.
  case_bool_decide as Hin.
  - apply occurrences_NoDup; [apply NoDup_elements | by apply elem_of_elements].
  - apply occurrences_zero. by rewrite elem_of_elements.
Qed.

(** The attributes of an edge from an interface to a route table. *)
Lemma edge_attrs_ENI_RTB (ve vr : ServiceInstance) (vpc : VPC) (e r : string) :
  service_name ve = "ENI" → service_name vr = "RTB" →
  Service.id ve = Ok e → Service.id vr = Ok r →
  edge_attrs ve vr vpc
  = Ok (if bool_decide (mkRelation e r ∈ relations vpc)
        then plain ve else alignment ve).
Proof.
  intros Hve Hvr He Hr. unfold edge_attrs, plain, alignment.
  rewrite Hve, Hvr, He, Hr. simpl. rewrite andb_false_r.
  by case_bool_decide.
Qed.

Lemma elem_of_mapM {A B} (f : A → result B) (l : list A) (ys : list B)
    (x : A) (y : B) :
  mapM f l = Ok ys → x ∈ l → f x = Ok y → y ∈ ys.
Proof.
  rewrite mapM_Forall2. intros Hall Hx Hy.
  induction Hall as [|x' y' l ys Hxy _ IH]; [by apply not_elem_of_nil in Hx|].
  apply elem_of_cons in Hx as [->|Hx].
  - rewrite Hy in Hxy. injection Hxy as <-. by left.
  - right. by apply IH.
Qed.

End Synthesized.

Section Pairs.

Lemma Forall2_elem_l {A B} (R : A → B → Prop) (l : list A) (k : list B) (x : A) :
  Forall2 R l k → x ∈ l → ∃ y, y ∈ k ∧ R x y.
Proof.
  induction 1 as [|x' y l k Hxy _ IH]; [by intros ?%not_elem_of_nil|].
  intros [->|Hx]%elem_of_cons.
  - exists y. split; [by left | done].
  - destruct (IH Hx) as (y' & ? & ?). exists y'. split; [by right | done].
Qed.

Lemma profiles_of_entries (vpc : VPC) (ps : list Profile) :
  mapM profile (services vpc) = Ok ps →
  Forall2 (fun kv p => profile kv.2 = Ok p) (_services vpc) ps.
Proof.
  unfold services. rewrite mapM_Forall2. by rewrite Forall2_fmap_l.
Qed.

Lemma occurrences_pos {A} `{EqDecision A} (x : A) (l : list A) :
  x ∈ l ↔ 1 ≤ occurrences x l.
Proof.
  destruct (decide (x ∈ l)) as [Hin|Hout].
  - split; [|done]. intros _.
    destruct (occurrences x l) eqn:E; [|lia]. by apply occurrences_zero in E.
  - apply occurrences_zero in Hout as E. rewrite E. split; [done | lia].
Qed.

(** The collected ids of the connected resources of one type: a resource
    of that type that is stored under its id and is connected is there
    exactly once. *)
Lemma collected_once (vpc : VPC) (ps : list Profile) (connected : gset string)
    (name k : string) (v : ServiceInstance) :
  NoDup (_services vpc).*1 →
  Forall (fun kv => service_name kv.2 = name → Service.id kv.2 = Ok kv.1)
         (_services vpc) →
  mapM profile (services vpc) = Ok ps →
  (k, v) ∈ _services vpc → service_name v = name → k ∈ connected →
  occurrences k (ids_where (is_connected name connected) ps) = 1.
Proof.
  intros Hkeys Hids Hps Hin Hname Hconn.
  apply profiles_of_entries in Hps.
  apply occurrences_NoDup.
  - apply (sublist_NoDup _ (_services vpc).*1); [exact Hkeys|].
    apply ids_where_sublist; [exact Hps|].
    rewrite Forall_forall in Hids |- *. intros kv Hkv p Hp Hkeep.
    destruct (profile_inv _ _ Hp) as (Hsvc & _ & Hid & _).
    unfold is_connected in Hkeep. rewrite Hsvc in Hkeep.
    apply andb_true_iff in Hkeep as [Hn%String.eqb_eq _].
    rewrite (Hids kv Hkv Hn) in Hid. by injection Hid.
  - destruct (Forall2_elem_l _ _ _ _ Hps Hin) as (p & Hp & Hprof).
    simpl in Hprof. destruct (profile_inv _ _ Hprof) as (Hsvc & _ & Hid & _).
    rewrite Forall_forall in Hids. specialize (Hids _ Hin Hname). simpl in Hids.
    rewrite Hids in Hid. injection Hid as Hid.
    unfold ids_where. apply list_elem_of_fmap. exists p. split; [done|].
    apply list_elem_of_In, filter_In. split; [by apply list_elem_of_In|].
    unfold is_connected. rewrite Hsvc, Hname, String.eqb_refl, <-Hid.
    by rewrite bool_decide_eq_true_2.
Qed.

End Pairs.

(** C1, as stated, fails: with a relation from the interface to the route
    table, the output has two edge statements for the one pair, the
    relation's own and the synthesized one. *)
Lemma explicit_route_rendered_twice :
  ∃ ctx,
    (layout (elements (relations explicit_route_vpc)) explicit_route_vpc).2
    = Ok ctx
    ∧ ctx_edges ctx
      = [ edge_statement "eni-1" "rtb-1" (plain eni_1);
          edge_statement "eni-1" "rtb-1" (plain eni_1);
          edge_statement "i-1" "eni-1" (plain ec2_1);
          edge_statement "i-1" "sg-1" (hidden ec2_1);
          edge_statement "rtb-1" "eni-1" (hidden rtb_1) ]
    ∧ occurrences (edge_statement "eni-1" "rtb-1" (plain eni_1))
                  (ctx_edges ctx) = 2.
Proof.
  eexists. split; [by vm_compute|]. split; by vm_compute.
Qed.

(** C1, amended.  Let the interfaces and route tables be stored under
    their ids, and let the rendering end with a text.  For every interface
    and route table that are in the resource map and are both ends of
    some relation, the cross product has the pair exactly once, so that
    exactly one edge statement is synthesized for it.  That statement
    carries the colour only if the relation from the interface to the
    route table is in the relation set, and [weight="10"] and
    [style="invis"] besides if it is not.  In the first case the relation
    itself is rendered too, with the same statement, and the output has
    the statement twice. *)
Theorem synthesized_edge_per_pair (it : list Relation) (vpc vpc' : VPC)
    (ctx : Context) (e r : string) (ve vr : ServiceInstance) :
  it ≡ₚ elements (relations vpc) →
  NoDup (_services vpc).*1 →
  Forall (fun kv => service_name kv.2 = "ENI" ∨ service_name kv.2 = "RTB" →
                    Service.id kv.2 = Ok kv.1) (_services vpc) →
  layout it vpc = (vpc', Ok ctx) →
  (e, ve) ∈ _services vpc → service_name ve = "ENI" →
  (r, vr) ∈ _services vpc → service_name vr = "RTB" →
  referenced vpc e → referenced vpc r →
  let explicit := bool_decide (mkRelation e r ∈ relations vpc) in
  let stmt :=
    edge_statement e r (if explicit then plain ve else alignment ve) in
  ∃ enis rtbs raw more,
    relation_edges it vpc = Ok raw
    ∧ synthesized_edges enis rtbs vpc = Ok more
    ∧ ctx_edges ctx = sorted_edges (raw ++ more)
    ∧ occurrences (e, r) (product enis rtbs) = 1
    ∧ occurrences (mkRelation e r) (resolved it vpc)
      = (if explicit then 1 else 0)
    ∧ edge (getitem vpc e) (getitem vpc r) vpc = Ok (Some stmt)
    ∧ Some stmt ∈ more
    ∧ stmt ∈ ctx_edges ctx
    ∧ (explicit = true →
       Some stmt ∈ raw ∧ 2 ≤ occurrences stmt (ctx_edges ctx)).
Proof.
  intros Hit Hkeys Hids Hlayout He Hename Hr Hrname Heref Hrref explicit stmt.
  destruct (layout_Ok it vpc vpc' ctx Hlayout)
    as (connected & ps & rt & Hconn & Hps & _ & Henis & Hrtbs & _ & _ & Hedges).
  unfold edges_of in Hedges.
  apply bind_Ok in Hedges as (raw & Hraw & Hedges).
  apply bind_Ok in Hedges as (more & Hmore & [= Hctx]).
  exists (enis rt), (rtbs rt), raw, more.
  assert (Hpair : occurrences (e, r) (product (enis rt) (rtbs rt)) = 1).
  { rewrite occurrences_product, Henis, Hrtbs.
    rewrite (collected_once vpc ps connected "ENI" e ve),
            (collected_once vpc ps connected "RTB" r vr); try done.
    - eapply Forall_impl; [exact Hids|]. intros kv H ?. apply H. by right.
    - by eapply referenced_connected.
    - eapply Forall_impl; [exact Hids|]. intros kv H ?. apply H. by left.
    - by eapply referenced_connected. }
  assert (Heid : Service.id ve = Ok e).
  { rewrite Forall_forall in Hids. apply (Hids _ He). by left. }
  assert (Hrid : Service.id vr = Ok r).
  { rewrite Forall_forall in Hids. apply (Hids _ Hr). by right. }
  assert (Hedge : edge (Some ve) (Some vr) vpc = Ok (Some stmt)).
  { apply edge_of_attrs; [by rewrite Hename | done | done |].
    by apply edge_attrs_ENI_RTB. }
  assert (Hge : getitem vpc e = Some ve) by (by apply get_elem_NoDup).
  assert (Hgr : getitem vpc r = Some vr) by (by apply get_elem_NoDup).
  assert (Hin_more : Some stmt ∈ more).
  { eapply (elem_of_mapM _ _ _ (e, r)); [exact Hmore | |].
    - apply occurrences_pos. by rewrite Hpair.
    - simpl. by rewrite Hge, Hgr. }
  assert (Hcount : occurrences (mkRelation e r) (resolved it vpc)
                   = if explicit then 1 else 0).
  { unfold resolved. rewrite occurrences_filter. simpl.
    rewrite decide_True.
    - rewrite (occurrences_perm _ _ it)
        by apply (sorted_perm Relation_ltb).
      by rewrite (occurrences_perm _ _ _ Hit), occurrences_elements.
    - apply Is_true_true, andb_true_iff. unfold contains.
      rewrite !has_key_true. split; apply list_elem_of_fmap.
      + by exists (e, ve).
      + by exists (r, vr). }
  split_and!; [done | done | done | done | done | by rewrite Hge, Hgr
               | done | |].
  - rewrite <-Hctx. unfold sorted_edges.
    rewrite (sorted_perm str_ltb). apply list_elem_of_omap.
    exists (Some stmt). split; [|done]. apply elem_of_app. by right.
  - intros Hexplicit. fold explicit in Hcount. rewrite Hexplicit in Hcount.
    assert (Hin_raw : Some stmt ∈ raw).
    { eapply (elem_of_mapM _ _ _ (mkRelation e r)); [exact Hraw | |].
      - apply occurrences_pos. fold (resolved it vpc). by rewrite Hcount.
      - simpl. by rewrite Hge, Hgr. }
    split; [done|].
    rewrite <-Hctx. unfold sorted_edges.
    rewrite (occurrences_perm _ _ _ (sorted_perm str_ltb _)).
    rewrite omap_app, occurrences_app.
    assert (1 ≤ occurrences stmt (omap (fun x => x) raw)).
    { apply occurrences_pos, list_elem_of_omap. by exists (Some stmt). }
    assert (1 ≤ occurrences stmt (omap (fun x => x) more)).
    { apply occurrences_pos, list_elem_of_omap. by exists (Some stmt). }
    lia.
Qed.

(** In the first sample graph there is no relation from the interface to
    the route table: the one statement for the pair is the alignment edge.
    In the second there is one, and the visible statement is there
    twice. *)
Lemma synthesized_edge_per_pair_at_routed :
  (∃ ctx,
     (layout (elements (relations routed_vpc)) routed_vpc).2 = Ok ctx
     ∧ edge_statement "eni-1" "rtb-1" (alignment eni_1) ∈ ctx_edges ctx
     ∧ mkRelation "eni-1" "rtb-1"
       ∉ resolved (elements (relations routed_vpc)) routed_vpc)
  ∧ (∃ ctx,
       (layout (elements (relations explicit_route_vpc)) explicit_route_vpc).2
       = Ok ctx
       ∧ 2 ≤ occurrences (edge_statement "eni-1" "rtb-1" (plain eni_1))
                         (ctx_edges ctx)).
Proof.
  split.
  - set (it := elements (relations routed_vpc)).
    assert (Hres : ∃ ctx, layout it routed_vpc
                          = ((layout it routed_vpc).1, Ok ctx))
      by (eexists; vm_compute; reflexivity).
    destruct Hres as [ctx Hres]. exists ctx. split; [by rewrite Hres|].
    destruct (synthesized_edge_per_pair it routed_vpc
                (layout it routed_vpc).1 ctx "eni-1" "rtb-1" eni_1 rtb_1)
      as (enis & rtbs & raw & more & _ & _ & _ & _ & Hcount & _ & _ & Hin & _).
    + reflexivity.
    + by apply (bool_decide_unpack _); vm_compute.
    + repeat constructor; intros _; reflexivity.
    + exact Hres.
    + by apply (bool_decide_unpack _); vm_compute.
    + reflexivity.
    + by apply (bool_decide_unpack _); vm_compute.
    + reflexivity.
    + exists (mkRelation "i-1" "eni-1").
      split; [by apply (bool_decide_unpack _); vm_compute | by right].
    + exists (mkRelation "rtb-1" "eni-1").
      split; [by apply (bool_decide_unpack _); vm_compute | by left].
    + split; [exact Hin|]. by apply occurrences_zero.
  - set (it := elements (relations explicit_route_vpc)).
    assert (Hres : ∃ ctx, layout it explicit_route_vpc
                          = ((layout it explicit_route_vpc).1, Ok ctx))
      by (eexists; vm_compute; reflexivity).
    destruct Hres as [ctx Hres]. exists ctx. split; [by rewrite Hres|].
    destruct (synthesized_edge_per_pair it explicit_route_vpc
                (layout it explicit_route_vpc).1 ctx
                "eni-1" "rtb-1" eni_1 rtb_1)
      as (enis & rtbs & raw & more & _ & _ & _ & _ & _ & _ & _ & _ & Htwice).
    + reflexivity.
    + by apply (bool_decide_unpack _); vm_compute.
    + repeat constructor; intros _; reflexivity.
    + exact Hres.
    + by apply (bool_decide_unpack _); vm_compute.
    + reflexivity.
    + by apply (bool_decide_unpack _); vm_compute.
    + reflexivity.
    + exists (mkRelation "i-1" "eni-1").
      split; [by apply (bool_decide_unpack _); vm_compute | by right].
    + exists (mkRelation "rtb-1" "eni-1").
      split; [by apply (bool_decide_unpack _); vm_compute | by left].
    + assert (Hexplicit : bool_decide (mkRelation "eni-1" "rtb-1"
                                       ∈ relations explicit_route_vpc) = true)
        by (by vm_compute).
      rewrite Hexplicit in Htwice. by apply Htwice.
Defined.

(** ** The places of the node statements *)

Section Places.

(** Among statements that tell the services apart, the statement of a
    profile occurs in a selection exactly if the profile is selected. *)
Lemma occurrences_nodes_where (keep : Profile → bool) (ps : list Profile)
    (p : Profile) :
  NoDup (map p_node ps) → p ∈ ps →
  occurrences (p_node p) (nodes_where keep ps) = if keep p then 1 else 0.
Proof.
  induction ps as [|q ps IH]; [by intros _ ?%not_elem_of_nil|].
  simpl. intros [Hq Hnodup]%NoDup_cons Hin.
  rewrite nodes_where_cons, occurrences_app.
  apply elem_of_cons in Hin as [->|Hin].
  - assert (occurrences (p_node q) (nodes_where keep ps) = 0) as ->.
    { apply occurrences_zero. intros Hin. apply Hq.
      unfold nodes_where in Hin.
      apply list_elem_of_fmap in Hin as (q' & -> & Hq').
      apply list_elem_of_In, filter_In in Hq' as [Hq' _].
      apply list_elem_of_fmap. exists q'. by rewrite list_elem_of_In. }
    destruct (keep q); [|done]. rewrite occurrences_cons.
    by rewrite decide_True.
  - rewrite (IH Hnodup Hin).
    assert (p_node p ≠ p_node q) as Hne.
    { intros Heq. apply Hq. rewrite <-Heq. apply list_elem_of_fmap. by exists p. }
    destruct (keep q); [|done]. rewrite occurrences_cons.
    by rewrite decide_False.
Qed.

Lemma profiles_NoDup (vpc : VPC) (ps : list Profile) :
  NoDup (map node (services vpc)) →
  mapM profile (services vpc) = Ok ps →
  NoDup (map p_node ps).
Proof.
  intros Hnodup Hps. apply (NoDup_fmap_1 Ok).
  assert (map node (services vpc) = Ok <$> map p_node ps) as <-; [|done].
  clear Hnodup. apply mapM_Forall2 in Hps.
  induction Hps as [|v p vs ps Hp _ IH]; [done|].
  simpl. destruct (profile_inv v p Hp) as (_ & -> & _). by rewrite IH.
Qed.

(** *** The zone lists *)

Lemma hits_of_one {A K} `{EqDecision A} (f : K → list A) (x : A)
    (ks : list K) :
  occurrences x (flat_map f ks) = 1 →
  length (List.filter (fun k => bool_decide (x ∈ f k)) ks) = 1.
Proof.
  induction ks as [|k ks IH]; simpl; [done|].
  rewrite occurrences_app. intros Hsum.
  case_bool_decide as Hin; simpl.
  - apply occurrences_pos in Hin.
    assert (Hrest : occurrences x (flat_map f ks) = 0) by lia.
    f_equal. rewrite occurrences_flat_map_zero in Hrest.
    clear -Hrest. induction ks as [|k' ks IH]; simpl; [done|].
    rewrite bool_decide_eq_false_2 by (apply Hrest; by left).
    apply IH. intros; apply Hrest. by right.
  - apply occurrences_zero in Hin. apply IH. lia.
Qed.

Lemma filter_length_perm {A} (f : A → bool) (l1 l2 : list A) :
  l1 ≡ₚ l2 → length (List.filter f l1) = length (List.filter f l2).
Proof.
  induction 1 as [|x l1 l2 _ IH|x y l|l1 l2 l3 _ IH1 _ IH2]; simpl.
  - done.
  - destruct (f x); simpl; by rewrite IH.
  - by destruct (f x), (f y).
  - congruence.
Qed.

(** The statements in the top (or bottom) lists of all zone clusters, for
    a test [sel] of the zone loop. *)
Lemma zone_lists_count connected c (vpc : VPC) (ps : list Profile)
    (items : list (string * AvailabilityZone)) (azs : list GVAZ)
    (p : Profile) (pick : GVAZ → list string)
    (sel : AvailabilityZone → gset string → Profile → bool) :
  (∀ item az, rendered_zone connected c vpc ps item az →
              pick az = nodes_where (sel item.2 (single_az c)) ps) →
  NoDup (map p_node ps) → p ∈ ps →
  Forall2 (rendered_zone connected c vpc ps) items azs →
  occurrences (p_node p) (flat_map pick azs)
  = length (List.filter (fun item => sel item.2 (single_az c) p) items).
Proof.
  intros Hpick Hnodup Hin. induction 1 as [|item az items azs Hz _ IH];
    simpl; [done|].
  rewrite occurrences_app, IH, (Hpick item az Hz).
  rewrite (occurrences_nodes_where _ ps p Hnodup Hin).
  by destruct (sel item.2 (single_az c) p).
Qed.

Lemma str_in_decide (x : string) (l : list string) :
  str_in x l = bool_decide (x ∈ l).
Proof.
  destruct (str_in x l) eqn:E.
  - symmetry. by apply bool_decide_eq_true_2, str_in_true.
  - symmetry. apply bool_decide_eq_false_2. rewrite <-str_in_true. congruence.
Qed.

(** A resource that the analysis finds [single_az] is listed by one zone
    of the rendered zones. *)
Lemma single_az_one_zone (vpc : VPC) (x : string) :
  x ∈ single_az (containment_of vpc) →
  length (List.filter (fun item : string * AvailabilityZone =>
                         bool_decide (x ∈ service_ids item.2))
                      (sorted (fun p q => str_ltb p.1 q.1) (azs vpc))) = 1.
Proof.
  intros Hsa. destruct (containment_of_spec vpc x) as (_ & Haz & _).
  apply Haz in Hsa as [Hone _].
  rewrite (filter_length_perm _ _ (azs vpc)) by apply sorted_perm.
  unfold all_zone_services, availability_zones in Hone.
  rewrite flat_map_map in Hone.
  exact (hits_of_one (fun item : string * AvailabilityZone =>
                        service_ids item.2) x (azs vpc) Hone).
Qed.

End Places.

Section SubnetClusters.
Context (vpc : VPC) (connected single_subnet : gset string).
Context (Hkeys : NoDup (_services vpc).*1).
Context (Hids : Forall (fun kv => Service.id kv.2 = Ok kv.1) (_services vpc)).
Context (Hnodes : NoDup (map node (services vpc))).
Context (k0 : string) (v0 : ServiceInstance) (nv0 : string).
Context (Hin0 : (k0, v0) ∈ _services vpc) (Hnode0 : node v0 = Ok nv0).

Lemma NoDup_fmap_elem {A B} (f : A → B) (l : list A) (x y : A) :
  NoDup (map f l) → x ∈ l → y ∈ l → f x = f y → x = y.
Proof.
  induction l as [|z l IH]; [by intros _ ?%not_elem_of_nil|].
  simpl. intros [Hz Hnodup]%NoDup_cons [->|Hx]%elem_of_cons
    [->|Hy]%elem_of_cons Heq; [done| | |by apply IH].
  - destruct Hz. rewrite Heq. apply list_elem_of_fmap. by exists y.
  - destruct Hz. rewrite <-Heq. apply list_elem_of_fmap. by exists x.
Qed.

(** Only the resource itself has its node statement. *)
Lemma node_key (k : string) (v : ServiceInstance) :
  (k, v) ∈ _services vpc → node v = Ok nv0 → k = k0.
Proof using Hnodes Hin0 Hnode0.
  intros Hin Hnode.
  assert (Heq : (k, v) = (k0, v0)); [|by injection Heq].
  unfold services in Hnodes. rewrite map_map in Hnodes.
  apply (NoDup_fmap_elem _ _ _ _ Hnodes Hin Hin0). simpl. congruence.
Qed.

Lemma mapM_perm {A B} (f : A → result B) (l l' : list A) (ys : list B) :
  l ≡ₚ l' → mapM f l = Ok ys → ∃ ys', mapM f l' = Ok ys' ∧ ys ≡ₚ ys'.
Proof.
  intros Hperm. revert ys.
  induction Hperm as [|x l l' _ IH|x y l|l1 l2 l3 _ IH1 _ IH2]; intros ys.
  - intros [= <-]. by exists [].
  - rewrite mapM_cons_Ok. intros (z & zs & Hz & Hzs & ->).
    destruct (IH zs Hzs) as (zs' & Hzs' & Hp). exists (z :: zs').
    split; [|by constructor]. apply mapM_cons_Ok. by exists z, zs'.
  - rewrite mapM_cons_Ok. intros (z1 & zs1 & Hz1 & Hzs1 & ->).
    apply mapM_cons_Ok in Hzs1 as (z2 & zs & Hz2 & Hzs & ->).
    exists (z2 :: z1 :: zs). split; [|apply Permutation_swap].
    apply mapM_cons_Ok. exists z2, (z1 :: zs). split_and!; [done| |done].
    apply mapM_cons_Ok. by exists z1, zs.
  - intros Hys. destruct (IH1 ys Hys) as (ys2 & Hys2 & Hp12).
    destruct (IH2 ys2 Hys2) as (ys3 & Hys3 & Hp23).
    exists ys3. split; [done | by etrans].
Qed.

(** The node statements of the resources stored under the ids [ids]. *)
Lemma nodes_of_ids (ids : list string) (svcs : list string) :
  mapM node_opt (map (getitem vpc) ids) = Ok svcs →
  occurrences nv0 svcs = occurrences k0 ids.
Proof using Hkeys Hnodes Hin0 Hnode0.
  revert svcs. induction ids as [|k ids IH]; intros svcs.
  - by intros [= <-].
  - simpl map. rewrite mapM_cons_Ok. intros (nv & svcs' & Hnv & Hrest & ->).
    rewrite !occurrences_cons, (IH svcs' Hrest). f_equal.
    unfold node_opt in Hnv.
    destruct (getitem vpc k) as [v|] eqn:Hget; [|done].
    unfold getitem in Hget. apply get_Some_elem in Hget as Hin.
    destruct (decide (k0 = k)) as [<-|Hne].
    + rewrite (get_elem_NoDup k0 v0 _ Hkeys Hin0) in Hget.
      injection Hget as <-. rewrite Hnode0 in Hnv. injection Hnv as <-.
      by rewrite decide_True.
    + rewrite decide_False; [done|]. intros <-.
      apply Hne. symmetry. by eapply node_key.
Qed.

(** One subnet cluster. *)
Lemma subnet_cluster_count (o : option ServiceInstance) (sn : GVSN) :
  rendered_subnet connected single_subnet vpc o sn →
  occurrences nv0 (sn_services sn)
  = occurrences k0 (inside_ids connected single_subnet vpc (sn_id sn)).
Proof using Hkeys Hnodes Hin0 Hnode0.
  intros (s & xs & _ & _ & _ & Hxs & Hsvcs).
  destruct (sorted_key_spec pair_ltb inside_key _ _
              (st_asym _ pair_ltb_strict_total) Hxs) as (_ & Hperm & _).
  destruct (mapM_perm _ _ _ _ Hperm Hsvcs) as (svcs' & Hsvcs' & Hp).
  by rewrite (occurrences_perm _ _ _ Hp), (nodes_of_ids _ _ Hsvcs').
Qed.

Lemma subnet_clusters_count (ordered : list (option ServiceInstance))
    (sns : list GVSN) :
  Forall2 (rendered_subnet connected single_subnet vpc) ordered sns →
  occurrences nv0 (flat_map sn_services sns)
  = occurrences k0
      (flat_map (fun o => inside_ids connected single_subnet vpc (key_of o))
                ordered)
  ∧ Forall (fun o => is_Some o) ordered.
Proof using Hkeys Hnodes Hin0 Hnode0.
  induction 1 as [|o sn ordered sns Hsn _ [IH1 IH2]]; simpl; [done|].
  rewrite !occurrences_app, IH1, (subnet_cluster_count o sn Hsn).
  destruct Hsn as (s & xs & -> & Hid & _). simpl. rewrite Hid.
  split; [done|]. constructor; [by exists s | done].
Qed.

Lemma key_of_getitem (k : string) :
  is_Some (getitem vpc k) → key_of (getitem vpc k) = k.
Proof using Hids.
  intros [s Hs]. rewrite Hs. simpl.
  apply get_Some_elem in Hs. rewrite Forall_forall in Hids.
  specialize (Hids _ Hs). simpl in Hids. by rewrite Hids.
Qed.

(** The subnet clusters of one zone. *)
Lemma zone_subnets_count (c : Containment) (ps : list Profile)
    (item : string * AvailabilityZone) (az : GVAZ) :
  single_subnet = Graphviz.single_subnet c →
  rendered_zone connected c vpc ps item az →
  occurrences nv0 (flat_map sn_services (az_subnets az))
  = occurrences k0
      (flat_map (inside_ids connected single_subnet vpc) (subnet_ids item.2)).
Proof using Hkeys Hids Hnodes Hin0 Hnode0.
  intros Hss (_ & _ & _ & ordered & Hord & Hall). rewrite <-Hss in Hall.
  destruct (subnet_clusters_count ordered _ Hall) as [-> Hsome].
  destruct (sorted_key_spec (lex_ltb Z.ltb) cidr_sort _ _
              (st_asym _ (lex_ltb_strict_total _ Z_ltb_strict_total)) Hord)
    as (_ & Hperm & _).
  rewrite (occurrences_perm _ _ _ (Permutation_flat_map _ Hperm)).
  rewrite Hperm in Hsome. rewrite flat_map_map. f_equal.
  apply flat_map_ext_elem. intros k Hk. rewrite key_of_getitem; [done|].
  rewrite Forall_forall in Hsome. apply Hsome, list_elem_of_fmap. by exists k.
Qed.

(** All subnet clusters. *)
Lemma all_subnets_count (c : Containment) (ps : list Profile)
    (items : list (string * AvailabilityZone)) (azs : list GVAZ) :
  single_subnet = Graphviz.single_subnet c →
  Forall2 (rendered_zone connected c vpc ps) items azs →
  occurrences nv0
    (flat_map (fun az => flat_map sn_services (az_subnets az)) azs)
  = occurrences k0
      (flat_map (inside_ids connected single_subnet vpc)
                (flat_map (fun item : string * AvailabilityZone =>
                             subnet_ids item.2) items)).
Proof using Hkeys Hids Hnodes Hin0 Hnode0.
  intros Hss. induction 1 as [|item az items azs Hz _ IH]; simpl; [done|].
  rewrite flat_map_app, !occurrences_app, IH.
  by rewrite (zone_subnets_count c ps item az Hss Hz).
Qed.

Lemma inside_count (ks : list string) :
  occurrences k0 (flat_map (inside_ids connected single_subnet vpc) ks)
  = if decide (k0 ∈ connected ∧ k0 ∈ single_subnet)
    then occurrences k0 (flat_map (members vpc) ks) else 0.
Proof.
  induction ks as [|k ks IH]; simpl; [by destruct (decide _)|].
  rewrite !occurrences_app, IH. unfold inside_ids.
  rewrite (occurrences_filter (fun x => x ∈ connected ∧ x ∈ single_subnet)).
  by destruct (decide _).
Qed.

End SubnetClusters.

Section Decision.

Lemma filter_none {A} (f : A → bool) (l : list A) :
  (∀ x, f x = false) → List.filter f l = [].
Proof.
  intros H. induction l as [|x l IH]; simpl; [done|]. by rewrite H, IH.
Qed.

(** The zone lists hold the statement of a resource once, in the list
    that [nested_place] names, or not at all. *)
Lemma zone_top_count (connected : gset string) (vpc : VPC) (p : Profile) :
  let c := containment_of vpc in
  length (List.filter (fun item : string * AvailabilityZone =>
                         in_zone_top item.2 (single_az c) p)
                      (sorted (fun p q => str_ltb p.1 q.1) (azs vpc)))
  = if decide (nested_place connected c p = Some ZoneTop) then 1 else 0.
Proof.
  intros c. unfold nested_place, in_zone_top.
  case_bool_decide as Hsa.
  - destruct (p_level p <? 12) eqn:Hl; simpl.
    + rewrite <-(single_az_one_zone vpc (p_id p) Hsa). f_equal.
      apply List.filter_ext. intros item.
      by rewrite str_in_decide, andb_true_r.
    + rewrite filter_none by done. by destruct (14 <? p_level p).
  - rewrite filter_none by (intros; by rewrite ?andb_false_r).
    by destruct (_ && _).
Qed.

Lemma zone_bottom_count (connected : gset string) (vpc : VPC) (p : Profile) :
  let c := containment_of vpc in
  length (List.filter (fun item : string * AvailabilityZone =>
                         in_zone_bottom item.2 (single_az c) p)
                      (sorted (fun p q => str_ltb p.1 q.1) (azs vpc)))
  = if decide (nested_place connected c p = Some ZoneBottom) then 1 else 0.
Proof.
  intros c. unfold nested_place, in_zone_bottom.
  case_bool_decide as Hsa.
  - destruct (14 <? p_level p) eqn:Hl; simpl.
    + assert ((p_level p <? 12) = false) as ->.
      { apply Nat.ltb_lt in Hl. apply Nat.ltb_ge. lia. }
      simpl.
      rewrite <-(single_az_one_zone vpc (p_id p) Hsa). f_equal.
      apply List.filter_ext. intros item.
      by rewrite str_in_decide, andb_true_r.
    + rewrite filter_none by done. by destruct (p_level p <? 12).
  - rewrite filter_none by (intros; by rewrite ?andb_false_r).
    by destruct (_ && _).
Qed.

Lemma subnet_place_count (connected : gset string) (vpc : VPC) (p : Profile) :
  let c := containment_of vpc in
  occurrences (p_id p)
    (flat_map (inside_ids connected (single_subnet c) vpc)
       (flat_map (fun item : string * AvailabilityZone => subnet_ids item.2)
                 (sorted (fun p q => str_ltb p.1 q.1) (azs vpc))))
  = if decide (nested_place connected c p = Some SubnetCluster) then 1 else 0.
Proof.
  intros c.
  destruct (containment_of_spec vpc (p_id p)) as (Hss & Haz & _).
  fold c in Hss, Haz.
  rewrite (occurrences_perm _ _
             (flat_map (inside_ids connected (single_subnet c) vpc)
                       (all_zone_subnets vpc))).
  - rewrite inside_count. unfold nested_place.
    case_bool_decide as Hsa.
    + apply Haz in Hsa as [_ Hnot].
      rewrite decide_False by tauto.
      by destruct (p_level p <? 12), (14 <? p_level p); rewrite decide_False.
    + destruct (decide (p_id p ∈ connected ∧ p_id p ∈ single_subnet c))
        as [[Hc Hs]|Hno].
      * rewrite !bool_decide_eq_true_2 by done. simpl. by apply Hss.
      * assert (bool_decide (p_id p ∈ single_subnet c)
                && bool_decide (p_id p ∈ connected) = false) as ->.
        { apply not_true_iff_false. rewrite andb_true_iff.
          rewrite !bool_decide_eq_true. tauto. }
        done.
  - apply Permutation_flat_map. unfold all_zone_subnets, availability_zones.
    rewrite flat_map_map. apply Permutation_flat_map, sorted_perm.
Qed.

(** A resource at or below the VPC level that has a shared area is not
    contained, and so has no place in a cluster. *)
Lemma shared_excludes_nested (connected : gset string) (vpc : VPC)
    (p : Profile) :
  let c := containment_of vpc in
  2 ≤ p_level p →
  area_of connected (contained c) p ≠ None →
  nested_place connected c p = None.
Proof.
  intros c Hlevel Harea.
  assert (Hout : p_id p ∉ contained c).
  { unfold area_of in Harea.
    assert ((p_level p <? 2) = false) as Hl by (apply Nat.ltb_ge; lia).
    rewrite Hl in Harea.
    destruct (bool_decide (p_id p ∈ contained c)) eqn:Hc;
      [|by apply bool_decide_eq_false in Hc].
    simpl in Harea. by rewrite !andb_false_r in Harea. }
  unfold c, containment_of, containment in Hout. simpl in Hout.
  unfold nested_place, c, containment_of, containment. simpl.
  rewrite not_elem_of_union in Hout. destruct Hout as [Hss Hsa].
  by rewrite (bool_decide_eq_false_2 _ Hsa), (bool_decide_eq_false_2 _ Hss).
Qed.

End Decision.




(** ** Strings: [split], [join] and [int] *)

Section Strings.

Lemma str_app_cons (a : ascii) (s t : string) :
  String a s +:+ t = String a (s +:+ t).
Proof. reflexivity. Qed.

Lemma str_app_nil_l (t : string) : EmptyString +:+ t = t.
Proof. reflexivity. Qed.

Lemma str_app_assoc (s1 s2 s3 : string) :
  s1 +:+ (s2 +:+ s3) = (s1 +:+ s2) +:+ s3.
Proof.
  induction s1 as [|a s1 IH]; [done|]. by rewrite !str_app_cons, IH.
Qed.

Lemma str_app_nil_r (s : string) : s +:+ EmptyString = s.
Proof. induction s as [|a s IH]; [done|]. by rewrite str_app_cons, IH. Qed.

Lemma contains_char_cons (c d : ascii) (s : string) :
  contains_char c (String d s)
  = if Ascii.eqb c d then true else contains_char c s.
Proof. reflexivity. Qed.

Lemma contains_char_app (c : ascii) (s t : string) :
  contains_char c (s +:+ t) = contains_char c s || contains_char c t.
Proof.
  induction s as [|d s IH]; [done|]. rewrite str_app_cons. simpl.
  rewrite IH. by destruct (Ascii.eqb c d).
Qed.

Lemma str_rev_app (s1 s2 : string) :
  String.rev_app s1 s2 = String.rev s1 +:+ s2.
Proof.
  unfold String.rev. revert s2.
  induction s1 as [|a s1 IH]; intros s2; simpl; [done|].
  rewrite (IH (String a s2)), (IH (String a EmptyString)).
  by rewrite <-str_app_assoc.
Qed.

Lemma str_rev_cons (a : ascii) (s : string) :
  String.rev (String a s) = String.rev s +:+ String a EmptyString.
Proof. unfold String.rev at 1. simpl. apply str_rev_app. Qed.

(** [split] by recursion on the text. *)
Lemma split_acc_split (c : ascii) (cur s : string) :
  split_acc c cur s
  = match split c s with
    | x :: l => (String.rev cur +:+ x) :: l
    | [] => []
    end.
Proof.
  unfold split. revert cur. induction s as [|d s IH]; intros cur; simpl.
  - by rewrite str_app_nil_r.
  - destruct (Ascii.eqb c d).
    + by rewrite str_app_nil_r.
    + rewrite (IH (String d cur)), (IH (String d EmptyString)).
      destruct (split_acc c EmptyString s) as [|x l]; [done|].
      rewrite str_rev_cons. by rewrite <-str_app_assoc.
Qed.

Lemma split_nil (c : ascii) : split c EmptyString = [EmptyString].
Proof. reflexivity. Qed.

Lemma split_cons (c d : ascii) (s : string) :
  split c (String d s)
  = if Ascii.eqb c d then EmptyString :: split c s
    else match split c s with
         | x :: l => String d x :: l
         | [] => []
         end.
Proof.
  unfold split at 1. simpl. destruct (Ascii.eqb c d); [done|].
  rewrite split_acc_split. by destruct (split c s).
Qed.

Lemma split_not_nil (c : ascii) (s : string) : split c s ≠ [].
Proof.
  induction s as [|d s IH]; [done|]. rewrite split_cons.
  destruct (Ascii.eqb c d); [done|]. by destruct (split c s).
Qed.

(** [sep.join(s.split(sep)) == s] *)
Lemma join_split (c : ascii) (s : string) :
  join (String c EmptyString) (split c s) = s.
Proof.
  induction s as [|d s IH]; [done|]. rewrite split_cons.
  pose proof (split_not_nil c s) as Hne.
  destruct (Ascii.eqb_spec c d) as [->|_].
  - destruct (split d s) as [|x l]; [done|]. simpl in *. by rewrite IH.
  - destruct (split c s) as [|x l]; [done|].
    destruct l as [|y l]; simpl in *; by rewrite <-IH.
Qed.

Lemma split_no_sep (c : ascii) (s x : string) :
  x ∈ split c s → contains_char c x = false.
Proof.
  revert x. induction s as [|d s IH]; intros x.
  - rewrite split_nil, list_elem_of_singleton. by intros ->.
  - rewrite split_cons. destruct (Ascii.eqb c d) eqn:E.
    + rewrite elem_of_cons. intros [->|H]; [done | by apply IH].
    + destruct (split c s) as [|y l]; [by rewrite elem_of_nil|].
      rewrite elem_of_cons. intros [->|H].
      * simpl. rewrite E. apply IH. by left.
      * apply IH. by right.
Qed.

Lemma split_plain (c : ascii) (s : string) :
  contains_char c s = false → split c s = [s].
Proof.
  induction s as [|d s IH]; [done|]. simpl. rewrite split_cons.
  destruct (Ascii.eqb c d); [done|]. intros H. by rewrite IH.
Qed.

Lemma split_app (c : ascii) (a b : string) :
  contains_char c a = false →
  split c (a +:+ String c b) = a :: split c b.
Proof.
  induction a as [|d a IH]; simpl.
  - intros _. rewrite str_app_nil_l, split_cons. by rewrite Ascii.eqb_refl.
  - destruct (Ascii.eqb c d) eqn:E; [done|]. intros H.
    rewrite str_app_cons, split_cons, E, IH by done. done.
Qed.

(** [sep.join(l).split(sep) == l] when no element holds the separator. *)
Lemma split_join (c : ascii) (l : list string) :
  l ≠ [] → Forall (fun x => contains_char c x = false) l →
  split c (join (String c EmptyString) l) = l.
Proof.
  induction l as [|x l IH]; [done|]. intros _ H.
  apply Forall_cons in H as [Hx Hl].
  destruct l as [|y l]; [by apply split_plain|].
  change (join (String c EmptyString) (x :: y :: l))
    with (x +:+ String c (join (String c EmptyString) (y :: l))).
  rewrite split_app by done. by rewrite IH.
Qed.

Lemma split1_acc_split1 (c : ascii) (cur s : string) :
  split1_acc c cur s
  = match split1 c s with
    | x :: l => (String.rev cur +:+ x) :: l
    | [] => []
    end.
Proof.
  unfold split1. revert cur. induction s as [|d s IH]; intros cur; simpl.
  - by rewrite str_app_nil_r.
  - destruct (Ascii.eqb c d).
    + by rewrite str_app_nil_r.
    + rewrite (IH (String d cur)), (IH (String d EmptyString)).
      destruct (split1_acc c EmptyString s) as [|x l]; [done|].
      rewrite str_rev_cons. by rewrite <-str_app_assoc.
Qed.

(** [s.split(sep, maxsplit=1)] of a text that holds the separator: the
    parts before and after its first occurrence. *)
Lemma split1_found (c : ascii) (s : string) :
  contains_char c s = true →
  ∃ t r, split1 c s = [t; r] ∧ s = t +:+ String c r
         ∧ contains_char c t = false.
Proof.
  induction s as [|d s IH]; [done|]. simpl. unfold split1. simpl.
  destruct (Ascii.eqb_spec c d) as [->|Hne].
  - intros _. by exists EmptyString, s.
  - intros H. destruct (IH H) as (t & r & Ht & -> & Hc).
    rewrite split1_acc_split1, Ht. exists (String d t), r.
    split; [done|]. split; [done|]. simpl.
    by destruct (Ascii.eqb_spec c d).
Qed.

Lemma str_length_app (s1 s2 : string) :
  String.length (s1 +:+ s2) = String.length s1 + String.length s2.
Proof.
  induction s1 as [|a s1 IH]; [done|]. rewrite str_app_cons. simpl.
  by rewrite IH.
Qed.

(** An element of a joined list of two or more is shorter than the
    whole. *)
Lemma join_elem_shorter (sep : string) (l : list string) (x : string) :
  x ∈ l → 2 ≤ length l →
  String.length x + String.length sep ≤ String.length (join sep l).
Proof.
  induction l as [|y l IH]; [by rewrite elem_of_nil|].
  destruct l as [|z l]; [simpl; lia|]. intros Hx _.
  change (join sep (y :: z :: l)) with (y +:+ sep +:+ join sep (z :: l)).
  rewrite !str_length_app. apply elem_of_cons in Hx as [->|Hx]; [lia|].
  destruct l as [|w l].
  - apply list_elem_of_singleton in Hx as ->. simpl. lia.
  - specialize (IH Hx). simpl length in IH. lia.
Qed.

End Strings.

(** ** ARNs: [parse_arn] and the ids of the resources *)

Section Arn.

(** The text of fewer than six elements: one of the six subscripts is out
    of range. *)
Lemma parse_arn_short (s : string) :
  length (split ":" s) < 6 → Utils.parse_arn s = Raise IndexError.
Proof.
  unfold Utils.parse_arn.
  destruct (split ":" s) as [|e0 [|e1 [|e2 [|e3 [|e4 [|e5 rest]]]]]];
    simpl; intros H; try done; lia.
Qed.

(** The text of six elements or more, by the three branches. *)
Lemma parse_arn_long (s e0 e1 e2 e3 e4 e5 : string) (rest : list string) :
  split ":" s = e0 :: e1 :: e2 :: e3 :: e4 :: e5 :: rest →
  ∃ t r,
    Utils.parse_arn s
    = Ok {| Utils.arn := e0; Utils.partition := e1; Utils.service := e2;
            Utils.region := e3; Utils.account := e4;
            Utils.resourcetype := t; Utils.resource := r |}
    ∧ ((rest = [r] ∧ t = Some e5)
       ∨ (length rest ≠ 1 ∧ contains_char "/" e5 = false
          ∧ t = None ∧ r = e5)
       ∨ (length rest ≠ 1
          ∧ ∃ t', t = Some t' ∧ e5 = t' +:+ "/" +:+ r)).
Proof.
  intros Hs. unfold Utils.parse_arn. rewrite Hs. simpl.
  destruct rest as [|e6 [|e7 rest]]; simpl.
  - destruct (contains_char "/" e5) eqn:Hc; simpl.
    + destruct (split1_found "/" e5 Hc) as (t' & r & -> & -> & _).
      exists (Some t'), r. split; [done|]. right; right.
      split; [done|]. by exists t'.
    + exists None, e5. split; [done|]. right; left. by split_and!.
  - exists (Some e5), e6. split; [done|]. by left.
  - destruct (contains_char "/" e5) eqn:Hc; simpl.
    + destruct (split1_found "/" e5 Hc) as (t' & r & -> & -> & _).
      exists (Some t'), r. split; [done|]. right; right.
      split; [done|]. by exists t'.
    + exists None, e5. split; [done|]. right; left. by split_and!.
Qed.

(** X1.  [parse_arn] raises exactly when the text has fewer than six elements
    between its colons, and what it raises then is [IndexError]; the
    unpacking of the split resource never fails. *)
Theorem parse_arn_raises (s : string) :
  match Utils.parse_arn s with
  | Ok _ => 6 ≤ length (split ":" s)
  | Raise e => e = IndexError ∧ length (split ":" s) < 6
  end.
Proof.
  destruct (split ":" s) as [|e0 [|e1 [|e2 [|e3 [|e4 [|e5 rest]]]]]] eqn:Hs;
    try (rewrite parse_arn_short by (rewrite Hs; simpl; lia);
         split; [done | simpl; lia]).
  destruct (parse_arn_long s _ _ _ _ _ _ _ Hs) as (t & r & -> & _).
  simpl. lia.
Qed.

(** X2.  An ARN of six or seven elements is its fields joined again: the
    resource type, when there is one, is followed by the colon or the
    slash that separated it from the resource. *)
Theorem parse_arn_round_trip (s : string) (a : Utils.Arn) :
  Utils.parse_arn s = Ok a →
  length (split ":" s) ≤ 7 →
  ∃ sep, (sep = ":" ∨ sep = "/")
    ∧ s = join ":" [ Utils.arn a; Utils.partition a; Utils.service a;
                     Utils.region a; Utils.account a;
                     match Utils.resourcetype a with
                     | Some t => t +:+ sep +:+ Utils.resource a
                     | None => Utils.resource a
                     end ].
Proof.
  intros Ha Hlen. pose proof (join_split ":" s) as Hjoin.
  destruct (split ":" s) as [|e0 [|e1 [|e2 [|e3 [|e4 [|e5 rest]]]]]] eqn:Hs;
    try (rewrite parse_arn_short in Ha by (rewrite Hs; simpl; lia); done).
  destruct (parse_arn_long s _ _ _ _ _ _ _ Hs) as (t & r & Hp & Hcases).
  rewrite Hp in Ha. injection Ha as <-. simpl.
  destruct Hcases as [[-> ->] | [(Hrest & _ & -> & ->) | (Hrest & t' & -> & ->)]].
  - exists ":". split; [by left|]. by rewrite <-Hjoin.
  - exists ":". split; [by left|].
    destruct rest as [|e6 [|e7 rest]]; [|done|simpl in Hlen; lia].
    by rewrite <-Hjoin.
  - exists "/". split; [by right|].
    destruct rest as [|e6 [|e7 rest]]; [|done|simpl in Hlen; lia].
    by rewrite <-Hjoin.
Qed.

(** An ARN of seven elements. *)
Lemma parse_arn_round_trip_at_function :
  ∃ a, Utils.parse_arn "arn:aws:lambda:us-east-1:123456789012:function:report"
       = Ok a
    ∧ length (split ":" "arn:aws:lambda:us-east-1:123456789012:function:report")
      ≤ 7
    ∧ ∃ sep, (sep = ":" ∨ sep = "/")
        ∧ "arn:aws:lambda:us-east-1:123456789012:function:report"
          = join ":" [ Utils.arn a; Utils.partition a; Utils.service a;
                       Utils.region a; Utils.account a;
                       match Utils.resourcetype a with
                       | Some t => t +:+ sep +:+ Utils.resource a
                       | None => Utils.resource a
                       end ].
Proof.
  eexists. split; [reflexivity|]. split; [vm_compute; lia|].
  apply (parse_arn_round_trip
           "arn:aws:lambda:us-east-1:123456789012:function:report").
  - reflexivity.
  - vm_compute. lia.
Defined.

(** X3.  The id of a resource that is named by an ARN is the resource part of
    the ARN: shorter than the name, so never the name itself, and without
    a colon. *)
Theorem id_of_arn_name (v : ServiceInstance) (i : string) :
  startswith "arn" (instance_name v) = true →
  Service.id v = Ok i →
  String.length i < String.length (instance_name v)
  ∧ contains_char ":" i = false.
Proof.
  unfold Service.id. intros -> Hid.
  apply bind_Ok in Hid as (a & Ha & [= <-]).
  pose proof (join_split ":" (instance_name v)) as Hjoin.
  assert (Hno : ∀ x, x ∈ split ":" (instance_name v)
                     → contains_char ":" x = false)
    by (intros x; apply split_no_sep).
  assert (Hshort : ∀ x, x ∈ split ":" (instance_name v)
                        → 2 ≤ length (split ":" (instance_name v))
                        → String.length x < String.length (instance_name v)).
  { intros x Hx Hlen.
    pose proof (join_elem_shorter ":" _ x Hx Hlen) as H.
    rewrite Hjoin in H. simpl in H. lia. }
  destruct (split ":" (instance_name v))
    as [|e0 [|e1 [|e2 [|e3 [|e4 [|e5 rest]]]]]] eqn:Hs;
    try (rewrite parse_arn_short in Ha by (rewrite Hs; simpl; lia); done).
  destruct (parse_arn_long _ _ _ _ _ _ _ _ Hs) as (t & r & Hp & Hcases).
  rewrite Hp in Ha. injection Ha as <-. simpl.
  assert (He5 : String.length e5 < String.length (instance_name v)
                ∧ contains_char ":" e5 = false).
  { split; [apply Hshort; [set_solver | simpl; lia] | apply Hno; set_solver]. }
  destruct Hcases as [[-> ->] | [(_ & _ & -> & ->) | (_ & t' & -> & ->)]].
  - split; [apply Hshort; [set_solver | simpl; lia] | apply Hno; set_solver].
  - exact He5.
  - destruct He5 as [Hlen Hc]. rewrite !str_length_app in Hlen.
    rewrite !contains_char_app in Hc.
    apply orb_false_iff in Hc as [_ Hc]. apply orb_false_iff in Hc as [_ Hc].
    split; [lia | done].
Qed.

(** The ARN of a load balancer. *)
Lemma id_of_arn_name_at_load_balancer :
  startswith "arn"
    (instance_name
       (instance LoadBalancer "ELBv2"
          "arn:aws:elasticloadbalancing:us-east-1:123456789012:loadbalancer/app/web/50dc6c495c0c9188"))
  = true
  ∧ Service.id
      (instance LoadBalancer "ELBv2"
         "arn:aws:elasticloadbalancing:us-east-1:123456789012:loadbalancer/app/web/50dc6c495c0c9188")
    = Ok "app/web/50dc6c495c0c9188"
  ∧ String.length "app/web/50dc6c495c0c9188"
    < String.length
        (instance_name
           (instance LoadBalancer "ELBv2"
              "arn:aws:elasticloadbalancing:us-east-1:123456789012:loadbalancer/app/web/50dc6c495c0c9188"))
  ∧ contains_char ":" "app/web/50dc6c495c0c9188" = false.
Proof.
  split; [reflexivity|]. split; [reflexivity|].
  apply (id_of_arn_name
           (instance LoadBalancer "ELBv2"
              "arn:aws:elasticloadbalancing:us-east-1:123456789012:loadbalancer/app/web/50dc6c495c0c9188"));
    reflexivity.
Defined.

(** The one exception that the id of a resource can raise. *)
Lemma id_raises (v : ServiceInstance) (e : exn) :
  Service.id v = Raise e → e = IndexError.
Proof.
  unfold Service.id. destruct (startswith _ _); [|done].
  destruct (split ":" (instance_name v))
    as [|e0 [|e1 [|e2 [|e3 [|e4 [|e5 rest]]]]]] eqn:Hs;
    try (rewrite parse_arn_short by (rewrite Hs; simpl; lia);
         by intros [= <-]).
  by destruct (parse_arn_long _ _ _ _ _ _ _ _ Hs) as (t & r & -> & _).
Qed.

End Arn.

(** ** Graphs that cannot be rendered *)

Section Failures.

Lemma to_graphviz_Ok (it : list Relation) (vpc : VPC) (out : string) :
  (to_graphviz_in it vpc).2 = Ok out →
  ∃ vpc' ctx, layout it vpc = (vpc', Ok ctx).
Proof.
  unfold to_graphviz_in. destruct (layout it vpc) as [vpc' [ctx|e]]; [|done].
  intros _. by exists vpc', ctx.
Qed.

Lemma raises_or_not {A} (r : result A) :
  (∀ a, r ≠ Ok a) → ∃ e, r = Raise e.
Proof. destruct r as [a|e]; [intros H; by destruct (H a) | by exists e]. Qed.

(** The title of the VPC cluster of a rendering that ends. *)
Lemma layout_vpc_name (it : list Relation) (vpc vpc' : VPC) (ctx : Context) :
  layout it vpc = (vpc', Ok ctx) → vpc_name vpc = Ok (ctx_vpc_name ctx).
Proof.
  intros H. pose proof (layout_vivified it vpc) as Hv. rewrite H in Hv.
  simpl in Hv. revert H. unfold layout.
  destruct (connected_set it vpc) as [connected|]; [|done].
  destruct (tally vpc) as [v1 [az_tally sn_tally]].
  destruct (route _ _ v1) as [r|]; [|done].
  destruct (zones _ _ v1) as [v2 azs].
  intros [= -> Hctx].
  apply bind_Ok in Hctx as (azs' & -> & Hctx).
  apply bind_Ok in Hctx as (edges & _ & Hctx).
  apply bind_Ok in Hctx as (vn & Hvn & [= <-]). simpl.
  destruct Hv as (Hid & Hname & Hcidr & _).
  unfold vpc_name in *. rewrite Hid, Hname, Hcidr in Hvn. exact Hvn.
Qed.

(** X4.  A graph that was never scanned has no CIDR block: its rendering
    always ends in an exception. *)
Theorem to_graphviz_unscanned_raises (it : list Relation) (vpc : VPC) :
  cidr_block vpc = None →
  ∃ e, (to_graphviz_in it vpc).2 = Raise e.
Proof.
  intros Hcidr. apply raises_or_not. intros out Hout.
  apply to_graphviz_Ok in Hout as (vpc' & ctx & Hlayout).
  apply layout_vpc_name in Hlayout. unfold vpc_name in Hlayout.
  by rewrite Hcidr in Hlayout.
Qed.

(** The graph as [VPC.__init__] leaves it. *)
Lemma to_graphviz_unscanned_raises_at_new :
  cidr_block (mkVPC "vpc-0" EmptyString None [] ∅ [] ∅) = None
  ∧ ∃ e, (to_graphviz_in [] (mkVPC "vpc-0" EmptyString None [] ∅ [] ∅)).2 = Raise e.
Proof.
  split; [reflexivity|].
  apply (to_graphviz_unscanned_raises [] (mkVPC "vpc-0" EmptyString None [] ∅ [] ∅)).
  reflexivity.
Defined.

(** X5.  A resource whose name begins with [arn] and has fewer than six
    elements between colons has no id; a graph that holds one cannot be
    rendered. *)
Theorem arn_like_name_raises (it : list Relation) (vpc : VPC)
    (v : ServiceInstance) :
  v ∈ services vpc →
  startswith "arn" (instance_name v) = true →
  length (split ":" (instance_name v)) < 6 →
  Service.id v = Raise IndexError
  ∧ ∃ e, (to_graphviz_in it vpc).2 = Raise e.
Proof.
  intros Hv Harn Hlen.
  assert (Hid : Service.id v = Raise IndexError).
  { unfold Service.id. by rewrite Harn, parse_arn_short. }
  split; [exact Hid|].
  apply raises_or_not. intros out Hout.
  apply to_graphviz_Ok in Hout as (vpc' & ctx & Hlayout).
  destruct (layout_Ok it vpc vpc' ctx Hlayout)
    as (connected & ps & r & _ & Hps & _).
  apply mapM_Forall2 in Hps.
  destruct (Forall2_elem_l _ _ _ _ Hps Hv) as (p & _ & Hp).
  apply profile_inv in Hp as (_ & _ & Hp & _). by rewrite Hid in Hp.
Qed.

(** An Auto Scaling group called [arnold]. *)
Lemma arn_like_name_raises_at_arnold :
  MoreSamples.asg_arnold ∈ services MoreSamples.arnold_vpc
  ∧ startswith "arn" (instance_name MoreSamples.asg_arnold) = true
  ∧ length (split ":" (instance_name MoreSamples.asg_arnold)) < 6
  ∧ Service.id MoreSamples.asg_arnold = Raise IndexError
  ∧ ∃ e, (to_graphviz_in [] MoreSamples.arnold_vpc).2 = Raise e.
Proof.
  assert (H1 : MoreSamples.asg_arnold ∈ services MoreSamples.arnold_vpc)
    by (apply list_elem_of_singleton; reflexivity).
  assert (H2 : startswith "arn" (instance_name MoreSamples.asg_arnold) = true)
    by reflexivity.
  assert (H3 : length (split ":" (instance_name MoreSamples.asg_arnold)) < 6)
    by (vm_compute; lia).
  split; [exact H1|]. split; [exact H2|]. split; [exact H3|].
  exact (arn_like_name_raises [] MoreSamples.arnold_vpc
           MoreSamples.asg_arnold H1 H2 H3).
Defined.

End Failures.

(** ** Graphviz identifiers: [graphviz_id] *)

Section Identifiers.

Lemma graphviz_id_cons (c : ascii) (s : string) :
  graphviz_id (String c s)
  = if Ascii.eqb c " " || Ascii.eqb c "-" || Ascii.eqb c "/"
    then String "_" (graphviz_id s)
    else if Ascii.eqb c "." then graphviz_id s
    else String c (graphviz_id s).
Proof. reflexivity. Qed.

(** What the table does with one character. *)
Lemma graphviz_id_cases (c : ascii) (s : string) :
  (graphviz_id (String c s) = String "_" (graphviz_id s)
   ∧ (c = " " ∨ c = "-" ∨ c = "/"))%char
  ∨ (graphviz_id (String c s) = graphviz_id s ∧ c = "."%char)
  ∨ (graphviz_id (String c s) = String c (graphviz_id s)
     ∧ c ≠ " " ∧ c ≠ "-" ∧ c ≠ "/" ∧ c ≠ ".")%char.
Proof.
  rewrite graphviz_id_cons.
  destruct (Ascii.eqb_spec c " ") as [->|N1]; [left; auto|].
  destruct (Ascii.eqb_spec c "-") as [->|N2]; [left; auto|].
  destruct (Ascii.eqb_spec c "/") as [->|N3]; [left; auto|].
  destruct (Ascii.eqb_spec c ".") as [->|N4]; [right; left; auto|].
  right; right. auto.
Qed.

Lemma graphviz_id_app (s t : string) :
  graphviz_id (s +:+ t) = graphviz_id s +:+ graphviz_id t.
Proof.
  induction s as [|c s IH]; [done|]. rewrite str_app_cons.
  rewrite !graphviz_id_cons, IH.
  destruct (_ || _ || _); [done|]. by destruct (Ascii.eqb c ".").
Qed.

(** X6.  The identifier holds none of the four characters of the table, and
    translating it again changes nothing. *)
Theorem graphviz_id_clean (s : string) :
  contains_char " " (graphviz_id s) = false
  ∧ contains_char "-" (graphviz_id s) = false
  ∧ contains_char "/" (graphviz_id s) = false
  ∧ contains_char "." (graphviz_id s) = false
  ∧ graphviz_id (graphviz_id s) = graphviz_id s.
Proof.
  induction s as [|c s (H1 & H2 & H3 & H4 & H5)]; [done|].
  destruct (graphviz_id_cases c s)
    as [[-> _] | [[-> _] | (-> & N1 & N2 & N3 & N4)]].
  - rewrite !contains_char_cons, H1, H2, H3, H4.
    change (String "_" (graphviz_id s)) with ("_" +:+ graphviz_id s).
    by rewrite graphviz_id_app, H5.
  - done.
  - rewrite !contains_char_cons, H1, H2, H3, H4, graphviz_id_cons, H5.
    destruct (Ascii.eqb_spec " " c) as [<-|_]; [done|].
    destruct (Ascii.eqb_spec "-" c) as [<-|_]; [done|].
    destruct (Ascii.eqb_spec "/" c) as [<-|_]; [done|].
    destruct (Ascii.eqb_spec "." c) as [<-|_]; [done|].
    destruct (Ascii.eqb_spec c " ") as [->|_]; [done|].
    destruct (Ascii.eqb_spec c "-") as [->|_]; [done|].
    destruct (Ascii.eqb_spec c "/") as [->|_]; [done|].
    by destruct (Ascii.eqb_spec c ".") as [->|_].
Qed.

(** X7.  Distinct ids can share an identifier: a space, a dash and a slash all
    become the underscore that an id may hold already, and a dot is
    dropped. *)
Theorem graphviz_id_collisions (s t : string) :
  graphviz_id (s +:+ "-" +:+ t) = graphviz_id (s +:+ "_" +:+ t)
  ∧ graphviz_id (s +:+ " " +:+ t) = graphviz_id (s +:+ "_" +:+ t)
  ∧ graphviz_id (s +:+ "/" +:+ t) = graphviz_id (s +:+ "_" +:+ t)
  ∧ graphviz_id (s +:+ "." +:+ t) = graphviz_id (s +:+ t).
Proof. by rewrite !graphviz_id_app. Qed.

End Identifiers.

(** ** The sort key of a subnet: [cidr_sort] *)

Section Cidr.
Import MoreVocabulary.

Lemma str_rev_snoc (s : string) (a : ascii) :
  String.rev (s +:+ String a EmptyString) = String a (String.rev s).
Proof.
  induction s as [|b s IH]; [done|].
  by rewrite str_app_cons, !str_rev_cons, IH, str_app_cons.
Qed.

Lemma str_rev_involutive (s : string) : String.rev (String.rev s) = s.
Proof.
  induction s as [|a s IH]; [done|]. by rewrite str_rev_cons, str_rev_snoc, IH.
Qed.

Lemma decimal_nil : decimal EmptyString.
Proof. by intros c. Qed.

Lemma decimal_cons (a : ascii) (s : string) :
  digit a ≠ None → decimal s → decimal (String a s).
Proof.
  intros Ha Hs c. rewrite contains_char_cons.
  destruct (Ascii.eqb_spec c a) as [->|_]; [done | apply Hs].
Qed.

Lemma decimal_app (s t : string) : decimal s → decimal t → decimal (s +:+ t).
Proof.
  intros Hs Ht c. rewrite contains_char_app.
  intros [H|H]%orb_true_iff; [by apply Hs | by apply Ht].
Qed.

Lemma decimal_rev (s : string) : decimal s → decimal (String.rev s).
Proof.
  induction s as [|a s IH]; [done|]. intros H. rewrite str_rev_cons.
  apply decimal_app.
  - apply IH. intros c Hc. apply H. rewrite contains_char_cons, Hc.
    by destruct (Ascii.eqb c a).
  - apply decimal_cons; [|apply decimal_nil]. apply H.
    by rewrite contains_char_cons, Ascii.eqb_refl.
Qed.

Lemma decimal_lstrip (s : string) : decimal s → lstrip s = s.
Proof.
  destruct s as [|a s]; [done|]. intros H. simpl.
  assert (Ha : digit a ≠ None)
    by (apply H; by rewrite contains_char_cons, Ascii.eqb_refl).
  destruct (is_space a) eqn:Hsp; [|done]. exfalso. apply Ha.
  unfold digit, is_space in *.
  destruct (48 <=? code a)%N eqn:E1; [|done].
  destruct (code a <=? 57)%N eqn:E2; [|done]. simpl.
  apply N.leb_le in E1, E2.
  apply orb_true_iff in Hsp as [Hsp|Hsp];
    apply andb_true_iff in Hsp as [H1 H2]; apply N.leb_le in H1, H2; lia.
Qed.

Lemma decimal_strip (s : string) : decimal s → strip s = s.
Proof.
  intros H. unfold strip. rewrite (decimal_lstrip s H).
  rewrite decimal_lstrip by (by apply decimal_rev). apply str_rev_involutive.
Qed.

Lemma decimal_no_char (c : ascii) (s : string) :
  digit c = None → decimal s → contains_char c s = false.
Proof.
  intros Hc Hs. destruct (contains_char c s) eqn:E; [|done].
  by destruct (Hs c E).
Qed.

Lemma decimal_of_uint (d : Decimal.uint) :
  decimal (NilEmpty.string_of_uint d).
Proof.
  induction d; simpl; try apply decimal_nil; by apply decimal_cons.
Qed.

Lemma decimal_str_of_nat (n : nat) : decimal (str_of_nat n).
Proof.
  unfold str_of_nat, NilZero.string_of_uint.
  destruct (Nat.to_uint n); try apply (decimal_of_uint (_ _)).
  by apply decimal_cons; [|apply decimal_nil].
Qed.

(** The digits of a numeral, read from the left. *)
Lemma digits_of_uint (d : Decimal.uint) (acc : nat) (b : bool) :
  d ≠ Decimal.Nil ∨ b = true →
  digits (Z.of_nat acc) b (NilEmpty.string_of_uint d)
  = Some (Z.of_nat (Nat.of_uint_acc d acc)).
Proof.
  revert acc b.
  induction d as [|d IH|d IH|d IH|d IH|d IH|d IH|d IH|d IH|d IH|d IH];
    intros acc b Hb;
    [by destruct Hb as [?| ->]|..];
    cbn [NilEmpty.string_of_uint digits Nat.of_uint_acc];
    match goal with
    | |- context [digit ?c] =>
        let v := eval vm_compute in (digit c) in
        change (digit c) with v; cbv iota
    end;
    rewrite <-(IH _ true) by (by right); f_equal;
    rewrite Nat.tail_mul_spec; lia.
Qed.

Lemma digits_str_of_nat (n : nat) :
  digits 0 false (str_of_nat n) = Some (Z.of_nat n).
Proof.
  unfold str_of_nat, NilZero.string_of_uint.
  rewrite <-(DecimalNat.Unsigned.of_to n) at 2. unfold Nat.of_uint.
  destruct (Nat.to_uint n) as [|d|d|d|d|d|d|d|d|d|d] eqn:E; [done|..];
    apply (digits_of_uint _ 0 false); by left.
Qed.

(** [int(str(n)) == n] *)
Lemma int_str_of_nat (n : nat) : int (str_of_nat n) = Ok (Z.of_nat n).
Proof.
  pose proof (decimal_str_of_nat n) as Hd.
  unfold int. rewrite (decimal_strip _ Hd).
  pose proof (digits_str_of_nat n) as Hn.
  destruct (str_of_nat n) as [|c s] eqn:E; [done|].
  assert (Hc : digit c ≠ None)
    by (apply Hd; by rewrite contains_char_cons, Ascii.eqb_refl).
  destruct (Ascii.eqb_spec c "+") as [->|N1]; [done|].
  destruct (Ascii.eqb_spec c "-") as [->|N2]; [done|].
  assert (Hbody : match digits 0 false (String c s) with
                  | Some n => Ok (1 * n)%Z
                  | None => Raise ValueError
                  end = Ok (Z.of_nat n)).
  { rewrite Hn. f_equal. lia. }
  destruct c as [[] [] [] [] [] [] [] []]; try exact Hbody; done.
Qed.

Lemma mapM_int_str_of_nat (ns : list nat) :
  mapM int (map str_of_nat ns) = Ok (map Z.of_nat ns).
Proof.
  induction ns as [|n ns IH]; [done|]. simpl.
  by rewrite int_str_of_nat, IH.
Qed.



End Cidr.

(** ** The connected set *)

Section Connected.
Import MoreVocabulary.

Lemma connected_step_spec (c c' : gset string) (v : ServiceInstance)
    (x : string) :
  connected_step c v = Ok c' →
  x ∈ c' ↔ x ∈ c ∨ (always_connected (service_name v) = true
                     ∧ Service.id v = Ok x).
Proof.
  unfold connected_step, always_connected.
  rewrite bind_Ok. intros (c1 & H1 & H2).
  destruct (str_in (service_name v) STORAGE || str_in (service_name v) COMPUTE)
    eqn:E1; simpl.
  - apply bind_Ok in H1 as (i & Hi & [= <-]).
    destruct (String.eqb (service_name v) "HZ").
    + apply bind_Ok in H2 as (i' & Hi' & [= <-]).
      rewrite Hi in Hi'. injection Hi' as <-. rewrite Hi.
      rewrite !elem_of_union, !elem_of_singleton. naive_solver.
    + injection H2 as <-. rewrite Hi.
      rewrite !elem_of_union, !elem_of_singleton. naive_solver.
  - injection H1 as <-.
    destruct (String.eqb (service_name v) "HZ").
    + apply bind_Ok in H2 as (i' & Hi' & [= <-]). rewrite Hi'.
      rewrite !elem_of_union, !elem_of_singleton. naive_solver.
    + injection H2 as <-. naive_solver.
Qed.

Lemma connected_loop_spec (svcs : list ServiceInstance) (c c' : gset string)
    (x : string) :
  foldM connected_step c svcs = Ok c' →
  x ∈ c' ↔ x ∈ c ∨ ∃ v, v ∈ svcs ∧ always_connected (service_name v) = true
                         ∧ Service.id v = Ok x.
Proof.
  revert c. induction svcs as [|v svcs IH]; intros c.
  - intros [= <-]. split; [by left|]. intros [H | (v & Hv & _)]; [done|].
    by apply not_elem_of_nil in Hv.
  - rewrite foldM_cons, bind_Ok. intros (c1 & H1 & H2).
    rewrite (IH c1 H2), (connected_step_spec c c1 v x H1).
    setoid_rewrite elem_of_cons. naive_solver.
Qed.

(** X9.  A resource id is connected exactly when a relation of the graph
    names it, or it is the id of a storage or compute resource or of a
    hosted zone. *)
Theorem connected_set_spec (it : list Relation) (vpc : VPC)
    (connected : gset string) (x : string) :
  it ≡ₚ elements (relations vpc) →
  connected_set it vpc = Ok connected →
  x ∈ connected
  ↔ referenced vpc x
    ∨ ∃ v, v ∈ services vpc ∧ always_connected (service_name v) = true
           ∧ Service.id v = Ok x.
Proof.
  intros Hit Hc. unfold connected_set in Hc.
  rewrite (connected_loop_spec _ _ _ x Hc).
  rewrite elem_of_list_to_set, elem_of_app, !list_elem_of_fmap.
  unfold referenced. setoid_rewrite <-elem_of_elements.
  setoid_rewrite <-Hit. naive_solver.
Qed.

(** The sample graph: a relation names the interface. *)
Lemma connected_set_spec_at_routed :
  ∃ connected,
    connected_set [mkRelation "i-1" "eni-1"; mkRelation "i-1" "sg-1";
                   mkRelation "rtb-1" "eni-1"] routed_vpc = Ok connected
    ∧ ("eni-1" ∈ connected
       ↔ referenced routed_vpc "eni-1"
         ∨ ∃ v, v ∈ services routed_vpc
                ∧ always_connected (service_name v) = true
                ∧ Service.id v = Ok "eni-1").
Proof.
  assert (Hc : ∃ connected,
             connected_set [mkRelation "i-1" "eni-1"; mkRelation "i-1" "sg-1";
                            mkRelation "rtb-1" "eni-1"] routed_vpc
             = Ok connected) by (eexists; vm_compute; reflexivity).
  destruct Hc as [connected Hc]. exists connected. split; [exact Hc|].
  apply (connected_set_spec
           [mkRelation "i-1" "eni-1"; mkRelation "i-1" "sg-1";
            mkRelation "rtb-1" "eni-1"] routed_vpc connected "eni-1");
    [|exact Hc].
  apply enumeration_perm; [by apply (bool_decide_unpack _); vm_compute|].
  intros x. unfold routed_vpc. cbn [relations].
  rewrite !elem_of_cons, elem_of_nil, !elem_of_union, !elem_of_singleton.
  tauto.
Defined.

End Connected.

(** ** The name of the output file: [Region.to_graphviz] *)

Section FileTitle.

Lemma fix_file_name_cons (c : ascii) (s : string) :
  Region.fix_file_name (String c s)
  = if Ascii.eqb c " " then String "-" (Region.fix_file_name s)
    else if Ascii.eqb c "\" || Ascii.eqb c "/"
    then String "_" (Region.fix_file_name s)
    else if Ascii.eqb c "." then Region.fix_file_name s
    else String c (Region.fix_file_name s).
Proof. reflexivity. Qed.

Lemma fix_file_name_app (s t : string) :
  Region.fix_file_name (s +:+ t)
  = Region.fix_file_name s +:+ Region.fix_file_name t.
Proof.
  induction s as [|c s IH]; [done|].
  rewrite str_app_cons, !fix_file_name_cons, IH.
  destruct (Ascii.eqb c " "); [done|].
  destruct (_ || _); [done|]. by destruct (Ascii.eqb c ".").
Qed.

Lemma fix_file_name_clean (s : string) :
  contains_char " " (Region.fix_file_name s) = false
  ∧ contains_char "\" (Region.fix_file_name s) = false
  ∧ contains_char "/" (Region.fix_file_name s) = false
  ∧ contains_char "." (Region.fix_file_name s) = false.
Proof.
  induction s as [|c s (H1 & H2 & H3 & H4)]; [done|].
  rewrite fix_file_name_cons.
  destruct (Ascii.eqb_spec c " ") as [->|N1];
    [by rewrite !contains_char_cons, H1, H2, H3, H4|].
  destruct (Ascii.eqb_spec c "\") as [->|N2];
    [cbv [orb]; by rewrite !contains_char_cons, H1, H2, H3, H4|].
  destruct (Ascii.eqb_spec c "/") as [->|N3];
    [cbv [orb]; by rewrite !contains_char_cons, H1, H2, H3, H4|].
  destruct (Ascii.eqb_spec c ".") as [->|N4]; [done|]. cbv [orb].
  rewrite !contains_char_cons, H1, H2, H3, H4.
  destruct (Ascii.eqb_spec " " c) as [<-|_]; [done|].
  destruct (Ascii.eqb_spec "\" c) as [<-|_]; [done|].
  destruct (Ascii.eqb_spec "/" c) as [<-|_]; [done|].
  by destruct (Ascii.eqb_spec "." c) as [<-|_].
Qed.

(** X10.  Whatever the id and the name of the graph, the title of its file
    holds no space, no backslash, no slash and no dot, and it holds the
    underscore that joins the id and the name. *)
Theorem file_title_safe (v : VPC) :
  contains_char " " (Region.file_title v) = false
  ∧ contains_char "\" (Region.file_title v) = false
  ∧ contains_char "/" (Region.file_title v) = false
  ∧ contains_char "." (Region.file_title v) = false
  ∧ contains_char "_" (Region.file_title v) = true.
Proof.
  destruct (fix_file_name_clean (Vpc.id v +:+ "_" +:+ Vpc.name v))
    as (H1 & H2 & H3 & H4).
  split_and!; try done.
  unfold Region.file_title. rewrite !fix_file_name_app, !contains_char_app.
  change (Region.fix_file_name "_") with "_".
  by rewrite orb_true_r.
Qed.

End FileTitle.

(** ** The cost of a graph: [VPC.cost_per_month] *)

Section Cost.
Open Scope Q_scope.

Lemma price_nonneg (t : string) (table : list (string * Q)) :
  Forall (fun kv => 0 <= kv.2) table → 0 <= default 0 (get t table).
Proof.
  induction 1 as [|[k q] table Hq _ IH]; simpl; [done|].
  by destruct (String.eqb t k).
Qed.

Lemma service_cost_nonneg (v : ServiceInstance) :
  0 <= Service.cost_per_month v.
Proof.
  unfold Service.cost_per_month.
  assert (Hec2 : ∀ t, 0 <= default 0 (get t EC2_COST_PER_TYPE)).
  { intros t. apply price_nonneg. by repeat constructor. }
  assert (Hrds : ∀ t, 0 <= default 0 (get t RDS_COST_PER_TYPE)).
  { intros t. apply price_nonneg. by repeat constructor. }
  destruct (class v) as [| |t| | | | | | |t| | | |]; try done.
  - specialize (Hec2 t). lra.
  - destruct (truthy _); done.
  - specialize (Hrds t). lra.
Qed.

Lemma sum_from (l : list Q) (a : Q) :
  fold_left Qplus l a == a + fold_left Qplus l 0.
Proof.
  revert a. induction l as [|q l IH]; intros a; simpl; [lra|].
  rewrite (IH (a + q)), (IH (0 + q)). lra.
Qed.

Lemma sum_nonneg (l : list Q) :
  Forall (fun q => 0 <= q) l →
  0 <= fold_left Qplus l 0
  ∧ (fold_left Qplus l 0 == 0 ↔ Forall (fun q => q == 0) l).
Proof.
  induction 1 as [|q l Hq _ [IH1 IH2]]; simpl.
  - split; [done|]. split; [by constructor | done].
  - rewrite sum_from. split; [lra|]. rewrite Forall_cons, <-IH2.
    split; [intros ?; split; lra | intros [? ?]; lra].
Qed.

(** X11.  The monthly cost of a graph is never negative, and it is zero
    exactly when each of its resources is free. *)
Theorem vpc_cost_zero (self : VPC) :
  0 <= Scan.cost_per_month self
  ∧ (Scan.cost_per_month self == 0
     ↔ Forall (fun v => Service.cost_per_month v == 0) (services self)).
Proof.
  unfold Scan.cost_per_month.
  destruct (sum_nonneg (map Service.cost_per_month (services self)))
    as [H1 H2].
  { apply Forall_fmap, Forall_forall. intros v _. apply service_cost_nonneg. }
  split; [exact H1|]. by rewrite H2, Forall_fmap.
Qed.

End Cost.

(** ** The scan: what every method keeps *)

Section Keeps.
Import MoreVocabulary.
Import Scan.

Lemma preserves_ret {A} (J : VPC → Prop) (a : A) : preserves J (mret a : M A).
Proof. by intros self. Qed.

Lemma preserves_lift {A} (J : VPC → Prop) (o : outcome A) :
  preserves J (lift o).
Proof. by intros self. Qed.

Lemma preserves_self_id (J : VPC → Prop) : preserves J self_id.
Proof. by intros self. Qed.

Lemma preserves_bind {A B} (J : VPC → Prop) (m : M A) (k : A → M B) :
  preserves J m → (∀ a, preserves J (k a)) → preserves J (m ≫= k).
Proof.
  intros Hm Hk self Hs. unfold mbind, M_bind. specialize (Hm self Hs).
  destruct (m self) as [self' [a|e]]; [by apply Hk | done].
Qed.

(** A value that is read keeps the equation that it came from. *)
Lemma preserves_lift_bind {A B} (J : VPC → Prop) (o : outcome A)
    (k : A → M B) :
  (∀ a, o = Return a → preserves J (k a)) → preserves J (lift o ≫= k).
Proof.
  intros Hk self Hs. unfold mbind, M_bind, lift.
  destruct o as [a|e]; [by apply Hk | done].
Qed.

Lemma preserves_loop {A} (J : VPC → Prop) (l : list A) (body : A → M unit) :
  (∀ x, preserves J (body x)) → preserves J (loop l body).
Proof.
  intros Hbody. induction l as [|x l IH]; [by apply preserves_ret|].
  simpl. apply preserves_bind; [apply Hbody | by intros _].
Qed.

(** After [m], the rest runs with the stronger [J']. *)
Lemma preserves_then {A B} (J J' : VPC → Prop) (m : M A) (k : A → M B) :
  (∀ self, J self → J' (m self).1) → (∀ self, J' self → J self) →
  (∀ a, preserves J' (k a)) → preserves J (m ≫= k).
Proof.
  intros Hm Hweak Hk self Hs. unfold mbind, M_bind. specialize (Hm self Hs).
  destruct (m self) as [self' [a|e]]; apply Hweak; [by apply Hk | done].
Qed.

(** The first steps of a method, one at a time. *)
Lemma bind_self_id {B} (k : string → M B) (self : VPC) :
  (self_id ≫= k) self = k (Vpc.id self) self.
Proof. reflexivity. Qed.

Lemma bind_lift_Return {A B} (a : A) (k : A → M B) (self : VPC) :
  (lift (Return a) ≫= k) self = k a self.
Proof. reflexivity. Qed.

Lemma bind_lift_Throw {A B} (e : error) (k : A → M B) (self : VPC) :
  (lift (Throw e) ≫= k) self = (self, Throw e).
Proof. reflexivity. Qed.

Lemma bind_set_cidr_block {B} (c : string) (k : unit → M B) (self : VPC) :
  (set_cidr_block c ≫= k) self = k tt (with_cidr_block self c).
Proof. reflexivity. Qed.

Lemma bind_set_name {B} (n : string) (k : unit → M B) (self : VPC) :
  (set_name n ≫= k) self = k tt (with_name self n).
Proof. reflexivity. Qed.

End Keeps.

(** The methods of the scan keep every property of the graph that its
    elementary changes keep.  [I ks] is the property when the ids [ks]
    are known to be stored; [good k v] is what it asks of a resource [v]
    that is stored under [k]. *)
Section Invariants.
Import MoreVocabulary.
Import Scan.

Variable I : list string → VPC → Prop.
Variable good : string → ServiceInstance → Prop.

Hypothesis I_weaken : ∀ k ks self, I (k :: ks) self → I ks self.
Hypothesis I_set_service : ∀ ks k v self,
  good k v → I ks self → I (k :: ks) (set_service k v self).1.
Hypothesis I_add_relation : ∀ ks src trg,
  preserves (I ks) (add_relation src trg).
Hypothesis I_subnets_append : ∀ ks sn x,
  x ∈ ks → preserves (I ks) (subnets_append sn x).
Hypothesis I_service_ids_append : ∀ ks az x,
  x ∈ ks → preserves (I ks) (azs_service_ids_append az x).
Hypothesis I_subnet_ids_append : ∀ ks az x,
  x ∈ ks → preserves (I ks) (azs_subnet_ids_append az x).
Hypothesis I_services_append : ∀ ks az x,
  preserves (I ks) (azs_services_append az x).
Hypothesis I_set_cidr_block : ∀ ks c, preserves (I ks) (set_cidr_block c).
Hypothesis I_set_name : ∀ ks n, preserves (I ks) (set_name n).

Hypothesis good_ASG : ∀ k d, good k (new AutoServiceGroup d "ASG" k).
Hypothesis good_EC2 : ∀ k d t, good k (new (EC2Instance t) d "EC2" k).
Hypothesis good_EKS : ∀ k d, good k (new EksCluster d "EKS" k).
Hypothesis good_ELBv1 : ∀ k d, good k (new LoadBalancer d "ELBv1" k).
Hypothesis good_ELBv2 : ∀ k d, good k (new LoadBalancer d "ELBv2" k).
Hypothesis good_HZ : ∀ k d, good k (new HostedZone d "HZ" k).
Hypothesis good_TG : ∀ k d, good k (new TargetGroup d "TG" k).
Hypothesis good_ENI : ∀ k d, good k (new NetworkInterface d "ENI" k).
Hypothesis good_IGW : ∀ k d, good k (new ServiceInstanceC d "IGW" k).
Hypothesis good_Lambda : ∀ k d, good k (new LambdaFunction d "Lambda" k).
Hypothesis good_NAT : ∀ k d, good k (new NatGateway d "NAT" k).
Hypothesis good_RDS : ∀ k d t, good k (new (RdsInstance t) d "RDS" k).
Hypothesis good_SUBN : ∀ k d, good k (new Subnet d "SUBN" k).
Hypothesis good_EPT_I : ∀ k d, good k (new VpcEndpoint d "EPT-I" k).
Hypothesis good_EPT_GW : ∀ k d, good k (new VpcEndpoint d "EPT-GW" k).
Hypothesis good_EPT_GWLB : ∀ k d, good k (new VpcEndpoint d "EPT-GWLB" k).
Hypothesis good_VPGW : ∀ k d, good k (new ServiceInstanceC d "VPGW" k).
Hypothesis good_PEER : ∀ k d, good k (new ServiceInstanceC d "PEER" k).
Hypothesis good_ACL : ∀ k d, good k (new ServiceInstanceC d "ACL" k).
Hypothesis good_RTB : ∀ k d, good k (new ServiceInstanceC d "RTB" k).
Hypothesis good_SG : ∀ k d, good k (new SecurityGroup d "SG" k).

Lemma keeps_store {B} (ks : list string) (k : string) (v : ServiceInstance)
    (rest : unit → M B) :
  good k v → (∀ a, preserves (I (k :: ks)) (rest a)) →
  preserves (I ks) (set_service k v ≫= rest).
Proof.
  intros Hgood Hrest. apply (preserves_then _ (I (k :: ks))); [|apply I_weaken|done].
  intros self Hs. by apply I_set_service.
Qed.

Lemma keeps_store_last (ks : list string) (k : string) (v : ServiceInstance) :
  good k v → preserves (I ks) (set_service k v).
Proof.
  intros Hgood self Hs. apply (I_weaken k). by apply I_set_service.
Qed.

Lemma good_endpoint (d : Description) (k : string) (v : ServiceInstance) :
  VpcEndpoint_create d k = Return v → good k v.
Proof using good_EPT_I good_EPT_GW good_EPT_GWLB.
  unfold VpcEndpoint_create.
  destruct (str_item d "VpcEndpointType") as [t|]; [|done]. simpl.
  repeat (destruct (String.eqb t _); [by intros [= <-]|]). done.
Qed.

(** One step of a proof that a method keeps [I ks]. *)
Ltac keeps_step :=
  first
    [ apply preserves_ret
    | apply preserves_lift
    | apply preserves_self_id
    | apply I_add_relation
    | apply I_subnets_append; solve [repeat constructor]
    | apply I_service_ids_append; solve [repeat constructor]
    | apply I_subnet_ids_append; solve [repeat constructor]
    | apply I_services_append
    | apply I_set_cidr_block
    | apply I_set_name
    | apply keeps_store;
        [first [ by auto
               | by eapply good_endpoint
               | match goal with
                 | H1 : ?o = Return ?a, H2 : ?o = Return ?b |- _ =>
                     rewrite H1 in H2; injection H2 as ->; by auto
                 end ]
        | intros _]
    | apply keeps_store_last; by auto
    | apply preserves_lift_bind; intros ? ?
    | apply preserves_bind; [|intros ?]
    | apply preserves_loop; intros ?
    | match goal with
      | |- preserves _ (if ?b then _ else _) => destruct b
      | |- preserves _ (match ?x with _ => _ end) => destruct x
      | |- preserves _ (let _ := _ in _) => cbv zeta
      end ].

Ltac keeps := repeat keeps_step.

Lemma keeps_describe_asgs ks context :
  preserves (I ks) (describe_asgs context).
Proof using I_weaken I_set_service I_add_relation I_service_ids_append
  good_ASG.
  unfold describe_asgs. keeps.
Qed.

Lemma keeps_describe_ec2s ks context :
  preserves (I ks) (describe_ec2s context).
Proof using I_weaken I_set_service I_add_relation I_subnets_append
  I_service_ids_append good_EC2.
  unfold describe_ec2s. keeps.
Qed.

Lemma keeps_describe_ekss ks context :
  preserves (I ks) (describe_ekss context).
Proof using I_weaken I_set_service I_add_relation I_subnets_append good_EKS.
  unfold describe_ekss. keeps.
Qed.

Lemma keeps_describe_elbs ks context :
  preserves (I ks) (describe_elbs context).
Proof using I_weaken I_set_service I_add_relation I_subnets_append
  I_service_ids_append good_ELBv1.
  unfold describe_elbs, loop_filter. keeps.
Qed.

Lemma keeps_describe_elbsV2 ks context :
  preserves (I ks) (describe_elbsV2 context).
Proof using I_weaken I_set_service I_add_relation I_subnets_append
  I_service_ids_append good_ELBv2 good_HZ good_TG.
  unfold describe_elbsV2, loop_filter. keeps.
Qed.

Lemma keeps_describe_enis ks context :
  preserves (I ks) (describe_enis context).
Proof using I_weaken I_set_service I_subnets_append good_ENI.
  unfold describe_enis. keeps.
Qed.

Lemma keeps_describe_hosted_zones ks context :
  preserves (I ks) (describe_hosted_zones context).
Proof using I_weaken I_set_service good_HZ.
  unfold describe_hosted_zones. keeps.
Qed.

Lemma keeps_describe_igws ks context :
  preserves (I ks) (describe_igws context).
Proof using I_weaken I_set_service good_IGW.
  unfold describe_igws. keeps.
Qed.

Lemma keeps_describe_lambdas ks context :
  preserves (I ks) (describe_lambdas context).
Proof using I_weaken I_set_service I_add_relation I_subnets_append
  good_Lambda.
  unfold describe_lambdas. keeps.
Qed.

Lemma keeps_describe_nats ks context :
  preserves (I ks) (describe_nats context).
Proof using I_weaken I_set_service I_add_relation I_subnets_append good_NAT.
  unfold describe_nats. keeps.
Qed.

Lemma keeps_describe_rdss ks context :
  preserves (I ks) (describe_rdss context).
Proof using I_weaken I_set_service I_add_relation I_subnets_append
  I_service_ids_append good_RDS.
  unfold describe_rdss. keeps.
Qed.

Lemma keeps_describe_subnets ks context :
  preserves (I ks) (describe_subnets context).
Proof using I_weaken I_set_service I_subnet_ids_append good_SUBN.
  unfold describe_subnets. keeps.
Qed.

Lemma keeps_describe_vpc_epts ks context :
  preserves (I ks) (describe_vpc_epts context).
Proof using I_weaken I_set_service I_add_relation I_subnets_append
  good_EPT_I good_EPT_GW good_EPT_GWLB.
  unfold describe_vpc_epts. keeps.
Qed.

Lemma keeps_describe_vpgws ks context :
  preserves (I ks) (describe_vpgws context).
Proof using I_weaken I_set_service I_services_append good_VPGW.
  unfold describe_vpgws. keeps.
Qed.

Lemma keeps_describe_vpc_peering_connections ks context :
  preserves (I ks) (describe_vpc_peering_connections context).
Proof using I_weaken I_set_service good_PEER.
  unfold describe_vpc_peering_connections. keeps.
Qed.

Lemma keeps_describe_acls ks context :
  preserves (I ks) (describe_acls context).
Proof using I_weaken I_set_service I_add_relation good_ACL.
  unfold describe_acls. keeps.
Qed.

Lemma keeps_describe_rtbs ks context :
  preserves (I ks) (describe_rtbs context).
Proof using I_weaken I_set_service I_add_relation good_RTB.
  unfold describe_rtbs. keeps.
Qed.

Lemma keeps_describe_sgs ks context :
  preserves (I ks) (describe_sgs context).
Proof using I_weaken I_set_service I_add_relation good_SG.
  unfold describe_sgs. keeps.
Qed.

(** One step for [scan], which calls the methods. *)
Ltac keeps_calls :=
  repeat first
    [ apply keeps_describe_asgs | apply keeps_describe_ec2s
    | apply keeps_describe_ekss | apply keeps_describe_elbs
    | apply keeps_describe_elbsV2 | apply keeps_describe_enis
    | apply keeps_describe_hosted_zones | apply keeps_describe_igws
    | apply keeps_describe_lambdas | apply keeps_describe_nats
    | apply keeps_describe_rdss | apply keeps_describe_subnets
    | apply keeps_describe_vpc_epts | apply keeps_describe_vpgws
    | apply keeps_describe_vpc_peering_connections
    | apply keeps_describe_acls | apply keeps_describe_rtbs
    | apply keeps_describe_sgs
    | apply preserves_ret
    | apply preserves_bind; [|intros ?] ].

(** [scan] stops before it has changed the graph, or it sets the CIDR
    block and the name and goes on to the methods. *)
Lemma scan_cases ks context self :
  match describe_vpcs context (Vpc.id self) with
  | Return (d :: _) =>
      match str_item d "CidrBlock" with
      | Return c =>
          I ks (with_name (with_cidr_block self c) (name_of d (Vpc.id self)))
          → I ks (scan context self).1
      | Throw e => scan context self = (self, Throw e)
      end
  | Return [] => scan context self = (self, Throw (Builtin IndexError))
  | Throw e => scan context self = (self, Throw e)
  end.
Proof using I_weaken I_set_service I_add_relation I_subnets_append
  I_service_ids_append I_subnet_ids_append I_services_append
  good_ASG good_EC2 good_EKS good_ELBv1 good_ELBv2 good_HZ good_TG good_ENI
  good_IGW good_Lambda good_NAT good_RDS good_SUBN good_EPT_I good_EPT_GW
  good_EPT_GWLB good_VPGW good_PEER good_ACL good_RTB good_SG.
  unfold scan. rewrite bind_self_id.
  destruct (describe_vpcs context (Vpc.id self)) as [[|d rest]|e] eqn:Hvpcs;
    [done| |done].
  rewrite bind_lift_Return. cbn [first]. rewrite bind_lift_Return.
  destruct (str_item d "CidrBlock") as [c|e] eqn:Hcidr; [|done].
  rewrite bind_lift_Return, bind_set_cidr_block, bind_self_id, bind_set_name.
  cbn [Vpc.id with_cidr_block].
  match goal with
  | |- I ?ks ?s0 → I ?ks (?tail ?s0).1 =>
      assert (Htail : preserves (I ks) tail); [|apply Htail]
  end.
  destruct (negb _); keeps_calls.
Qed.

(** The same when the free resources are left out: nothing is asked of
    a network ACL, a route table or a security group. *)
Lemma scan_cases_free ks context self :
  ignore_free_resources (options context) = true →
  match describe_vpcs context (Vpc.id self) with
  | Return (d :: _) =>
      match str_item d "CidrBlock" with
      | Return c =>
          I ks (with_name (with_cidr_block self c) (name_of d (Vpc.id self)))
          → I ks (scan context self).1
      | Throw e => scan context self = (self, Throw e)
      end
  | Return [] => scan context self = (self, Throw (Builtin IndexError))
  | Throw e => scan context self = (self, Throw e)
  end.
Proof using I_weaken I_set_service I_add_relation I_subnets_append
  I_service_ids_append I_subnet_ids_append I_services_append
  good_ASG good_EC2 good_EKS good_ELBv1 good_ELBv2 good_HZ good_TG good_ENI
  good_IGW good_Lambda good_NAT good_RDS good_SUBN good_EPT_I good_EPT_GW
  good_EPT_GWLB good_VPGW good_PEER.
  intros Hfree. unfold scan. rewrite bind_self_id.
  destruct (describe_vpcs context (Vpc.id self)) as [[|d rest]|e] eqn:Hvpcs;
    [done| |done].
  rewrite bind_lift_Return. cbn [first]. rewrite bind_lift_Return.
  destruct (str_item d "CidrBlock") as [c|e] eqn:Hcidr; [|done].
  rewrite bind_lift_Return, bind_set_cidr_block, bind_self_id, bind_set_name.
  cbn [Vpc.id with_cidr_block].
  match goal with
  | |- I ?ks ?s0 → I ?ks (?tail ?s0).1 =>
      assert (Htail : preserves (I ks) tail); [|apply Htail]
  end.
  rewrite Hfree. cbn [negb]. keeps_calls.
Qed.

End Invariants.

(** ** The scan: the elementary changes of the graph *)

Section Changes.
Import MoreVocabulary.
Import Scan.

Lemma dict_get_set {V} (k k' : string) (v : V) (d : list (string * V)) :
  get k' (set k v d) = if String.eqb k' k then Some v else get k' d.
Proof.
  induction d as [|[k0 v0] d IH]; simpl.
  - by destruct (String.eqb k' k).
  - destruct (String.eqb_spec k k0) as [->|Hne]; simpl.
    + by destruct (String.eqb k' k0).
    + rewrite IH. destruct (String.eqb_spec k' k0) as [->|_]; [|done].
      by destruct (String.eqb_spec k0 k) as [->|_].
Qed.

Lemma elem_of_dict_set {V} (k k' : string) (v v' : V) (d : list (string * V)) :
  (k', v') ∈ set k v d → (k' = k ∧ v' = v) ∨ (k', v') ∈ d.
Proof.
  induction d as [|[k0 v0] d IH]; simpl.
  - intros [= -> ->]%list_elem_of_singleton. by left.
  - destruct (String.eqb_spec k k0) as [->|Hne].
    + intros [[= -> ->]|H]%elem_of_cons; [by left|]. right. by right.
    + intros [[= -> ->]|H]%elem_of_cons; [right; by left|].
      destruct (IH H) as [?|?]; [by left|]. right. by right.
Qed.

Lemma has_key_get {V} (k : string) (d : list (string * V)) :
  has_key k d = true ↔ get k d ≠ None.
Proof.
  rewrite has_key_true, get_None. split; [tauto|].
  intros H. by destruct (decide (k ∈ d.*1)).
Qed.

Lemma has_key_dict_set {V} (k k' : string) (v : V) (d : list (string * V)) :
  has_key k' (set k v d) = true ↔ k' = k ∨ has_key k' d = true.
Proof.
  rewrite !has_key_get, dict_get_set.
  destruct (String.eqb_spec k' k) as [->|Hne]; [by split; [left|]|].
  split; [by right | by intros [?|?]].
Qed.

Lemma dict_set_set {V} (k : string) (v v' : V) (d : list (string * V)) :
  set k v (set k v' d) = set k v d.
Proof.
  induction d as [|[k0 v0] d IH]; simpl.
  - by rewrite String.eqb_refl.
  - destruct (String.eqb_spec k k0) as [->|Hne]; simpl.
    + by rewrite String.eqb_refl.
    + destruct (String.eqb_spec k k0); [done|]. by rewrite IH.
Qed.

Lemma dict_set_get {V} (k : string) (v : V) (d : list (string * V)) :
  get k d = Some v → set k v d = d.
Proof.
  induction d as [|[k0 v0] d IH]; simpl; [done|].
  destruct (String.eqb_spec k k0) as [->|Hne].
  - by intros [= ->].
  - intros H. by rewrite IH.
Qed.

(** The graph after each elementary change. *)
Lemma set_service_state (k : string) (v : ServiceInstance) (self : VPC) :
  (set_service k v self).1 = with_services self (set k v (_services self)).
Proof. reflexivity. Qed.

Lemma add_relation_state (src trg : option string) (self : VPC) :
  (add_relation src trg self).1 = _add_relation self src trg.
Proof. reflexivity. Qed.

Lemma subnets_append_state (sn x : string) (self : VPC) :
  (subnets_append sn x self).1
  = with_subnets self
      (<[sn := default [] (subnets self !! sn) ++ [x]]> (subnets self)).
Proof.
  unfold subnets_append, subnets_getitem.
  destruct (subnets self !! sn) as [l|] eqn:Hl; simpl; [done|].
  unfold with_subnets. simpl. by rewrite insert_insert_eq.
Qed.

Lemma azs_getitem_state (az : string) (self : VPC) :
  azs_getitem az self
  = (with_azs self (set az (zone_at az self) (azs self)),
     Return (zone_at az self)).
Proof.
  unfold azs_getitem, zone_at.
  destruct (get az (azs self)) as [zone|] eqn:Hz; simpl; [|done].
  rewrite (dict_set_get _ _ _ Hz). by destruct self.
Qed.

Lemma azs_service_ids_append_state (az x : string) (self : VPC) :
  (azs_service_ids_append az x self).1
  = with_azs self
      (set az {| service_ids := service_ids (zone_at az self) ++ [x];
                 subnet_ids := subnet_ids (zone_at az self) |} (azs self)).
Proof.
  unfold azs_service_ids_append, mbind, M_bind.
  rewrite azs_getitem_state. unfold service_ids_append, with_azs. simpl.
  by rewrite dict_set_set.
Qed.

Lemma azs_subnet_ids_append_state (az x : string) (self : VPC) :
  (azs_subnet_ids_append az x self).1
  = with_azs self
      (set az {| service_ids := service_ids (zone_at az self);
                 subnet_ids := subnet_ids (zone_at az self) ++ [x] |}
           (azs self)).
Proof.
  unfold azs_subnet_ids_append, mbind, M_bind.
  rewrite azs_getitem_state. unfold subnet_ids_append, with_azs. simpl.
  by rewrite dict_set_set.
Qed.

Lemma azs_services_append_state (az x : string) (self : VPC) :
  azs_services_append az x self
  = (with_azs self (set az (zone_at az self) (azs self)),
     Throw (Builtin AttributeError)).
Proof.
  unfold azs_services_append, mbind, M_bind. by rewrite azs_getitem_state.
Qed.

Lemma add_relation_fields (self : VPC) (src trg : option string) :
  Vpc.id (_add_relation self src trg) = Vpc.id self
  ∧ Vpc.name (_add_relation self src trg) = Vpc.name self
  ∧ cidr_block (_add_relation self src trg) = cidr_block self
  ∧ _services (_add_relation self src trg) = _services self
  ∧ azs (_add_relation self src trg) = azs self
  ∧ subnets (_add_relation self src trg) = subnets self
  ∧ relations self ⊆ relations (_add_relation self src trg).
Proof.
  destruct src, trg; simpl; split_and!; try done. set_solver.
Qed.

Lemma zone_at_elem (az : string) (self : VPC) (x : string) :
  x ∈ service_ids (zone_at az self) ++ subnet_ids (zone_at az self) →
  ∃ zone, (az, zone) ∈ azs self
          ∧ x ∈ service_ids zone ++ subnet_ids zone.
Proof.
  unfold zone_at. destruct (get az (azs self)) as [zone|] eqn:Hz; simpl.
  - intros Hx. exists zone. split; [by apply get_Some_elem | done].
  - by intros ?%not_elem_of_nil.
Qed.

End Changes.

(** ** The scan: what the elementary changes leave alone *)

Section Frames.
Import MoreVocabulary.
Import Scan.

Lemma set_service_frame (k : string) (v : ServiceInstance) (self : VPC) :
  let self' := (set_service k v self).1 in
  Vpc.id self' = Vpc.id self ∧ Vpc.name self' = Vpc.name self
  ∧ cidr_block self' = cidr_block self ∧ relations self' = relations self
  ∧ azs self' = azs self ∧ subnets self' = subnets self.
Proof. done. Qed.

Lemma add_relation_frame (src trg : option string) (self : VPC) :
  let self' := (add_relation src trg self).1 in
  Vpc.id self' = Vpc.id self ∧ Vpc.name self' = Vpc.name self
  ∧ cidr_block self' = cidr_block self ∧ _services self' = _services self
  ∧ azs self' = azs self ∧ subnets self' = subnets self.
Proof.
  cbv zeta. rewrite add_relation_state.
  destruct (add_relation_fields self src trg) as (? & ? & ? & ? & ? & ? & _).
  done.
Qed.

Lemma subnets_append_frame (sn x : string) (self : VPC) :
  let self' := (subnets_append sn x self).1 in
  Vpc.id self' = Vpc.id self ∧ Vpc.name self' = Vpc.name self
  ∧ cidr_block self' = cidr_block self ∧ _services self' = _services self
  ∧ relations self' = relations self ∧ azs self' = azs self.
Proof. cbv zeta. by rewrite subnets_append_state. Qed.

Lemma azs_service_ids_append_frame (az x : string) (self : VPC) :
  let self' := (azs_service_ids_append az x self).1 in
  Vpc.id self' = Vpc.id self ∧ Vpc.name self' = Vpc.name self
  ∧ cidr_block self' = cidr_block self ∧ _services self' = _services self
  ∧ relations self' = relations self ∧ subnets self' = subnets self.
Proof. cbv zeta. by rewrite azs_service_ids_append_state. Qed.

Lemma azs_subnet_ids_append_frame (az x : string) (self : VPC) :
  let self' := (azs_subnet_ids_append az x self).1 in
  Vpc.id self' = Vpc.id self ∧ Vpc.name self' = Vpc.name self
  ∧ cidr_block self' = cidr_block self ∧ _services self' = _services self
  ∧ relations self' = relations self ∧ subnets self' = subnets self.
Proof. cbv zeta. by rewrite azs_subnet_ids_append_state. Qed.

Lemma azs_services_append_frame (az x : string) (self : VPC) :
  let self' := (azs_services_append az x self).1 in
  Vpc.id self' = Vpc.id self ∧ Vpc.name self' = Vpc.name self
  ∧ cidr_block self' = cidr_block self ∧ _services self' = _services self
  ∧ relations self' = relations self ∧ subnets self' = subnets self.
Proof. cbv zeta. by rewrite azs_services_append_state. Qed.

End Frames.

(** ** The scan: the resource map *)

Section StoredByName.
Import MoreVocabulary.
Import Scan.

Variable P : string → Prop.

Lemma stored_set_service (k : string) (v : ServiceInstance) (self : VPC) :
  instance_name v = k ∧ P (service_name v) →
  stored_by_name P self → stored_by_name P (set_service k v self).1.
Proof.
  intros Hgood Hs k' v' Hin. rewrite set_service_state in Hin. simpl in Hin.
  apply elem_of_dict_set in Hin as [[-> ->]|Hin]; [done | by apply Hs].
Qed.

Lemma stored_unchanged {A} (m : M A) :
  (∀ self, _services (m self).1 = _services self) →
  preserves (stored_by_name P) m.
Proof. intros Hm self Hs k v. rewrite Hm. apply Hs. Qed.

(** The scan keeps the resource map stored by name when [P] holds of the
    types that it stores. *)
Lemma stored_scan (context : Context) (self : VPC) :
  Forall P scanned_types →
  stored_by_name P self → stored_by_name P (scan context self).1.
Proof.
  intros HP Hself.
  unshelve epose proof
    (scan_cases (fun _ => stored_by_name P)
       (fun k v => instance_name v = k ∧ P (service_name v))
       _ _ _ _ _ _ _ _ _ _ _ _ _ _ _ _ _ _ _ _ _ _ _ _ _ _ _ _
       [] context self) as H.
  all: try (intros; split; [reflexivity|];
            apply (proj1 (Forall_forall _ _) HP); vm_compute;
            repeat first [left; reflexivity | right]).
  - done.
  - intros ks k v s. apply stored_set_service.
  - intros ks src trg. apply stored_unchanged. intros s.
    apply add_relation_frame.
  - intros ks sn x _. apply stored_unchanged. intros s.
    apply subnets_append_frame.
  - intros ks az x _. apply stored_unchanged. intros s.
    apply azs_service_ids_append_frame.
  - intros ks az x _. apply stored_unchanged. intros s.
    apply azs_subnet_ids_append_frame.
  - intros ks az x. apply stored_unchanged. intros s.
    apply azs_services_append_frame.
  - destruct (describe_vpcs context (Vpc.id self)) as [[|d rest]|e];
      [by rewrite H| |by rewrite H].
    destruct (str_item d "CidrBlock") as [c|e]; [|by rewrite H].
    by apply H.
Qed.

(** The same when the free resources are left out. *)
Lemma stored_scan_free (context : Context) (self : VPC) :
  ignore_free_resources (options context) = true →
  Forall P priced_types →
  stored_by_name P self → stored_by_name P (scan context self).1.
Proof.
  intros Hfree HP Hself.
  unshelve epose proof
    (scan_cases_free (fun _ => stored_by_name P)
       (fun k v => instance_name v = k ∧ P (service_name v))
       _ _ _ _ _ _ _ _ _ _ _ _ _ _ _ _ _ _ _ _ _ _ _ _ _
       [] context self Hfree) as H.
  all: try (intros; split; [reflexivity|];
            apply (proj1 (Forall_forall _ _) HP); vm_compute;
            repeat first [left; reflexivity | right]).
  - done.
  - intros ks k v s. apply stored_set_service.
  - intros ks src trg. apply stored_unchanged. intros s.
    apply add_relation_frame.
  - intros ks sn x _. apply stored_unchanged. intros s.
    apply subnets_append_frame.
  - intros ks az x _. apply stored_unchanged. intros s.
    apply azs_service_ids_append_frame.
  - intros ks az x _. apply stored_unchanged. intros s.
    apply azs_subnet_ids_append_frame.
  - intros ks az x. apply stored_unchanged. intros s.
    apply azs_services_append_frame.
  - destruct (describe_vpcs context (Vpc.id self)) as [[|d rest]|e];
      [by rewrite H| |by rewrite H].
    destruct (str_item d "CidrBlock") as [c|e]; [|by rewrite H].
    by apply H.
Qed.

End StoredByName.

(** ** The scan: the lists of the zones and of the subnets *)

Section References.
Import MoreVocabulary.
Import Scan.

Lemma known_ext (ks : list string) (self self' : VPC) :
  _services self' = _services self → azs self' = azs self →
  subnets self' = subnets self → known ks self → known ks self'.
Proof.
  unfold known, references_stored, contains.
  intros -> -> ->. done.
Qed.

Lemma known_set_service (ks : list string) (k : string) (v : ServiceInstance)
    (self : VPC) :
  known ks self → known (k :: ks) (set_service k v self).1.
Proof.
  intros [[Hz Hs] Hks].
  assert (Hgrow : ∀ x, contains self x = true
                       → contains (set_service k v self).1 x = true).
  { intros x Hx. unfold contains. rewrite set_service_state. simpl.
    apply has_key_dict_set. by right. }
  split; [split|].
  - intros z zone x Hin Hx. apply Hgrow. by eapply Hz.
  - intros sn l x Hl Hx. apply Hgrow. by eapply Hs.
  - apply Forall_cons. split.
    + unfold contains. rewrite set_service_state. simpl.
      apply has_key_dict_set. by left.
    + eapply Forall_impl; [exact Hks | exact Hgrow].
Qed.

Lemma known_subnets_append (ks : list string) (sn x : string) :
  x ∈ ks → preserves (known ks) (subnets_append sn x).
Proof.
  intros Hx self [[Hz Hs] Hks].
  assert (Hstored : contains self x = true)
    by (by apply (proj1 (Forall_forall _ _) Hks)).
  rewrite subnets_append_state. split; [split|]; [done| |done].
  intros sn' l y. unfold with_subnets. simpl.
  destruct (decide (sn' = sn)) as [->|Hne].
  - rewrite lookup_insert_eq. intros [= <-].
    intros [Hy| ->%list_elem_of_singleton]%elem_of_app; [|done].
    destruct (subnets self !! sn) as [l|] eqn:Hl; simpl in Hy.
    + by eapply Hs.
    + by apply not_elem_of_nil in Hy.
  - rewrite lookup_insert_ne by done. apply Hs.
Qed.

Lemma known_zone (ks : list string) (az : string) (zone : AvailabilityZone)
    (self : VPC) :
  (∀ x, x ∈ service_ids zone ++ subnet_ids zone → contains self x = true) →
  known ks self → known ks (with_azs self (set az zone (azs self))).
Proof.
  intros Hzone [[Hz Hs] Hks]. split; [split|]; [|done|done].
  intros z zone' x Hin Hx. simpl in Hin.
  apply elem_of_dict_set in Hin as [[-> ->]|Hin]; [by apply Hzone|].
  by eapply (Hz z zone').
Qed.

Lemma known_zone_at (ks : list string) (az : string) (self : VPC) (x : string) :
  known ks self →
  x ∈ service_ids (zone_at az self) ++ subnet_ids (zone_at az self) →
  contains self x = true.
Proof.
  intros [[Hz _] _] Hx. destruct (zone_at_elem az self x Hx) as (zone & ? & ?).
  by eapply Hz.
Qed.

Lemma known_service_ids_append (ks : list string) (az x : string) :
  x ∈ ks → preserves (known ks) (azs_service_ids_append az x).
Proof.
  intros Hx self Hs. rewrite azs_service_ids_append_state.
  apply known_zone; [|done]. simpl. intros y Hy.
  rewrite <-app_assoc, elem_of_app in Hy.
  destruct Hy as [Hy|Hy].
  - eapply known_zone_at; [done|]. apply elem_of_app. by left.
  - apply elem_of_cons in Hy as [->|Hy].
    + by apply (proj1 (Forall_forall _ _) (proj2 Hs)).
    + eapply known_zone_at; [done|]. apply elem_of_app. by right.
Qed.

Lemma known_subnet_ids_append (ks : list string) (az x : string) :
  x ∈ ks → preserves (known ks) (azs_subnet_ids_append az x).
Proof.
  intros Hx self Hs. rewrite azs_subnet_ids_append_state.
  apply known_zone; [|done]. simpl. intros y Hy.
  rewrite app_assoc, elem_of_app in Hy.
  destruct Hy as [Hy| ->%list_elem_of_singleton].
  - by eapply known_zone_at.
  - by apply (proj1 (Forall_forall _ _) (proj2 Hs)).
Qed.

Lemma known_services_append (ks : list string) (az x : string) :
  preserves (known ks) (azs_services_append az x).
Proof.
  intros self Hs. rewrite azs_services_append_state.
  apply known_zone; [|done]. intros y Hy. by eapply known_zone_at.
Qed.

Lemma known_scan (context : Context) (self : VPC) :
  references_stored self → references_stored (scan context self).1.
Proof.
  intros Hself.
  unshelve epose proof
    (scan_cases known (fun _ _ => True)
       _ _ _ _ _ _ _ _ _ _ _ _ _ _ _ _ _ _ _ _ _ _ _ _ _ _ _ _
       [] context self) as H.
  all: try done.
  - intros k ks s [? [_ ?]%Forall_cons]. by split.
  - intros ks k v s _. apply known_set_service.
  - intros ks src trg s. apply known_ext; apply add_relation_frame.
  - apply known_subnets_append.
  - apply known_service_ids_append.
  - apply known_subnet_ids_append.
  - apply known_services_append.
  - destruct (describe_vpcs context (Vpc.id self)) as [[|d rest]|e];
      [by rewrite H| |by rewrite H].
    destruct (str_item d "CidrBlock") as [c|e]; [|by rewrite H].
    apply H. split; [|done]. exact Hself.
Qed.

End References.

(** ** The scan: nothing is taken away *)

Section Extends.
Import MoreVocabulary.
Import Scan.

Lemma extends_refl (self : VPC) : extends self self.
Proof.
  split_and!; try done.
  - intros z zone Hz. by exists zone.
  - intros sn l Hl. by exists l.
Qed.

Lemma extends_trans (s1 s2 s3 : VPC) :
  extends s1 s2 → extends s2 s3 → extends s1 s3.
Proof.
  intros (Hid1 & Hk1 & Hr1 & Hz1 & Hs1) (Hid2 & Hk2 & Hr2 & Hz2 & Hs2).
  split_and!.
  - congruence.
  - auto.
  - set_solver.
  - intros z zone Hz. destruct (Hz1 z zone Hz) as (zone' & Hz' & ? & ?).
    destruct (Hz2 z zone' Hz') as (zone'' & ? & ? & ?).
    exists zone''. split_and!; [done | by etrans | by etrans].
  - intros sn l Hl. destruct (Hs1 sn l Hl) as (l' & Hl' & ?).
    destruct (Hs2 sn l' Hl') as (l'' & ? & ?).
    exists l''. split; [done | by etrans].
Qed.

(** A change that keeps the id, adds to the resource map and to the
    relations, and leaves the zones and the subnets alone. *)
Lemma extends_services (self self' : VPC) :
  Vpc.id self' = Vpc.id self →
  (∀ k, contains self k = true → contains self' k = true) →
  relations self ⊆ relations self' →
  azs self' = azs self → subnets self' = subnets self →
  extends self self'.
Proof.
  intros Hid Hk Hr Hz Hs. split_and!; try done.
  - intros z zone Hzone. exists zone. by rewrite Hz.
  - intros sn l Hl. exists l. by rewrite Hs.
Qed.

Lemma extends_set_service (k : string) (v : ServiceInstance) (self : VPC) :
  extends self (set_service k v self).1.
Proof.
  apply extends_services; try done.
  intros x Hx. unfold contains. rewrite set_service_state. simpl.
  apply has_key_dict_set. by right.
Qed.

Lemma extends_add_relation (src trg : option string) (self : VPC) :
  extends self (add_relation src trg self).1.
Proof.
  rewrite add_relation_state.
  destruct (add_relation_fields self src trg)
    as (Hid & _ & _ & Hsvc & Hazs & Hsub & Hrel).
  apply extends_services; try done.
  unfold contains. by rewrite Hsvc.
Qed.

Lemma extends_subnets_append (sn x : string) (self : VPC) :
  extends self (subnets_append sn x self).1.
Proof.
  rewrite subnets_append_state. split_and!; try done.
  - intros z zone Hz. by exists zone.
  - intros sn' l Hl. unfold with_subnets. simpl.
    destruct (decide (sn' = sn)) as [->|Hne].
    + rewrite lookup_insert_eq, Hl. eexists. split; [done|].
      by apply prefix_app_r.
    + rewrite lookup_insert_ne by done. by exists l.
Qed.

Lemma extends_zone (az : string) (zone : AvailabilityZone) (self : VPC) :
  service_ids (zone_at az self) `prefix_of` service_ids zone →
  subnet_ids (zone_at az self) `prefix_of` subnet_ids zone →
  extends self (with_azs self (set az zone (azs self))).
Proof.
  intros H1 H2. split_and!; try done.
  - intros z zone' Hz. simpl. rewrite dict_get_set.
    destruct (String.eqb_spec z az) as [->|Hne]; [|by exists zone'].
    exists zone. unfold zone_at in *. rewrite Hz in *. done.
  - intros sn l Hl. by exists l.
Qed.

Lemma extends_service_ids_append (az x : string) (self : VPC) :
  extends self (azs_service_ids_append az x self).1.
Proof.
  rewrite azs_service_ids_append_state.
  apply extends_zone; simpl; [by apply prefix_app_r | done].
Qed.

Lemma extends_subnet_ids_append (az x : string) (self : VPC) :
  extends self (azs_subnet_ids_append az x self).1.
Proof.
  rewrite azs_subnet_ids_append_state.
  apply extends_zone; simpl; [done | by apply prefix_app_r].
Qed.

Lemma extends_services_append (az x : string) (self : VPC) :
  extends self (azs_services_append az x self).1.
Proof. rewrite azs_services_append_state. by apply extends_zone. Qed.

Lemma extends_preserves {A} (s0 : VPC) (m : M A) :
  (∀ self, extends self (m self).1) → preserves (extends s0) m.
Proof. intros Hm self Hs. eapply extends_trans; [exact Hs | apply Hm]. Qed.

Lemma extends_scan (context : Context) (self : VPC) :
  extends self (scan context self).1.
Proof.
  unshelve epose proof
    (scan_cases (fun _ => extends self) (fun _ _ => True)
       _ _ _ _ _ _ _ _ _ _ _ _ _ _ _ _ _ _ _ _ _ _ _ _ _ _ _ _
       [] context self) as H.
  all: try done.
  - intros ks k v s _ Hs. eapply extends_trans; [exact Hs|].
    apply extends_set_service.
  - intros ks src trg. apply extends_preserves. intros s.
    apply extends_add_relation.
  - intros ks sn x _. apply extends_preserves. intros s.
    apply extends_subnets_append.
  - intros ks az x _. apply extends_preserves. intros s.
    apply extends_service_ids_append.
  - intros ks az x _. apply extends_preserves. intros s.
    apply extends_subnet_ids_append.
  - intros ks az x. apply extends_preserves. intros s.
    apply extends_services_append.
  - destruct (describe_vpcs context (Vpc.id self)) as [[|d rest]|e];
      [rewrite H; apply extends_refl| |rewrite H; apply extends_refl].
    destruct (str_item d "CidrBlock") as [c|e];
      [|rewrite H; apply extends_refl].
    apply H. split_and!; try done.
    + intros z zone Hz. by exists zone.
    + intros sn l Hl. by exists l.
Qed.

End Extends.

(** ** The scan: the name and the CIDR block *)

Section Fields.
Import MoreVocabulary.
Import Scan.

Lemma titled_unchanged {A} (i n c : string) (m : M A) :
  (∀ self, Vpc.id (m self).1 = Vpc.id self
           ∧ Vpc.name (m self).1 = Vpc.name self
           ∧ cidr_block (m self).1 = cidr_block self) →
  preserves (titled i n c) m.
Proof.
  intros Hm self (Hi & Hn & Hc). destruct (Hm self) as (Ha & Hb & Hd).
  unfold titled. by rewrite Ha, Hb, Hd.
Qed.

Lemma titled_scan (context : Context) (self : VPC) :
  match describe_vpcs context (Vpc.id self) with
  | Return (d :: _) =>
      match str_item d "CidrBlock" with
      | Return c =>
          titled (Vpc.id self) (name_of d (Vpc.id self)) c
                 (scan context self).1
      | Throw e => scan context self = (self, Throw e)
      end
  | Return [] => scan context self = (self, Throw (Builtin IndexError))
  | Throw e => scan context self = (self, Throw e)
  end.
Proof.
  destruct (describe_vpcs context (Vpc.id self)) as [[|d rest]|e] eqn:Hvpcs.
  - pose proof (scan_cases (fun _ _ => True) (fun _ _ => True)) as H.
    unshelve epose proof
      (H _ _ _ _ _ _ _ _ _ _ _ _ _ _ _ _ _ _ _ _ _ _ _ _ _ _ _ _
         [] context self) as H'; try done.
    by rewrite Hvpcs in H'.
  - destruct (str_item d "CidrBlock") as [c|e] eqn:Hcidr.
    + unshelve epose proof
        (scan_cases
           (fun _ => titled (Vpc.id self) (name_of d (Vpc.id self)) c)
           (fun _ _ => True)
           _ _ _ _ _ _ _ _ _ _ _ _ _ _ _ _ _ _ _ _ _ _ _ _ _ _ _ _
           [] context self) as H.
      all: try done.
      all: try (intros; apply titled_unchanged; intros ?;
                match goal with
                | |- context [(add_relation ?a ?b ?s).1] =>
                    destruct (add_relation_frame a b s) as (? & ? & ? & _)
                | |- context [(subnets_append ?a ?b ?s).1] =>
                    destruct (subnets_append_frame a b s) as (? & ? & ? & _)
                | |- context [(azs_service_ids_append ?a ?b ?s).1] =>
                    destruct (azs_service_ids_append_frame a b s)
                      as (? & ? & ? & _)
                | |- context [(azs_subnet_ids_append ?a ?b ?s).1] =>
                    destruct (azs_subnet_ids_append_frame a b s)
                      as (? & ? & ? & _)
                | |- context [(azs_services_append ?a ?b ?s).1] =>
                    destruct (azs_services_append_frame a b s)
                      as (? & ? & ? & _)
                end; done).
      rewrite Hvpcs, Hcidr in H. by apply H.
    + pose proof (scan_cases (fun _ _ => True) (fun _ _ => True)) as H.
      unshelve epose proof
        (H _ _ _ _ _ _ _ _ _ _ _ _ _ _ _ _ _ _ _ _ _ _ _ _ _ _ _ _
           [] context self) as H'; try done.
      by rewrite Hvpcs, Hcidr in H'.
  - pose proof (scan_cases (fun _ _ => True) (fun _ _ => True)) as H.
    unshelve epose proof
      (H _ _ _ _ _ _ _ _ _ _ _ _ _ _ _ _ _ _ _ _ _ _ _ _ _ _ _ _
         [] context self) as H'; try done.
    by rewrite Hvpcs in H'.
Qed.

End Fields.

(** ** The scan: the graph that it builds *)

Section Scanned.
Import MoreVocabulary MoreSamples.
Import Scan.

(** X12.  Whatever the provider answers and wherever the scan stops, every
    resource that it stores is stored under its own name: what was true
    of the resource map before is true of it afterwards. *)
Theorem scan_stores_by_name (context : Context) (self : VPC) :
  (∀ k v, (k, v) ∈ _services self → instance_name v = k) →
  ∀ k v, (k, v) ∈ _services (scan context self).1 → instance_name v = k.
Proof.
  intros Hself k v Hin.
  assert (H : stored_by_name (fun _ => True) (scan context self).1).
  { apply stored_scan; [by apply Forall_forall|].
    intros k' v' Hin'. split; [by apply Hself | done]. }
  by destruct (H k v Hin).
Qed.

(** The scan of a new graph with the sample provider. *)
Lemma scan_stores_by_name_at_small :
  (∀ k v, (k, v) ∈ _services (init "vpc-1") → instance_name v = k)
  ∧ ∀ k v, (k, v) ∈ _services (scan small_provider (init "vpc-1")).1
           → instance_name v = k.
Proof.
  assert (H : ∀ k v, (k, v) ∈ _services (init "vpc-1") → instance_name v = k)
    by (intros k v Hin; by apply not_elem_of_nil in Hin).
  split; [exact H|].
  exact (scan_stores_by_name small_provider (init "vpc-1") H).
Defined.

Lemma edge_raises (s t : ServiceInstance) (vpc : VPC) (e : exn) :
  level (service_name s) ≠ None → level (service_name t) ≠ None →
  edge (Some s) (Some t) vpc = Raise e → e = IndexError.
Proof.
  intros Hs Ht. unfold edge, edge_attrs.
  destruct (String.eqb (service_name s) "SUBN"); [done|].
  destruct (level (service_name s)) as [l1|]; [|done].
  destruct (level (service_name t)) as [l2|]; [|done].
  unfold gt, Graphviz.lt. rewrite bind_Ok_l.
  destruct (Service.id s) as [i|e1] eqn:Hi;
    [|apply id_raises in Hi as ->].
  - destruct (Service.id t) as [j|e2] eqn:Hj;
      [|apply id_raises in Hj as ->].
    + destruct (_ && _); [|done]. rewrite !bind_Ok_l.
      by destruct (negb _).
    + destruct (_ && _); simpl; by intros [= <-].
  - destruct (_ && _); simpl; by intros [= <-].
Qed.

(** X13.  In the graph that the scan builds from a new one, the type of every
    resource is one that the level table lists: no edge between two of
    its resources fails on the comparison of their levels. *)
Theorem scan_types_have_levels (context : Context) (id : string)
    (s t : ServiceInstance) :
  s ∈ services (scan context (init id)).1 →
  t ∈ services (scan context (init id)).1 →
  level (service_name s) ≠ None
  ∧ level (service_name t) ≠ None
  ∧ edge (Some s) (Some t) (scan context (init id)).1 ≠ Raise TypeError.
Proof.
  assert (H : stored_by_name (fun n => level n ≠ None)
                (scan context (init id)).1).
  { apply stored_scan.
    - by apply (bool_decide_unpack _); vm_compute.
    - intros k v Hin. by apply not_elem_of_nil in Hin. }
  assert (Hlevel : ∀ v, v ∈ services (scan context (init id)).1
                        → level (service_name v) ≠ None).
  { intros v Hv. unfold services in Hv.
    apply list_elem_of_fmap in Hv as ([k v'] & -> & Hin).
    by destruct (H k v' Hin). }
  intros Hs Ht. split; [by apply Hlevel|]. split; [by apply Hlevel|].
  intros Hedge. by apply edge_raises in Hedge; [| apply Hlevel..].
Qed.

(** The interface and the route table of the sample provider. *)
Lemma scan_types_have_levels_at_small :
  new NetworkInterface eni_a "ENI" "eni-1"
    ∈ services (scan small_provider (init "vpc-1")).1
  ∧ new ServiceInstanceC rtb_a "RTB" "rtb-1"
      ∈ services (scan small_provider (init "vpc-1")).1
  ∧ level "ENI" ≠ None
  ∧ level "RTB" ≠ None
  ∧ edge (Some (new NetworkInterface eni_a "ENI" "eni-1"))
         (Some (new ServiceInstanceC rtb_a "RTB" "rtb-1"))
         (scan small_provider (init "vpc-1")).1 ≠ Raise TypeError.
Proof.
  assert (H1 : new NetworkInterface eni_a "ENI" "eni-1"
                 ∈ services (scan small_provider (init "vpc-1")).1)
    by (by apply (bool_decide_unpack _); vm_compute).
  assert (H2 : new ServiceInstanceC rtb_a "RTB" "rtb-1"
                 ∈ services (scan small_provider (init "vpc-1")).1)
    by (by apply (bool_decide_unpack _); vm_compute).
  split; [exact H1|]. split; [exact H2|].
  exact (scan_types_have_levels small_provider "vpc-1" _ _ H1 H2).
Defined.

(** X14.  With the option to ignore the free resources, the graph that the
    scan builds from a new one holds no network ACL, no route table and
    no security group. *)
Theorem scan_without_free_resources (context : Context) (id : string)
    (v : ServiceInstance) :
  ignore_free_resources (options context) = true →
  v ∈ services (scan context (init id)).1 →
  service_name v ∉ ["ACL"; "RTB"; "SG"].
Proof.
  intros Hfree Hv.
  assert (H : stored_by_name (fun n => n ∉ ["ACL"; "RTB"; "SG"])
                (scan context (init id)).1).
  { apply stored_scan_free; [done| |].
    - by apply (bool_decide_unpack _); vm_compute.
    - intros k v' Hin. by apply not_elem_of_nil in Hin. }
  unfold services in Hv.
  apply list_elem_of_fmap in Hv as ([k v'] & -> & Hin).
  by destruct (H k v' Hin).
Qed.

(** The sample provider has a route table; the scan leaves it out. *)
Lemma scan_without_free_resources_at_frugal :
  ignore_free_resources (options frugal_provider) = true
  ∧ new NetworkInterface eni_a "ENI" "eni-1"
      ∈ services (scan frugal_provider (init "vpc-1")).1
  ∧ "ENI" ∉ ["ACL"; "RTB"; "SG"].
Proof.
  assert (H1 : new NetworkInterface eni_a "ENI" "eni-1"
                 ∈ services (scan frugal_provider (init "vpc-1")).1)
    by (by apply (bool_decide_unpack _); vm_compute).
  split; [reflexivity|]. split; [exact H1|].
  exact (scan_without_free_resources frugal_provider "vpc-1" _ eq_refl H1).
Defined.

(** X15.  The scan keeps the lists of the graph within the resource map: when
    every id that a zone or a subnet lists is a key of the map before,
    so it is afterwards, whatever the provider answers and wherever the
    scan stops. *)
Theorem scan_references_stored (context : Context) (self : VPC) :
  references_stored self → references_stored (scan context self).1.
Proof. apply known_scan. Qed.

(** A new graph lists nothing; after the scan with the sample provider,
    the zone lists the subnet and the subnet lists the interface. *)
Lemma scan_references_stored_at_small :
  references_stored (init "vpc-1")
  ∧ references_stored (scan small_provider (init "vpc-1")).1.
Proof.
  assert (H : references_stored (init "vpc-1")).
  { split.
    - intros z zone x Hin. by apply not_elem_of_nil in Hin.
    - intros sn l x Hl. unfold init in Hl. cbn [subnets] in Hl.
      by rewrite lookup_empty in Hl. }
  split; [exact H|].
  exact (scan_references_stored small_provider (init "vpc-1") H).
Defined.

(** X16.  The scan only adds: the id of the graph stays, and every key of the
    resource map, every relation, every zone and every subnet that the
    graph had is still there afterwards, the lists of the zones and of the
    subnets longer at their ends at most. *)
Theorem scan_extends (context : Context) (self : VPC) :
  extends self (scan context self).1.
Proof. apply extends_scan. Qed.


(** X18.  [Region.add_vpc] appends one graph with the given id to the graphs
    of the region, whether the scan ends or raises. *)
Theorem add_vpc_appends (self : Region.Region) (vpc_id : string) :
  ∃ vpc, Region.vpcs (Region.add_vpc self vpc_id).1 = Region.vpcs self ++ [vpc]
         ∧ Vpc.id vpc = vpc_id
         ∧ Region.context (Region.add_vpc self vpc_id).1 = Region.context self
         ∧ Region.name (Region.add_vpc self vpc_id).1 = Region.name self.
Proof.
  unfold Region.add_vpc.
  pose proof (extends_scan (Region.context self) (init vpc_id)) as (Hid & _).
  destruct (scan (Region.context self) (init vpc_id)) as [vpc o].
  exists vpc. by split_and!.
Qed.

End Scanned.

(** ** The scan: exceptions *)

Section ScanErrors.
Import MoreVocabulary MoreSamples.
Import Scan.

Lemma M_bind_unfold {A B} (m : M A) (k : A → M B) (self : VPC) :
  (m ≫= k) self
  = match m self with
    | (self', Return a) => k a self'
    | (self', Throw e) => (self', Throw e)
    end.
Proof. reflexivity. Qed.

Lemma bind_set_service {B} (k : string) (v : ServiceInstance)
    (rest : unit → M B) (self : VPC) :
  (set_service k v ≫= rest) self
  = rest tt (with_services self (set k v (_services self))).
Proof. reflexivity. Qed.

Lemma loop_cons {A} (x : A) (l : list A) (body : A → M unit) :
  loop (x :: l) body = (body x ≫= fun _ => loop l body).
Proof. reflexivity. Qed.

(** The loop of [describe_vpgws]. *)
Lemma vpgws_loop_raises (vpgws : list Description) (self : VPC) :
  Forall (fun vpgw => str_get vpgw "VpnGatewayId" ≠ None) vpgws →
  Exists (fun vpgw => str_get vpgw "AvailabilityZone" ≠ None) vpgws →
  (loop vpgws (fun vpgw =>
     _id ← lift (str_item vpgw "VpnGatewayId");
     set_service _id (new ServiceInstanceC vpgw "VPGW" _id);;
     if has_key "AvailabilityZone" (entries (seen vpgw)) then
       az ← lift (str_item vpgw "AvailabilityZone");
       azs_services_append az _id
     else mret tt) self).2
  = Throw (Builtin AttributeError).
Proof.
  revert self. induction vpgws as [|vpgw vpgws IH]; intros self Hids Hzone.
  - by apply Exists_nil in Hzone.
  - apply Forall_cons in Hids as [Hid Hids].
    assert (∃ k, str_item vpgw "VpnGatewayId" = Return k) as [k Hk].
    { unfold str_item, subscript, str_get in *.
      destruct (get "VpnGatewayId" (entries (seen vpgw))); [by eexists|done]. }
    rewrite loop_cons, M_bind_unfold, Hk, bind_lift_Return, bind_set_service.
    destruct (has_key "AvailabilityZone" (entries (seen vpgw))) eqn:Hkey.
    + assert (∃ az, str_item vpgw "AvailabilityZone" = Return az) as [az Haz].
      { apply has_key_get in Hkey. unfold str_item, subscript.
        destruct (get "AvailabilityZone" (entries (seen vpgw)));
          [by eexists|done]. }
      by rewrite Haz, bind_lift_Return, azs_services_append_state.
    + cbn [mret M_ret]. apply IH; [done|].
      apply Exists_cons in Hzone as [Hz|Hz]; [|done].
      unfold str_get in Hz. apply has_key_get in Hz. congruence.
Qed.

(** X19.  A VPN gateway that names its zone stops the scan of the gateways:
    when every gateway has an id and one of them an entry
    [AvailabilityZone], [describe_vpgws] raises [AttributeError]. *)
Theorem describe_vpgws_zone_raises (context : Context) (self : VPC)
    (vpgws : list Description) :
  describe_vpn_gateways context (Vpc.id self) = Return vpgws →
  Forall (fun vpgw => str_get vpgw "VpnGatewayId" ≠ None) vpgws →
  Exists (fun vpgw => str_get vpgw "AvailabilityZone" ≠ None) vpgws →
  (describe_vpgws context self).2 = Throw (Builtin AttributeError).
Proof.
  intros Hcall Hids Hzone. unfold describe_vpgws.
  rewrite bind_self_id, Hcall, bind_lift_Return.
  by apply vpgws_loop_raises.
Qed.

(** Two gateways, the second with its zone. *)
Lemma describe_vpgws_zone_raises_at_zoned :
  describe_vpn_gateways zoned_provider (Vpc.id (init "vpc-1"))
  = Return [vgw_plain; vgw_zoned]
  ∧ Forall (fun vpgw => str_get vpgw "VpnGatewayId" ≠ None)
           [vgw_plain; vgw_zoned]
  ∧ Exists (fun vpgw => str_get vpgw "AvailabilityZone" ≠ None)
           [vgw_plain; vgw_zoned]
  ∧ (describe_vpgws zoned_provider (init "vpc-1")).2
    = Throw (Builtin AttributeError).
Proof.
  assert (H2 : Forall (fun vpgw => str_get vpgw "VpnGatewayId" ≠ None)
                      [vgw_plain; vgw_zoned])
    by (repeat constructor; discriminate).
  assert (H3 : Exists (fun vpgw => str_get vpgw "AvailabilityZone" ≠ None)
                      [vgw_plain; vgw_zoned])
    by (right; left; discriminate).
  split; [reflexivity|]. split; [exact H2|]. split; [exact H3|].
  exact (describe_vpgws_zone_raises zoned_provider (init "vpc-1") _
           eq_refl H2 H3).
Defined.

(** X20.  An endpoint of a type other than the three that [VpcEndpoint.create]
    knows is not created: the name of its service is read unbound.  When
    it is the first endpoint of the answer, [describe_vpc_epts] raises
    and leaves the graph as it was. *)
Theorem describe_vpc_epts_unknown_type (context : Context) (self : VPC)
    (ept : Description) (rest : list Description) (k t : string) :
  describe_vpc_endpoints context (Vpc.id self) = Return (ept :: rest) →
  str_get ept "VpcEndpointId" = Some k →
  str_get ept "VpcEndpointType" = Some t →
  t ∉ ["Interface"; "Gateway"; "GatewayLoadBalancer"] →
  VpcEndpoint_create ept k = Throw UnboundLocalError
  ∧ describe_vpc_epts context self = (self, Throw UnboundLocalError).
Proof.
  intros Hcall Hk Ht Hother.
  assert (Hcreate : VpcEndpoint_create ept k = Throw UnboundLocalError).
  { unfold VpcEndpoint_create, str_item, subscript. unfold str_get in Ht.
    rewrite Ht. simpl.
    destruct (String.eqb_spec t "Interface") as [->|_];
      [destruct Hother; set_solver|].
    destruct (String.eqb_spec t "Gateway") as [->|_];
      [destruct Hother; set_solver|].
    destruct (String.eqb_spec t "GatewayLoadBalancer") as [->|_];
      [destruct Hother; set_solver|].
    done. }
  split; [exact Hcreate|].
  assert (Hid : str_item ept "VpcEndpointId" = Return k).
  { unfold str_item, subscript. unfold str_get in Hk. by rewrite Hk. }
  unfold describe_vpc_epts.
  rewrite bind_self_id, Hcall, bind_lift_Return, loop_cons, M_bind_unfold.
  by rewrite Hid, bind_lift_Return, Hcreate.
Qed.

(** An endpoint of the type [Resource]. *)
Lemma describe_vpc_epts_unknown_type_at_odd :
  describe_vpc_endpoints odd_provider (Vpc.id (init "vpc-1"))
  = Return [ept_odd]
  ∧ str_get ept_odd "VpcEndpointId" = Some "vpce-1"
  ∧ str_get ept_odd "VpcEndpointType" = Some "Resource"
  ∧ ("Resource" ∉ ["Interface"; "Gateway"; "GatewayLoadBalancer"])
  ∧ VpcEndpoint_create ept_odd "vpce-1" = Throw UnboundLocalError
  ∧ describe_vpc_epts odd_provider (init "vpc-1")
    = (init "vpc-1", Throw UnboundLocalError).
Proof.
  assert (H4 : "Resource" ∉ ["Interface"; "Gateway"; "GatewayLoadBalancer"])
    by (by apply (bool_decide_unpack _); vm_compute).
  split; [reflexivity|]. split; [reflexivity|]. split; [reflexivity|].
  split; [exact H4|].
  exact (describe_vpc_epts_unknown_type odd_provider (init "vpc-1") ept_odd []
           "vpce-1" "Resource" eq_refl eq_refl eq_refl H4).
Defined.

Lemma asg_subnet_no_client_error (id subnet : string) (context : Context) :
  asg_subnet_in_vpc id subnet context ≠ Throw ClientError.
Proof.
  unfold asg_subnet_in_vpc.
  destruct (_ ≫= _) as [[]|[]]; discriminate.
Qed.

Lemma asg_loop_no_client_error (id : string) (l : list string)
    (context : Context) :
  asg_in_vpc_loop id l context ≠ Throw ClientError.
Proof.
  induction l as [|subnet l IH]; [done|]. cbn [asg_in_vpc_loop].
  pose proof (asg_subnet_no_client_error id subnet context) as H.
  destruct (asg_subnet_in_vpc id subnet context) as [[b|]|e]; simpl;
    [done | exact IH | congruence].
Qed.

(** X21.  [asg_in_vpc] never lets a [ClientError] out; and when the provider
    answers each of the subnets of the group with a [ClientError], the
    group counts as outside the VPC. *)
Theorem asg_in_vpc_client_errors (id : string) (asg : Description)
    (context : Context) :
  asg_in_vpc id asg context ≠ Throw ClientError
  ∧ ∀ identifier,
      str_get asg "VPCZoneIdentifier" = Some identifier →
      Forall (fun subnet => describe_subnets_by_id context subnet
                            = Throw ClientError)
             (split "," identifier) →
      asg_in_vpc id asg context = Return false.
Proof.
  unfold asg_in_vpc, str_item, subscript, str_get. split.
  - destruct (get "VPCZoneIdentifier" (entries (seen asg))); [|done].
    apply asg_loop_no_client_error.
  - intros identifier -> Hall. simpl.
    induction Hall as [|subnet l Hsubnet _ IH]; [done|].
    cbn [asg_in_vpc_loop]. unfold asg_subnet_in_vpc. by rewrite Hsubnet.
Qed.

(** A group in two subnets that the sample provider cannot describe. *)
Lemma asg_in_vpc_client_errors_at_small :
  asg_in_vpc "vpc-1" (described [("VPCZoneIdentifier", "subnet-8,subnet-9")])
             small_provider ≠ Throw ClientError
  ∧ str_get (described [("VPCZoneIdentifier", "subnet-8,subnet-9")])
            "VPCZoneIdentifier" = Some "subnet-8,subnet-9"
  ∧ Forall (fun subnet => describe_subnets_by_id small_provider subnet
                          = Throw ClientError)
           (split "," "subnet-8,subnet-9")
  ∧ asg_in_vpc "vpc-1"
      (described [("VPCZoneIdentifier", "subnet-8,subnet-9")]) small_provider
    = Return false.
Proof.
  destruct (asg_in_vpc_client_errors "vpc-1"
              (described [("VPCZoneIdentifier", "subnet-8,subnet-9")])
              small_provider) as [H1 H2].
  assert (H3 : Forall (fun subnet => describe_subnets_by_id small_provider subnet
                                     = Throw ClientError)
                      (split "," "subnet-8,subnet-9"))
    by (repeat constructor).
  split; [exact H1|]. split; [reflexivity|]. split; [exact H3|].
  exact (H2 "subnet-8,subnet-9" eq_refl H3).
Defined.

Lemma pair_values_truthy (pairs : Description) (value : string) :
  value ∈ pair_values pairs → value ≠ EmptyString.
Proof.
  unfold pair_values. simpl. rewrite app_nil_r, elem_of_app.
  intros [H|H].
  - destruct (str_get pairs "GroupId") as [[|c s]|]; simpl in H;
      try (by apply not_elem_of_nil in H).
    by apply list_elem_of_singleton in H as ->.
  - destruct (str_get pairs "VpcPeeringConnectionId") as [[|c s]|];
      simpl in H; try (by apply not_elem_of_nil in H).
    by apply list_elem_of_singleton in H as ->.
Qed.

Lemma permission_pairs_elem (pair : string → string * string)
    (permissions : list Description) (p : string * string) :
  p ∈ (permission_pairs pair permissions).1 →
  ∃ value, p = pair value ∧ value ≠ EmptyString.
Proof.
  induction permissions as [|permission rest IH]; simpl.
  - by intros ?%not_elem_of_nil.
  - destruct (dicts_item permission "UserIdGroupPairs") as [l|e]; simpl;
      [|by intros ?%not_elem_of_nil].
    destruct (permission_pairs pair rest) as [more ending]. simpl in *.
    intros [H|H]%elem_of_app; [|by apply IH].
    apply list_elem_of_fmap in H as (value & -> & Hvalue).
    exists value. split; [done|].
    apply list_elem_of_In, in_flat_map in Hvalue as (pairs & _ & Hin).
    eapply pair_values_truthy. by apply list_elem_of_In.
Qed.

(** X22.  Every pair that [relationships] yields has the group itself at one
    end, as the target for a rule that lets traffic in and as the source
    for one that lets it out, and at the other end a value that is not
    empty. *)
Theorem relationships_touch_group (sg : Description) (me : string)
    (p : string * string) :
  str_get sg "GroupId" = Some me →
  p ∈ (relationships sg).1 →
  (p.2 = me ∧ p.1 ≠ EmptyString) ∨ (p.1 = me ∧ p.2 ≠ EmptyString).
Proof.
  unfold relationships, str_item, subscript, str_get. intros ->.
  destruct (dicts_item sg "IpPermissions") as [ingress|e];
    [|by intros ?%not_elem_of_nil].
  pose proof (permission_pairs_elem (fun value => (value, me)) ingress p)
    as Hin.
  destruct (permission_pairs (fun value => (value, me)) ingress)
    as [yielded [[]|e]]; simpl in *.
  - destruct (dicts_item sg "IpPermissionsEgress") as [egress|e]; simpl.
    + pose proof (permission_pairs_elem (fun value => (me, value)) egress p)
        as Hout.
      destruct (permission_pairs (fun value => (me, value)) egress)
        as [more ending]; simpl in *.
      intros [H|H]%elem_of_app.
      * destruct (Hin H) as (value & -> & ?). by left.
      * destruct (Hout H) as (value & -> & ?). by right.
    + intros H. destruct (Hin H) as (value & -> & ?). by left.
  - intros H. destruct (Hin H) as (value & -> & ?). by left.
Qed.

(** The group of the samples lets in a group and a peering connection. *)
Lemma relationships_touch_group_at_sg :
  str_get sg_a "GroupId" = Some "sg-1"
  ∧ ("pcx-1", "sg-1") ∈ (relationships sg_a).1
  ∧ ((("pcx-1", "sg-1").2 = "sg-1" ∧ ("pcx-1", "sg-1").1 ≠ EmptyString)
     ∨ (("pcx-1", "sg-1").1 = "sg-1" ∧ ("pcx-1", "sg-1").2 ≠ EmptyString)).
Proof.
  assert (H2 : ("pcx-1", "sg-1") ∈ (relationships sg_a).1)
    by (by apply (bool_decide_unpack _); vm_compute).
  split; [reflexivity|]. split; [exact H2|].
  exact (relationships_touch_group sg_a "sg-1" ("pcx-1", "sg-1") eq_refl H2).
Defined.

End ScanErrors.
